(** * v2ex-digest: scorer, MemStore, Collector, Builder, configuration,
      client, raw-data storage and the generate command

    A shallow embedding of [scorer.ts], [mem-store.ts], [collector.ts],
    [builder.ts], [config.ts], [v2ex-client.ts], [storage.ts] and the
    generate command of [index.ts], followed by what is proved of them.

    - JavaScript numbers are kept behind the interface [Number]: the same
      definitions run on IEEE-754 binary64 ([Binary64], Rocq's primitive
      floats, the arithmetic the program executes) and on exact reals
      ([Exact]).  Facts that depend on the order of scores (sortedness, the
      ratchet, decay) are proved for exact arithmetic; facts about NaN and
      infinities are proved on binary64; facts that depend on neither are
      proved for every [Number].
    - Counts ([topN], the [n] of [topItems]) are integers; [slice(0, n)] is
      written out for a negative [n].
    - A JavaScript [Map] is an insertion-ordered association list ([JsMap]);
      a [Set] of strings is an insertion-ordered list without repetition; a
      parsed JSON or YAML value is a [json], an object listing its
      properties in enumeration order ([JsObject]).
    - [Date.now()] is a parameter of every operation that reads the clock:
      one reading per Builder tick and per [scoreAndRank] call, one per
      scored item in the Collector.  The clock of the MemStore is the
      integral number of milliseconds ([Z]).
    - Mutation of [this] is explicit state passing; a tick returns the store
      it leaves and the files it wrote.  The network, the file system and the
      environment are inputs; what [JSON.stringify] and [JSON.parse] make of
      a leaf (an item, a number, a date) is a parameter.  Console output is
      left out, and a tick runs without another tick in between. *)

From Stdlib Require Import ZArith List String Ascii Bool Lia DecimalString.
From Stdlib Require Import Reals Lra.
From Stdlib Require Import Floats.
From Stdlib Require Import Sorting.Sorted Permutation.
Import ListNotations.

Local Open Scope string_scope.
Local Open Scope list_scope.

(* 1.8 is read as the nearest binary64 value, as the JavaScript literal is. *)
Set Warnings "-inexact-float,-register-all".

(* ------------------------------------------------------------------ *)
(** * JavaScript [Map<string, V>] and [Set<string>] *)

Module JsMap.

Section Ops.
Context {V : Type}.

Definition t := list (string * V).

Definition empty : t := [].

(** [m.get(k)]: the value bound to [k], [None] for [undefined]. *)
Fixpoint get (k : string) (m : t) : option V :=
  match m with
  | [] => None
  | (k', v) :: rest => if String.eqb k k' then Some v else get k rest
  end.

Definition has (k : string) (m : t) : bool :=
  match get k m with Some _ => true | None => false end.

(** [m.set(k, v)]: an existing key keeps its place in the iteration order,
    a new key goes last. *)
Fixpoint set (k : string) (v : V) (m : t) : t :=
  match m with
  | [] => [(k, v)]
  | (k', v') :: rest =>
      if String.eqb k k' then (k', v) :: rest else (k', v') :: set k v rest
  end.

(** [m.delete(k)]. *)
Fixpoint delete (k : string) (m : t) : t :=
  match m with
  | [] => []
  | (k', v') :: rest =>
      if String.eqb k k' then delete k rest else (k', v') :: delete k rest
  end.

Definition keys (m : t) : list string := map fst m.

(** [[...m.entries()]]. *)
Definition entries (m : t) : list (string * V) := m.

(** No key twice: what every genuine [Map] satisfies. *)
Definition wf (m : t) : Prop := NoDup (keys m).

Fixpoint wfb (m : t) : bool :=
  match m with
  | [] => true
  | (k, _) :: rest => negb (has k rest) && wfb rest
  end.

End Ops.

Arguments t : clear implicits.

End JsMap.

Module JsSet.

Definition t := list string.

Definition empty : t := [].

Definition has (k : string) (s : t) : bool :=
  existsb (String.eqb k) s.

(** [s.add(k)]: a member is not added again. *)
Definition add (k : string) (s : t) : t :=
  if has k s then s else s ++ [k].

(** [new Set(l)]. *)
Definition of_list (l : list string) : t :=
  fold_left (fun s k => add k s) l empty.

End JsSet.

(* ------------------------------------------------------------------ *)
(** * [Array.prototype.slice(0, end)] *)

(** How many elements [slice(0, n)] keeps of an array of [len] elements,
    for an integral [n]: a negative [n] counts from the end. *)
Definition sliceCount (n : Z) (len : nat) : nat :=
  if (n <? 0)%Z then (len - Z.to_nat (- n))%nat else Nat.min (Z.to_nat n) len.

Definition Array_slice0 {A : Type} (n : Z) (l : list A) : list A :=
  firstn (sliceCount n (List.length l)) l.

(* ------------------------------------------------------------------ *)
(** * JavaScript numbers *)

(** The operations and literals of [number] that the program uses. *)
Class Number (num : Type) := {
  zero : num;                       (* 0 *)
  one : num;                        (* 1 *)
  two : num;                        (* 2 *)
  sixty : num;                      (* 60 *)
  thousand : num;                   (* 1000 *)
  one_point_eight : num;            (* 1.8 *)
  add : num -> num -> num;          (* a + b *)
  sub : num -> num -> num;          (* a - b *)
  mul : num -> num -> num;          (* a * b *)
  div : num -> num -> num;          (* a / b *)
  ltb : num -> num -> bool;         (* a < b *)
  leb : num -> num -> bool;         (* a <= b *)
  isNaN : num -> bool;              (* isNaN(a) *)
  Math_max : num -> num -> num;     (* Math.max(a, b) *)
}.

(** [a > b] is [b < a] in ECMAScript, NaN included. *)
Definition gtb {num} `{Number num} (a b : num) : bool := ltb b a.

(** [Math.pow]: an implementation-approximated function in ECMAScript, so
    on binary64 it stays a parameter. *)
Class MathPow (num : Type) := Math_pow : num -> num -> num.

(** ** IEEE-754 binary64 *)

(** [Math.max]: NaN if either argument is NaN, and [+0] is larger than
    [-0]. *)
Definition float_max (a b : float) : float :=
  if (PrimFloat.is_nan a || PrimFloat.is_nan b)%bool then PrimFloat.nan
  else if PrimFloat.ltb a b then b
  else if PrimFloat.ltb b a then a
  else if PrimFloat.ltb (PrimFloat.div 1%float a) 0%float then b
  else a.

#[export] Instance Binary64 : Number float := {|
  zero := 0%float;
  one := 1%float;
  two := 2%float;
  sixty := 60%float;
  thousand := 1000%float;
  one_point_eight := 1.8%float;
  add := PrimFloat.add;
  sub := PrimFloat.sub;
  mul := PrimFloat.mul;
  div := PrimFloat.div;
  ltb := PrimFloat.ltb;
  leb := PrimFloat.leb;
  isNaN := PrimFloat.is_nan;
  Math_max := float_max;
|}.

(** ** Exact arithmetic *)

Definition Rltb (a b : R) : bool := if Rlt_dec a b then true else false.
Definition Rleb (a b : R) : bool := if Rle_dec a b then true else false.

#[export] Instance Exact : Number R := {|
  zero := 0%R;
  one := 1%R;
  two := 2%R;
  sixty := 60%R;
  thousand := 1000%R;
  one_point_eight := (18 / 10)%R;
  add := Rplus;
  sub := Rminus;
  mul := Rmult;
  div := Rdiv;
  ltb := Rltb;
  leb := Rleb;
  isNaN := fun _ => false;
  Math_max := Rmax;
|}.

(** [Math.pow(x, y)] for a positive base (the scorer's base is at least 2). *)
#[export] Instance ExactPow : MathPow R := Rpower.

(* ------------------------------------------------------------------ *)
(** * types.ts *)

Record NewsItem (num : Type) := mkNewsItem {
  id : string;
  title : string;
  url : string;
  content : string;
  nodeName : string;
  nodeTitle : string;
  author : string;
  replies : num;
  createdAt : num;   (* createdAt.getTime(): milliseconds, NaN for an invalid Date *)
}.

Arguments mkNewsItem {num}.
Arguments id {num}.
Arguments title {num}.
Arguments url {num}.
Arguments content {num}.
Arguments nodeName {num}.
Arguments nodeTitle {num}.
Arguments author {num}.
Arguments replies {num}.
Arguments createdAt {num}.

Record ScoredItem (num : Type) := mkScored {
  item : NewsItem num;
  score : num;
}.

Arguments mkScored {num}.
Arguments item {num}.
Arguments score {num}.

(* ------------------------------------------------------------------ *)
(** * scorer.ts *)

Section Scorer.
Context {num : Type} `{Number num} `{MathPow num}.

(** [computeScore(item)], with [Date.now()] as [now]. *)
Definition computeScore (now : num) (it : NewsItem num) : num :=
  if leb (replies it) zero then zero
  else
    let hoursSincePost :=
      div (sub now (createdAt it)) (mul (mul thousand sixty) sixty) in
    let hours := Math_max hoursSincePost zero in
    let score :=
      div (sub (replies it) one) (Math_pow (add hours two) one_point_eight) in
    if (isNaN score || ltb score zero)%bool then zero else score.

(** [String.prototype.toLowerCase] on ASCII letters; node names are ASCII
    slugs, other bytes are left as they are. *)
Definition lower_ascii (c : ascii) : ascii :=
  let n := nat_of_ascii c in
  if ((65 <=? n)%nat && (n <=? 90)%nat)%bool then ascii_of_nat (n + 32) else c.

Fixpoint toLowerCase (s : string) : string :=
  match s with
  | EmptyString => EmptyString
  | String c rest => String (lower_ascii c) (toLowerCase rest)
  end.

(** [Array.prototype.sort(cmp)] is stable.  For a consistent comparator
    every stable algorithm returns the same array; insertion from the right
    stands for it: [x] moves behind [y] only when [cmp(x, y) > 0]. *)
Fixpoint insertSorted {A : Type} (cmp : A -> A -> num) (x : A) (l : list A)
  : list A :=
  match l with
  | [] => [x]
  | y :: rest =>
      if gtb (cmp x y) zero then y :: insertSorted cmp x rest
      else x :: y :: rest
  end.

Definition Array_sort {A : Type} (cmp : A -> A -> num) (l : list A) : list A :=
  fold_right (insertSorted cmp) [] l.

(** The deduplication loop of [scoreAndRank]: [seen] is the set built so
    far, the result is [unique]. *)
Fixpoint uniqueLoop (skipIds excludeSet seen : JsSet.t)
  (items : list (NewsItem num)) : list (NewsItem num) :=
  match items with
  | [] => []
  | it :: rest =>
      if (JsSet.has (id it) seen || JsSet.has (id it) skipIds)%bool
      then uniqueLoop skipIds excludeSet seen rest
      else if JsSet.has (toLowerCase (nodeName it)) excludeSet
      then uniqueLoop skipIds excludeSet seen rest
      else it :: uniqueLoop skipIds excludeSet (JsSet.add (id it) seen) rest
  end.

(** [scoreAndRank(items, topN, skipIds, excludeNodes)], for an integral
    [topN]. *)
Definition scoreAndRank (now : num) (items : list (NewsItem num)) (topN : Z)
  (skipIds : JsSet.t) (excludeNodes : list string) : list (ScoredItem num) :=
  let excludeSet := JsSet.of_list (map toLowerCase excludeNodes) in
  let unique := uniqueLoop skipIds excludeSet JsSet.empty items in
  let scored :=
    filter (fun s => gtb (score s) zero)
           (map (fun it => mkScored it (computeScore now it)) unique) in
  let sorted := Array_sort (fun a b => sub (score b) (score a)) scored in
  Array_slice0 topN sorted.

End Scorer.

(* ------------------------------------------------------------------ *)
(** * mem-store.ts *)

(** A parsed JSON value.  An object lists its own properties in the order
    [Object.entries] enumerates them. *)
Inductive json (num : Type) : Type :=
| JNull
| JBool (b : bool)
| JNum (n : num)
| JStr (s : string)
| JArr (elems : list (json num))
| JObj (fields : list (string * json num)).

Arguments JNull {num}.
Arguments JBool {num}.
Arguments JNum {num}.
Arguments JStr {num}.
Arguments JArr {num}.
Arguments JObj {num}.

(** What [load] finds at [persistPath]: no file ([existsSync] is false), a
    file that [readFileSync] or [JSON.parse] rejects, or a parsed value. *)
Inductive snapshotFile (num : Type) : Type :=
| Missing
| Unparsable
| Parsed (raw : json num).

Arguments Missing {num}.
Arguments Unparsable {num}.
Arguments Parsed {num}.

Module MemStore.

Record t (num : Type) := mk {
  items : JsMap.t (NewsItem num);
  periodScores : JsMap.t (JsMap.t num);
  published : JsSet.t;
  skipped : JsMap.t Z;          (* key -> expiry timestamp *)
}.

Arguments mk {num}.
Arguments items {num}.
Arguments periodScores {num}.
Arguments published {num}.
Arguments skipped {num}.

(** The body of a [try] block: it runs to its end or throws, and in both
    cases the mutations made so far stay. *)
Inductive outcome (num : Type) : Type :=
| Completed (s : t num)
| Thrown (s : t num).

Arguments Completed {num}.
Arguments Thrown {num}.

Section Ops.
Context {num : Type} `{Number num}.

(** The four collections of a new instance. *)
Definition empty : t num := mk JsMap.empty JsMap.empty JsSet.empty JsMap.empty.

(** The template literal [`${a}:${b}`]. *)
Definition compositeKey (a b : string) : string := a ++ ":" ++ b.

(** [addItem(period, item, score)]. *)
Definition addItem (period : string) (it : NewsItem num) (sc : num) (s : t num)
  : t num :=
  let items' := JsMap.set (id it) it (items s) in
  let scores :=
    match JsMap.get period (periodScores s) with
    | Some scores => scores
    | None => JsMap.empty
    end in
  let existing :=
    match JsMap.get (id it) scores with
    | Some e => e
    | None => zero
    end in
  let scores' := if gtb sc existing then JsMap.set (id it) sc scores else scores in
  mk items' (JsMap.set period scores' (periodScores s)) (published s) (skipped s).

(** The result loop of [topItems]: entries without a stored item are passed
    over. *)
Fixpoint joinItems (its : JsMap.t (NewsItem num)) (entries : list (string * num))
  (result : list (ScoredItem num)) : list (ScoredItem num) :=
  match entries with
  | [] => result
  | (i, sc) :: rest =>
      match JsMap.get i its with
      | Some it => joinItems its rest (result ++ [mkScored it sc])
      | None => joinItems its rest result
      end
  end.

(** [topItems(period, n)]. *)
Definition topItems (period : string) (n : Z) (s : t num)
  : list (ScoredItem num) :=
  match JsMap.get period (periodScores s) with
  | None => []
  | Some scores =>
      let entries :=
        Array_slice0 n (Array_sort (fun a b => sub (snd b) (snd a))
                                   (JsMap.entries scores)) in
      joinItems (items s) entries []
  end.

Definition isPublished (channel period : string) (s : t num) : bool :=
  JsSet.has (compositeKey channel period) (published s).

Definition markPublished (channel period : string) (s : t num) : t num :=
  mk (items s) (periodScores s)
     (JsSet.add (compositeKey channel period) (published s)) (skipped s).

(** [isSkipped(channel, id)] at [Date.now() = now]: the answer and the
    store after the call. *)
Definition isSkipped (now : Z) (channel i : string) (s : t num) : bool * t num :=
  let key := compositeKey channel i in
  match JsMap.get key (skipped s) with
  | None => (false, s)
  | Some expiry =>
      if (now >? expiry)%Z
      then (false, mk (items s) (periodScores s) (published s)
                      (JsMap.delete key (skipped s)))
      else (true, s)
  end.

Definition markSkipped (now : Z) (channel i : string) (ttlMs : Z) (s : t num)
  : t num :=
  mk (items s) (periodScores s) (published s)
     (JsMap.set (compositeKey channel i) (now + ttlMs)%Z (skipped s)).

(** [gc()] at [Date.now() = now]; [cutoffStr] is the ISO date that [Date]
    gives for seven days before today. *)
Definition gc (now : Z) (cutoffStr : string) (s : t num) : t num :=
  let skipped' :=
    fold_left (fun m '(key, expiry) =>
                 if (now >? expiry)%Z then JsMap.delete key m else m)
              (JsMap.entries (skipped s)) (skipped s) in
  let periodScores' :=
    fold_left (fun m period =>
                 if String.ltb period cutoffStr then JsMap.delete period m else m)
              (JsMap.keys (periodScores s)) (periodScores s) in
  mk (items s) periodScores' (published s) skipped'.

(** ** load *)

(** The snapshot is read without validation ([as any[]]), while the maps of
    the store are typed: a leaf is read at its type through one of these
    views, which stay parameters. *)
Context (reviveItem : json num -> NewsItem num)   (* the object, [createdAt] through [new Date] *)
        (scoreOf : json num -> num)
        (keyOf : json num -> string)
        (expiryOf : json num -> Z).

(** Truthiness of a parsed value. *)
Definition truthy (j : json num) : bool :=
  match j with
  | JNull => false
  | JBool b => b
  | JNum n => (ltb n zero || ltb zero n)%bool
  | JStr s => negb (String.eqb s "")
  | JArr _ | JObj _ => true
  end.

(** [raw.k]: [None] when reading the property throws ([raw] is [null]),
    [Some None] for [undefined]. *)
Definition getProp (raw : json num) (k : string) : option (option (json num)) :=
  match raw with
  | JNull => None
  | JObj fields => Some (JsMap.get k fields)
  | _ => Some None
  end.

Fixpoint indexed {A : Type} (i : nat) (l : list A) : list (string * A) :=
  match l with
  | [] => []
  | x :: rest => (NilZero.string_of_uint (Nat.to_uint i), x) :: indexed (S i) rest
  end.

Fixpoint chars (s : string) : list string :=
  match s with
  | EmptyString => []
  | String c rest => String c EmptyString :: chars rest
  end.

(** [Object.entries(v)]: [None] when it throws ([v] is [null]). *)
Definition Object_entries (v : json num) : option (list (string * json num)) :=
  match v with
  | JNull => None
  | JObj fields => Some fields
  | JArr elems => Some (indexed 0 elems)
  | JStr s => Some (indexed 0 (map JStr (chars s)))
  | JBool _ | JNum _ => Some []
  end.

(** The values [for (const key of v)] visits: [None] when [v] is not
    iterable. *)
Definition iterate (v : json num) : option (list (json num)) :=
  match v with
  | JArr elems => Some elems
  | JStr s => Some (map JStr (chars s))
  | _ => None
  end.

(** [for (const [id, item] of Object.entries(raw.items))]:
    [item.createdAt = ...] throws on [null] and, the module being strict
    code, on a primitive. *)
Fixpoint loadItems (entries : list (string * json num)) (s : t num) : outcome num :=
  match entries with
  | [] => Completed s
  | (i, it) :: rest =>
      match it with
      | JObj _ | JArr _ =>
          loadItems rest
            (mk (JsMap.set i (reviveItem it) (items s)) (periodScores s)
                (published s) (skipped s))
      | _ => Thrown s
      end
  end.

(** [new Map(Object.entries(scores))]. *)
Definition mapOfEntries (entries : list (string * json num)) : JsMap.t num :=
  fold_left (fun m '(k, v) => JsMap.set k (scoreOf v) m) entries JsMap.empty.

Fixpoint loadPeriodScores (entries : list (string * json num)) (s : t num)
  : outcome num :=
  match entries with
  | [] => Completed s
  | (period, scores) :: rest =>
      match Object_entries scores with
      | None => Thrown s
      | Some es =>
          loadPeriodScores rest
            (mk (items s) (JsMap.set period (mapOfEntries es) (periodScores s))
                (published s) (skipped s))
      end
  end.

Definition loadPublished (ks : list (json num)) (s : t num) : t num :=
  fold_left (fun st k =>
               mk (items st) (periodScores st)
                  (JsSet.add (keyOf k) (published st)) (skipped st))
            ks s.

Definition loadSkipped (entries : list (string * json num)) (s : t num) : t num :=
  fold_left (fun st '(k, e) =>
               mk (items st) (periodScores st) (published st)
                  (JsMap.set k (expiryOf e) (skipped st)))
            entries s.

(** One [if (raw.k) { ... }] block of the [try] body. *)
Definition section (raw : json num) (k : string)
  (body : json num -> t num -> outcome num) (s : t num) : outcome num :=
  match getProp raw k with
  | None => Thrown s
  | Some None => Completed s
  | Some (Some v) => if truthy v then body v s else Completed s
  end.

Definition andThen (o : outcome num) (k : t num -> outcome num) : outcome num :=
  match o with
  | Completed s => k s
  | Thrown s => Thrown s
  end.

(** The [try] body of [load], after [JSON.parse] returned [raw]. *)
Definition loadBody (raw : json num) (s : t num) : outcome num :=
  andThen (section raw "items"
             (fun v st => match Object_entries v with
                          | Some es => loadItems es st
                          | None => Thrown st
                          end) s) (fun s1 =>
  andThen (section raw "periodScores"
             (fun v st => match Object_entries v with
                          | Some es => loadPeriodScores es st
                          | None => Thrown st
                          end) s1) (fun s2 =>
  andThen (section raw "published"
             (fun v st => match iterate v with
                          | Some ks => Completed (loadPublished ks st)
                          | None => Thrown st
                          end) s2) (fun s3 =>
  section raw "skipped"
             (fun v st => match Object_entries v with
                          | Some es => Completed (loadSkipped es st)
                          | None => Thrown st
                          end) s3))).

(** [load()]: the store afterwards, and whether the [catch] block ran
    (it warns "Failed to load store, starting fresh"). *)
Definition load (file : snapshotFile num) (s : t num) : t num * bool :=
  match file with
  | Missing => (s, false)
  | Unparsable => (s, true)
  | Parsed raw =>
      match loadBody raw s with
      | Completed s' => (s', false)
      | Thrown s' => (s', true)
      end
  end.

(** [new MemStore(dataDir)]. *)
Definition create (file : snapshotFile num) : t num := fst (load file empty).

End Ops.

End MemStore.


(* ------------------------------------------------------------------ *)
(** * builder.ts *)

Record SummarizedItem (num : Type) := mkSummarized {
  s_item : NewsItem num;
  s_score : num;
  description : string;
}.

Arguments mkSummarized {num}.

(** What a tick leaves outside the store. *)
Inductive effect (num : Type) : Type :=
| FileWritten (path contents : string)        (* writeFileSync(outPath, md) *)
| StorePersisted (snapshot : MemStore.t num). (* store.persist() *)

Arguments FileWritten {num}.
Arguments StorePersisted {num}.

(** [persist()]: the snapshot written is the whole store. *)
Definition persist {num : Type} (s : MemStore.t num) : effect num :=
  StorePersisted s.

(* ------------------------------------------------------------------ *)
(** * The snapshot [persist] writes *)

(** The own properties of an object are enumerated in the order of
    [OrdinaryOwnPropertyKeys]: first the keys that are array indices (the
    canonical decimal strings of the integers below 2^32 - 1) in ascending
    order, then the other keys in the order of their creation. *)
Module JsObject.

Definition digit (c : ascii) : option N :=
  let n := N_of_ascii c in
  if ((48 <=? n) && (n <=? 57))%N then Some (n - 48)%N else None.

Fixpoint digits (k : string) (acc : N) : option N :=
  match k with
  | EmptyString => Some acc
  | String c rest =>
      match digit c with
      | Some d => digits rest (10 * acc + d)%N
      | None => None
      end
  end.

(** The index a key stands for, [None] when it is not an array index:
    "7" and "0" are, "07", "-1", "1.5" and "4294967295" are not. *)
Definition arrayIndex (k : string) : option N :=
  match k with
  | EmptyString => None
  | String c rest =>
      if (Ascii.eqb c "0" && negb (String.eqb rest ""))%bool then None
      else match digits k 0 with
           | Some n => if (n <=? 4294967294)%N then Some n else None
           | None => None
           end
  end.

Definition isIndex (k : string) : bool :=
  match arrayIndex k with Some _ => true | None => false end.

Section Order.
Context {V : Type}.

Fixpoint insertAsc (x : N * (string * V)) (l : list (N * (string * V)))
  : list (N * (string * V)) :=
  match l with
  | [] => [x]
  | y :: rest =>
      if (fst y <? fst x)%N then y :: insertAsc x rest else x :: y :: rest
  end.

Definition ascending (l : list (N * (string * V))) : list (N * (string * V)) :=
  fold_right insertAsc [] l.

(** The properties with an index key, each with its index. *)
Definition indexPart (props : list (string * V)) : list (N * (string * V)) :=
  flat_map (fun e => match arrayIndex (fst e) with
                     | Some n => [(n, e)]
                     | None => []
                     end) props.

(** The properties created in the order [props], as enumerated. *)
Definition ownEntries (props : list (string * V)) : list (string * V) :=
  map snd (ascending (indexPart props))
  ++ filter (fun e => negb (isIndex (fst e))) props.

(** [Object.fromEntries(entries)], enumerated: a repeated key keeps the
    place of its first entry and the value of its last. *)
Definition fromEntries (entries : list (string * V)) : list (string * V) :=
  ownEntries (fold_left (fun o e => JsMap.set (fst e) (snd e) o) entries []).

End Order.

End JsObject.

(** The value [JSON.parse] reads back from the text [persist] writes.  The
    leaves are given by what [JSON.stringify] and [JSON.parse] make of them:
    an item ([createdAt] becomes a string), a score and an expiry. *)
Module Persisted.

Section Data.
Context {num : Type}.
Context (itemJson : NewsItem num -> json num)
        (numJson : num -> json num)
        (expiryJson : Z -> json num).

(** [Object.fromEntries(m)] for a [Map] [m], each value written by [leaf]. *)
Definition object {V : Type} (leaf : V -> json num) (m : JsMap.t V) : json num :=
  JObj (JsObject.fromEntries (map (fun e => (fst e, leaf (snd e))) (JsMap.entries m))).

(** The [data] of [persist()]. *)
Definition data (s : MemStore.t num) : json num :=
  JObj [("items", object itemJson (MemStore.items s));
        ("periodScores", object (object numJson) (MemStore.periodScores s));
        ("published", JArr (map JStr (MemStore.published s)));
        ("skipped", object expiryJson (MemStore.skipped s))].

End Data.

End Persisted.

Module Builder.

(** The fields of [AppConfig] that [runOnce] reads. *)
Record AppConfig := mkConfig {
  ai_apiKey : string;
  generate_excludeNodes : list string;
  generate_topN : Z;
  generate_skipHours : Z;
  template_title : string;
}.

(** What the tick reads from [Date]. *)
Record Clock := mkClock {
  now : Z;               (* Date.now() *)
  today : string;        (* new Date().toISOString().slice(0, 10) *)
  cutoffStr : string;    (* the cutoff date gc() computes *)
}.

Record Tick (num : Type) := mkTick {
  returned : option string;       (* null is None *)
  store : MemStore.t num;
  effects : list (effect num);
}.

Arguments mkTick {num}.
Arguments returned {num}.
Arguments store {num}.
Arguments effects {num}.

Definition channel : string := "v2ex-digest".
Definition minItems : nat := 5.

Section RunOnce.
Context {num : Type} `{Number num}.

(** The collaborators of the tick: the summarizer and the renderer. *)
Context (summarizeItem : string -> string -> string -> string)
        (summarizePost : list (NewsItem num) -> string -> string)
        (renderMarkdown : string -> string -> string ->
                          list (SummarizedItem num) -> string)
        (expandVars : string -> string -> string).

(** [candidates.filter(c => !this.store.isSkipped(channel, c.item.id))]:
    every call may evict, so the store is threaded through. *)
Fixpoint filterNotSkipped (now : Z) (cands : list (ScoredItem num))
  (s : MemStore.t num) : list (ScoredItem num) * MemStore.t num :=
  match cands with
  | [] => ([], s)
  | c :: rest =>
      let '(skip, s1) := MemStore.isSkipped now channel (id (item c)) s in
      let '(kept, s2) := filterNotSkipped now rest s1 in
      (if skip then kept else c :: kept, s2)
  end.

(** The candidates of a tick after the three filters, and the store after
    the reads. *)
Definition candidates (config : AppConfig) (clock : Clock) (s : MemStore.t num)
  : list (ScoredItem num) * MemStore.t num :=
  let fetchN := (generate_topN config * 5)%Z in
  let c0 := MemStore.topItems (today clock) fetchN s in
  let excludeSet :=
    JsSet.of_list (map toLowerCase (generate_excludeNodes config)) in
  let c1 :=
    filter (fun c => negb (JsSet.has (toLowerCase (nodeName (item c))) excludeSet))
           c0 in
  let '(c2, s1) := filterNotSkipped (now clock) c1 s in
  let c3 :=
    filter (fun c => (gtb (replies (item c)) zero && gtb (score c) zero)%bool) c2 in
  (c3, s1).

(** The digest of the chosen items: the file to write. *)
Definition digest (config : AppConfig) (period : string)
  (topItems : list (ScoredItem num)) : string :=
  let useAi := negb (String.eqb (ai_apiKey config) "") in
  let summarized :=
    map (fun c =>
           mkSummarized (item c) (score c)
             (if useAi
              then summarizeItem (title (item c)) (content (item c)) "Chinese"
              else ""))
        topItems in
  let postSummary :=
    if useAi then summarizePost (map item topItems) "Chinese" else "" in
  let template :=
    if String.eqb (template_title config) "" then "V2EX 日报 {date}"
    else template_title config in
  renderMarkdown (expandVars template period) period postSummary summarized.

(** [runOnce()]. *)
Definition runOnce (config : AppConfig) (clock : Clock) (s : MemStore.t num)
  : Tick num :=
  let period := today clock in
  if MemStore.isPublished channel period s then mkTick None s []
  else
    let '(cands, s1) := candidates config clock s in
    if (List.length cands <? minItems)%nat then mkTick None s1 []
    else
      let topItems := Array_slice0 (generate_topN config) cands in
      let md := digest config period topItems in
      let outPath := ("out/daily-" ++ period ++ ".md")%string in
      let s2 := MemStore.markPublished channel period s1 in
      let skipMs := (generate_skipHours config * 60 * 60 * 1000)%Z in
      let s3 :=
        fold_left (fun st c => MemStore.markSkipped (now clock) channel
                                 (id (item c)) skipMs st)
                  topItems s2 in
      let s4 := MemStore.gc (now clock) (cutoffStr clock) s3 in
      mkTick (Some outPath) s4 [FileWritten outPath md; persist s4].

End RunOnce.

End Builder.

(* ------------------------------------------------------------------ *)
(** * collector.ts *)

Module Collector.

Section RunOnce.
Context {num : Type} `{Number num} `{MathPow num}.

(** [computeScore(item)] reads [Date.now()] at every call: a fetched item
    comes with the reading taken when the loop scores it. *)
Definition scoreAt (e : num * NewsItem num) : num := computeScore (fst e) (snd e).

(** The inner loop of a tick: the items of one source, each scored and
    stored when its score is above 0. *)
Definition storeItems (period : string) (items : list (num * NewsItem num))
  (s : MemStore.t num) : MemStore.t num :=
  fold_left (fun st e =>
               let sc := scoreAt e in
               if leb sc zero then st else MemStore.addItem period (snd e) sc st)
            items s.

(** [runOnce()]: [fetched] holds, per configured node, what
    [fetchBySource] returned, [None] when it threw (the error is logged and
    the next node is processed). *)
Definition runOnce (period : string)
  (fetched : list (option (list (num * NewsItem num)))) (s : MemStore.t num)
  : MemStore.t num * list (effect num) :=
  let s' :=
    fold_left (fun st r =>
                 match r with
                 | Some items => storeItems period items st
                 | None => st
                 end)
              fetched s in
  (s', [persist s']).

End RunOnce.

End Collector.

(* ------------------------------------------------------------------ *)
(** * storage.ts *)

Module Storage.

(** The data directory: the file names, each with what reading and parsing
    the file gives. *)
Definition dir (num : Type) : Type := JsMap.t (snapshotFile num).

(** [s.endsWith(suffix)]. *)
Definition endsWith (s suffix : string) : bool :=
  let n := String.length s in
  let m := String.length suffix in
  ((m <=? n)%nat && String.eqb (String.substring (n - m) m s) suffix)%bool.

Section Ops.
Context {num : Type} `{Number num}.

(** The leaves: the time value of [new Date(v)] ([None] for [undefined]),
    an item read back from its JSON, and what [JSON.stringify] and
    [JSON.parse] make of an item and of [new Date().toISOString()]. *)
Context (timeOf : option (json num) -> num)
        (reviveItem : json num -> NewsItem num)
        (itemJson : NewsItem num -> json num)
        (timeJson : num -> json num).

(** The name of [filePath(date)] in the directory. *)
Definition fileName (date : string) : string := date ++ ".json".

(** [save(date, items)] at [Date.now() = now]. *)
Definition save (now : num) (date : string) (items : list (NewsItem num))
  (d : dir num) : dir num :=
  JsMap.set (fileName date)
            (Parsed (JObj [("date", JStr date); ("fetchedAt", timeJson now);
                           ("items", JArr (map itemJson items))]))
            d.

(** [load(date)]: [None] when it throws. *)
Definition load (date : string) (d : dir num) : option (list (NewsItem num)) :=
  match JsMap.get (fileName date) d with
  | None => Some []
  | Some (Parsed data) =>
      match MemStore.getProp data "items" with
      | Some (Some (JArr elems)) => Some (map reviveItem elems)
      | _ => None
      end
  | Some _ => None
  end.

(** [for (const item of data.items) ids.add(item.id)]: the loop stops
    where [item.id] throws, and [ids] holds the string members of the set,
    the only ones [has] finds for a string. *)
Fixpoint addIds (items : list (json num)) (ids : JsSet.t) : JsSet.t :=
  match items with
  | [] => ids
  | item :: rest =>
      match MemStore.getProp item "id" with
      | None => ids
      | Some (Some (JStr i)) => addIds rest (JsSet.add i ids)
      | Some _ => addIds rest ids
      end
  end.

(** The [try] block of [getRecentIds] for one file; the [catch] block
    skips to the next file. *)
Definition readFile (cutoff : num) (file : snapshotFile num) (ids : JsSet.t)
  : JsSet.t :=
  match file with
  | Parsed data =>
      match MemStore.getProp data "fetchedAt" with
      | None => ids
      | Some fetchedAt =>
          if leb cutoff (timeOf fetchedAt) then
            match MemStore.getProp data "items" with
            | Some (Some v) =>
                match MemStore.iterate v with
                | Some items => addIds items ids
                | None => ids
                end
            | _ => ids
            end
          else ids
      end
  | _ => ids
  end.

(** [getRecentIds(hours)] at [Date.now() = now]. *)
Definition getRecentIds (now hours : num) (d : dir num) : JsSet.t :=
  let cutoff := sub now (mul (mul (mul hours sixty) sixty) thousand) in
  let files := filter (fun f => endsWith (fst f) ".json") d in
  fold_left (fun ids f => readFile cutoff (snd f) ids) files JsSet.empty.

End Ops.

End Storage.

(* ------------------------------------------------------------------ *)
(** * index.ts: the generate command *)

Module Generate.

(** How [runGenerate] ends after the configuration is loaded:
    [process.exit(1)], or the digest written and the raw data saved. *)
Inductive finished (num : Type) : Type :=
| Exited
| Written (outPath md : string) (data : Storage.dir num).

Arguments Exited {num}.
Arguments Written {num}.

(** What the run reads from the options and the configuration. *)
Record Settings (num : Type) := mkSettings {
  topN : Z;
  skipHours : num;
  excludeNodes : list string;
  useAi : bool;              (* opts.ai !== false && config.ai.apiKey *)
  templateTitle : string;    (* config.template.title *)
}.

Arguments mkSettings {num}.
Arguments topN {num}.
Arguments skipHours {num}.
Arguments excludeNodes {num}.
Arguments useAi {num}.
Arguments templateTitle {num}.

(** The readings of the clock: in [getRecentIds], in [scoreAndRank] and in
    [save], and the date of the run. *)
Record Clock (num : Type) := mkClock {
  atSkip : num;
  atScore : num;
  atSave : num;
  today : string;
}.

Arguments mkClock {num}.
Arguments atSkip {num}.
Arguments atScore {num}.
Arguments atSave {num}.
Arguments today {num}.

Section Run.
Context {num : Type} `{Number num} `{MathPow num}.
Context (timeOf : option (json num) -> num)
        (itemJson : NewsItem num -> json num)
        (timeJson : num -> json num).
Context (summarizeItem : string -> string -> string -> string)
        (summarizePost : list (NewsItem num) -> string -> string)
        (renderMarkdown : string -> string -> string ->
                          list (SummarizedItem num) -> string)
        (expandVars : string -> string -> string).

(** [allItems]: what the sources that answered returned, in order. *)
Definition allItems (fetched : list (option (list (NewsItem num))))
  : list (NewsItem num) :=
  flat_map (fun r => match r with Some items => items | None => [] end) fetched.

(** [ranked]. *)
Definition ranked (settings : Settings num) (clock : Clock num)
  (fetched : list (option (list (NewsItem num)))) (data : Storage.dir num)
  : list (ScoredItem num) :=
  scoreAndRank (atScore clock) (allItems fetched) (topN settings)
               (Storage.getRecentIds timeOf (atSkip clock) (skipHours settings)
                                     data)
               (excludeNodes settings).

(** [runGenerate] from the fetch loop on. *)
Definition runGenerate (settings : Settings num) (clock : Clock num)
  (fetched : list (option (list (NewsItem num)))) (data : Storage.dir num)
  : finished num :=
  match allItems fetched with
  | [] => Exited
  | _ =>
      match ranked settings clock fetched data with
      | [] => Exited
      | chosen =>
          let summarized :=
            map (fun c =>
                   mkSummarized (item c) (score c)
                     (if useAi settings
                      then summarizeItem (title (item c)) (content (item c))
                                         "Chinese"
                      else ""))
                chosen in
          let postSummary :=
            if useAi settings then summarizePost (map item chosen) "Chinese"
            else "" in
          let template :=
            if String.eqb (templateTitle settings) "" then "V2EX 日报 {date}"
            else templateTitle settings in
          let md := renderMarkdown (expandVars template (today clock))
                                   (today clock) postSummary summarized in
          Written ("out/daily-" ++ today clock ++ ".md") md
                  (Storage.save itemJson timeJson (atSave clock) (today clock)
                                (allItems fetched) data)
      end
  end.

End Run.

End Generate.

(* ------------------------------------------------------------------ *)
(** * v2ex-client.ts *)

(** Strings hold the UTF-8 bytes of the JavaScript string, so that
    [encodeURIComponent] works byte by byte. *)
Module V2EXClient.

Definition V2EX_BASE_URL : string := "https://www.v2ex.com".

Definition isDigit (c : ascii) : bool :=
  let n := nat_of_ascii c in ((48 <=? n)%nat && (n <=? 57)%nat)%bool.

Definition isUpper (c : ascii) : bool :=
  let n := nat_of_ascii c in ((65 <=? n)%nat && (n <=? 90)%nat)%bool.

Definition isLowerLetter (c : ascii) : bool :=
  let n := nat_of_ascii c in ((97 <=? n)%nat && (n <=? 122)%nat)%bool.

(** The characters [encodeURIComponent] leaves as they are:
    [A-Z a-z 0-9 - _ . ! ~ * ' ( )]. *)
Definition unreserved (c : ascii) : bool :=
  (isUpper c || isLowerLetter c || isDigit c ||
   existsb (Ascii.eqb c) ["-"; "_"; "."; "!"; "~"; "*"; "'"; "("; ")"])%bool%char.

Definition hexDigit (d : nat) : ascii :=
  if (d <? 10)%nat then ascii_of_nat (48 + d) else ascii_of_nat (55 + d).

Definition encodeByte (c : ascii) : string :=
  if unreserved c then String c EmptyString
  else String "%" (String (hexDigit (nat_of_ascii c / 16))
                     (String (hexDigit (nat_of_ascii c mod 16)) EmptyString)).

Fixpoint encodeURIComponent (s : string) : string :=
  match s with
  | EmptyString => EmptyString
  | String c rest => (encodeByte c ++ encodeURIComponent rest)%string
  end.

(** The path [fetchBySource(source)] requests: the [switch] on
    [source.toLowerCase()], and the template literal of [fetchByNode]. *)
Definition sourcePath (source : string) : string :=
  let lowered := toLowerCase source in
  if String.eqb lowered "hot" then "/api/topics/hot.json"
  else if String.eqb lowered "latest" then "/api/topics/latest.json"
  else ("/api/topics/show.json?node_name=" ++ encodeURIComponent source)%string.

(** A topic as the API returns it, at the types of [V2EXTopic]; [node] and
    [member] may be missing. *)
Record V2EXTopic (num : Type) := mkTopic {
  t_id : num;
  t_title : string;
  t_url : string;
  t_content : string;
  t_replies : num;
  t_node : option (string * string);      (* name, title *)
  t_member : option string;               (* username *)
  t_created : num;
}.

Arguments mkTopic {num}.
Arguments t_id {num}.
Arguments t_title {num}.
Arguments t_url {num}.
Arguments t_content {num}.
Arguments t_replies {num}.
Arguments t_node {num}.
Arguments t_member {num}.
Arguments t_created {num}.

Section Client.
Context {num : Type} `{Number num}.

(** [String(n)] and the time value of [new Date(ms)]. *)
Context (Number_toString : num -> string) (Date_of : num -> num).

(** [a || b] on strings. *)
Definition orElse (a b : string) : string :=
  if String.eqb a "" then b else a.

(** [normalize(t)]. *)
Definition normalize (t : V2EXTopic num) : NewsItem num :=
  mkNewsItem
    (Number_toString (t_id t))
    (t_title t)
    (orElse (t_url t) (V2EX_BASE_URL ++ "/t/" ++ Number_toString (t_id t)))
    (orElse (t_content t) "")
    (orElse (match t_node t with Some n => fst n | None => "" end) "")
    (orElse (match t_node t with Some n => snd n | None => "" end) "")
    (orElse (match t_member t with Some u => u | None => "" end) "")
    (if (ltb (t_replies t) zero || ltb zero (t_replies t))%bool
     then t_replies t else zero)
    (Date_of (mul (t_created t) thousand)).

(** [fetchBySource(source)]: [api] answers a URL with the topics of the
    response, [None] when [request] throws (the fetch fails, the status is
    not ok or the body is not JSON). *)
Definition fetchBySource (api : string -> option (list (V2EXTopic num)))
  (source : string) : option (list (NewsItem num)) :=
  match api (V2EX_BASE_URL ++ sourcePath source)%string with
  | Some topics => Some (map normalize topics)
  | None => None
  end.

End Client.

End V2EXClient.

(* ------------------------------------------------------------------ *)
(** * config.ts *)

(** An object under construction lists its properties in the order of their
    creation ([JsMap.set]); the finished object lists them as they are
    enumerated ([JsObject.ownEntries]). *)
Module Config.

Definition isLower (c : ascii) : bool :=
  let n := nat_of_ascii c in ((97 <=? n)%nat && (n <=? 122)%nat)%bool.

(** [c.toUpperCase()] for a letter matched by [[a-z]]. *)
Definition upper_ascii (c : ascii) : ascii :=
  if isLower c then ascii_of_nat (nat_of_ascii c - 32) else c.

(** [key.replace(/_([a-z])/g, (_, c) => c.toUpperCase())]: the matches are
    found from left to right and do not overlap. *)
Fixpoint camelKey (key : string) : string :=
  match key with
  | EmptyString => EmptyString
  | String c rest =>
      if Ascii.eqb c "_" then
        match rest with
        | String d rest' =>
            if isLower d then String (upper_ascii d) (camelKey rest')
            else String c (camelKey rest)
        | EmptyString => String c EmptyString
        end
      else String c (camelKey rest)
  end.

Section Merge.
Context {num : Type} `{Number num}.

(** [snakeToCamel(obj)]. *)
Fixpoint snakeToCamel (obj : json num) : json num :=
  match obj with
  | JArr elems => JArr (map snakeToCamel elems)
  | JObj fields =>
      JObj (JsObject.ownEntries
              ((fix loop (es : list (string * json num))
                         (result : list (string * json num)) :=
                  match es with
                  | [] => result
                  | (key, value) :: rest =>
                      loop rest (JsMap.set (camelKey key) (snakeToCamel value)
                                           result)
                  end) fields []))
  | _ => obj
  end.

(** [{ ...target }]: the own enumerable properties of [target], none for
    [null] and for a number or a boolean. *)
Definition spread (target : json num) : list (string * json num) :=
  match MemStore.Object_entries target with
  | Some es => es
  | None => []
  end.

(** [typeof v === "object"], [v] being [undefined] for [None]. *)
Definition typeofObject (v : option (json num)) : bool :=
  match v with
  | Some JNull | Some (JArr _) | Some (JObj _) => true
  | _ => false
  end.

(** The body of [deepMerge(target, source)] for a [source] on which
    [Object.keys] does not throw.  [sv && typeof sv === "object" &&
    !Array.isArray(sv)] holds of an object only, so the recursive call
    never meets [null]; a parsed value is never [undefined]. *)
Fixpoint merged (target source : json num) {struct source} : json num :=
  JObj (JsObject.ownEntries
    match source with
    | JObj fields =>
        (fix loop (es : list (string * json num))
                  (result : list (string * json num)) :=
           match es with
           | [] => result
           | (key, sv) :: rest =>
               loop rest
                 match sv, JsMap.get key result with
                 | JObj _, Some tv =>
                     if typeofObject (Some tv)
                     then JsMap.set key (merged tv sv) result
                     else JsMap.set key sv result
                 | _, _ => JsMap.set key sv result
                 end
           end) fields (spread target)
    | JArr elems =>
        (fix loop (i : nat) (es : list (json num))
                  (result : list (string * json num)) :=
           match es with
           | [] => result
           | sv :: rest =>
               let key := NilZero.string_of_uint (Nat.to_uint i) in
               loop (S i) rest
                 match sv, JsMap.get key result with
                 | JObj _, Some tv =>
                     if typeofObject (Some tv)
                     then JsMap.set key (merged tv sv) result
                     else JsMap.set key sv result
                 | _, _ => JsMap.set key sv result
                 end
           end) 0%nat elems (spread target)
    | JStr _ =>
        fold_left (fun result e => JsMap.set (fst e) (snd e) result)
                  (spread source) (spread target)
    | _ => spread target
    end).

(** [deepMerge(target, source)]: [None] when it throws, [Object.keys(null)]
    being a TypeError. *)
Definition deepMerge (target source : json num) : option (json num) :=
  match source with
  | JNull => None
  | _ => Some (merged target source)
  end.

End Merge.

(** [DEFAULTS]. *)
Definition DEFAULTS : json float :=
  JObj [("v2ex", JObj [("token", JStr "")]);
        ("ai", JObj [("provider", JStr "openai"); ("apiKey", JStr "");
                     ("model", JStr "gpt-4o-mini"); ("baseUrl", JStr "")]);
        ("generate",
         JObj [("nodes", JArr [JStr "hot"]);
               ("excludeNodes",
                JArr [JStr "promotions"; JStr "deals"; JStr "cv";
                      JStr "exchange"]);
               ("topN", JNum 20%float); ("skipHours", JNum 72%float);
               ("fetchIntervalMin", JNum 10%float);
               ("buildIntervalMin", JNum 30%float)]);
        ("template", JObj [("title", JStr "V2EX 日报 {date}")])].

(** How [loadConfig] ends: it returns the config, it returns a config
    whose [ai] is an array that was given the property [apiKey], or it
    throws. *)
Inductive loaded : Type :=
| Loaded (config : json float)
| LoadedArrayAi (config : json float) (apiKey : string)
| Threw.

(** [process.env.OPENAI_API_KEY ?? process.env.ANTHROPIC_API_KEY ?? ""]. *)
Definition envKey (openai anthropic : option string) : string :=
  match openai with
  | Some k => k
  | None => match anthropic with Some k => k | None => "" end
  end.

(** The env fallback: [if (!config.ai.apiKey) config.ai.apiKey = ...].
    Reading a property of [null] or [undefined] throws, and so does, the
    module being strict code, creating one on a primitive.  (When neither
    the file nor the overrides have an [ai] section the assignment writes
    to the section object of [DEFAULTS] itself; the one call a process
    makes does not see the difference.) *)
Definition envFallback (openai anthropic : option string) (config : json float)
  : loaded :=
  match MemStore.getProp config "ai" with
  | Some (Some (JObj ai)) =>
      match JsMap.get "apiKey" ai with
      | Some k =>
          if MemStore.truthy k then Loaded config
          else Loaded (JObj (JsMap.set "ai"
                               (JObj (JsMap.set "apiKey"
                                        (JStr (envKey openai anthropic)) ai))
                               (spread config)))
      | None =>
          Loaded (JObj (JsMap.set "ai"
                          (JObj (JsObject.ownEntries
                                   (JsMap.set "apiKey"
                                      (JStr (envKey openai anthropic)) ai)))
                          (spread config)))
      end
  | Some (Some (JArr _)) => LoadedArrayAi config (envKey openai anthropic)
  | _ => Threw
  end.

(** [loadConfig(configPath, cliOverrides)]: [file] is what the first
    existing candidate path holds ([Missing] when none exists, [Unparsable]
    when [YAML.parse] throws), [cliOverrides] is [None] for [undefined]. *)
Definition loadConfig (file : snapshotFile float)
  (cliOverrides : option (json float)) (openai anthropic : option string)
  : loaded :=
  match file with
  | Unparsable => Threw
  | _ =>
      let fileConfig :=
        match file with
        | Parsed JNull => JObj []                       (* parsed ?? {} *)
        | Parsed parsed => snakeToCamel parsed
        | _ => JObj []
        end in
      match deepMerge DEFAULTS fileConfig with
      | None => Threw
      | Some config =>
          let config' :=
            match cliOverrides with
            | Some overrides =>
                if MemStore.truthy overrides then deepMerge config overrides
                else Some config
            | None => Some config
            end in
          match config' with
          | Some c => envFallback openai anthropic c
          | None => Threw
          end
      end
  end.

End Config.

(* ------------------------------------------------------------------ *)
(** * index.ts: the options of the generate command *)

Module Cli.

(** The options that reach the configuration, [None] for an option not
    given; [--top-n] holds the result of [parseInt]. *)
Record Opts (num : Type) := mkOpts {
  o_nodes : option (list string);
  o_topN : option num;
  o_excludeNodes : option (list string);
  o_token : option string;
  o_aiProvider : option string;
  o_aiModel : option string;
  o_aiBaseUrl : option string;
  o_aiApiKey : option string;
}.

Arguments mkOpts {num}.
Arguments o_nodes {num}.
Arguments o_topN {num}.
Arguments o_excludeNodes {num}.
Arguments o_token {num}.
Arguments o_aiProvider {num}.
Arguments o_aiModel {num}.
Arguments o_aiBaseUrl {num}.
Arguments o_aiApiKey {num}.

Section Overrides.
Context {num : Type} `{Number num}.

(** [cliOverrides.sec = { ...cliOverrides.sec, fld: v }]. *)
Definition withField (sec fld : string) (v : json num)
  (o : list (string * json num)) : list (string * json num) :=
  let old := match JsMap.get sec o with
             | Some section => Config.spread section
             | None => []
             end in
  JsMap.set sec (JObj (JsObject.ownEntries (JsMap.set fld v old))) o.

(** [if (opts.x) ...] for an option that holds an array: an array is
    truthy, even an empty one. *)
Definition ifList (sec fld : string) (v : option (list string))
  (o : list (string * json num)) : list (string * json num) :=
  match v with
  | Some l => withField sec fld (JArr (map JStr l)) o
  | None => o
  end.

Definition ifNumber (sec fld : string) (v : option num)
  (o : list (string * json num)) : list (string * json num) :=
  match v with
  | Some n => if MemStore.truthy (JNum n) then withField sec fld (JNum n) o else o
  | None => o
  end.

Definition ifString (sec fld : string) (v : option string)
  (o : list (string * json num)) : list (string * json num) :=
  match v with
  | Some x => if MemStore.truthy (@JStr num x) then withField sec fld (JStr x) o
              else o
  | None => o
  end.

(** The [cliOverrides] that [runGenerate] builds, line by line. *)
Definition cliOverrides (opts : Opts num) : json num :=
  JObj (JsObject.ownEntries
    (ifString "ai" "apiKey" (o_aiApiKey opts)
    (ifString "ai" "baseUrl" (o_aiBaseUrl opts)
    (ifString "ai" "model" (o_aiModel opts)
    (ifString "ai" "provider" (o_aiProvider opts)
    (ifString "v2ex" "token" (o_token opts)
    (ifList "generate" "excludeNodes" (o_excludeNodes opts)
    (ifNumber "generate" "topN" (o_topN opts)
    (ifList "generate" "nodes" (o_nodes opts) []))))))))).

End Overrides.

End Cli.

(* ------------------------------------------------------------------ *)
(** * The scorer on binary64 *)

Module ScorerBinary64.


(** The quotient [computeScore] tests: [(replies - 1) / Math.pow(hours + 2, 1.8)]. *)
Definition rawScore (pow : MathPow float) (now : float) (it : NewsItem float) : float :=
  let hours :=
    float_max (PrimFloat.div (PrimFloat.sub now (createdAt it)) 3600000%float)
              0%float in
  PrimFloat.div (PrimFloat.sub (replies it) 1%float)
                (pow (PrimFloat.add hours 2%float) 1.8%float).

(** An item that carries only what the scorer reads. *)
Definition scored_item (r c : float) : NewsItem float :=
  mkNewsItem "1" "" "" "" "" "" "" r c.




Section WithPow.
Context (pow : MathPow float).

Lemma computeScore_binary64_unfold (now : float) (it : NewsItem float) :
  computeScore now it =
  if PrimFloat.leb (replies it) 0%float then 0%float
  else if (PrimFloat.is_nan (rawScore pow now it)
           || PrimFloat.ltb (rawScore pow now it) 0%float)%bool
       then 0%float else rawScore pow now it.
Proof. reflexivity. Qed.



End WithPow.



End ScorerBinary64.

(* ------------------------------------------------------------------ *)
(** * The scorer in exact arithmetic *)

Module ScorerExact.

Local Open Scope R_scope.

Definition msPerHour : R := 1000 * 60 * 60.

(** Hours since the post, clamped at 0. *)
Definition hours (now : R) (it : NewsItem R) : R :=
  Rmax ((now - createdAt it) / msPerHour) 0.

Definition decayed (now : R) (it : NewsItem R) : R :=
  (replies it - 1) / Rpower (hours now it + 2) (18 / 10).

Definition scored_item (r c : R) : NewsItem R :=
  mkNewsItem "1" "" "" "" "" "" "" r c.

Lemma Rltb_true (a b : R) : a < b -> Rltb a b = true.
Proof. intros Hab. unfold Rltb. destruct (Rlt_dec a b); [reflexivity | lra]. Qed.

Lemma Rltb_false (a b : R) : b <= a -> Rltb a b = false.
Proof. intros Hab. unfold Rltb. destruct (Rlt_dec a b); [lra | reflexivity]. Qed.

Lemma Rleb_true (a b : R) : a <= b -> Rleb a b = true.
Proof. intros Hab. unfold Rleb. destruct (Rle_dec a b); [reflexivity | lra]. Qed.

Lemma Rleb_false (a b : R) : b < a -> Rleb a b = false.
Proof. intros Hab. unfold Rleb. destruct (Rle_dec a b); [lra | reflexivity]. Qed.

Lemma msPerHour_pos : 0 < msPerHour.
Proof. unfold msPerHour. lra. Qed.

Lemma hours_nonneg (now : R) (it : NewsItem R) : 0 <= hours now it.
Proof. unfold hours. apply Rmax_r. Qed.

Lemma computeScore_exact_unfold (now : R) (it : NewsItem R) :
  computeScore now it =
  if Rleb (replies it) 0 then 0
  else if Rltb (decayed now it) 0 then 0 else decayed now it.
Proof. reflexivity. Qed.

Lemma pow_pos (now : R) (it : NewsItem R) :
  0 < Rpower (hours now it + 2) (18 / 10).
Proof. unfold Rpower. apply exp_pos. Qed.

(** With more than one reply the guard is idle. *)
Lemma computeScore_decayed (now : R) (it : NewsItem R) :
  1 < replies it -> computeScore now it = decayed now it.
Proof.
  intros Hr. rewrite computeScore_exact_unfold.
  rewrite Rleb_false by lra.
  rewrite Rltb_false; [reflexivity |].
  unfold decayed. apply Rlt_le, Rdiv_lt_0_compat; [lra | apply pow_pos].
Qed.

Lemma computeScore_pos (now : R) (it : NewsItem R) :
  1 < replies it -> 0 < computeScore now it.
Proof.
  intros Hr. rewrite computeScore_decayed by exact Hr.
  unfold decayed. apply Rdiv_lt_0_compat; [lra | apply pow_pos].
Qed.

(** A post dated in the future is scored as a post made now. *)
Lemma hours_clamped (now : R) (it : NewsItem R) :
  now <= createdAt it -> hours now it = 0.
Proof.
  intros Hle. unfold hours. apply Rmax_right.
  pose proof msPerHour_pos as Hc.
  apply Rmult_le_reg_r with msPerHour; [exact Hc |].
  unfold Rdiv. rewrite Rmult_assoc, Rinv_l by lra. lra.
Qed.

Lemma hours_elapsed (now : R) (it : NewsItem R) :
  createdAt it <= now -> hours now it = (now - createdAt it) / msPerHour.
Proof.
  intros Hle. unfold hours. apply Rmax_left.
  pose proof msPerHour_pos as Hc.
  apply Rmult_le_reg_r with msPerHour; [exact Hc |].
  unfold Rdiv. rewrite Rmult_assoc, Rinv_l by lra. lra.
Qed.





Lemma three_pow_1_8 : (Rpower 3 (18 / 10)) ^ 5 = 19683.
Proof.
  rewrite <- Rpower_pow by (unfold Rpower; apply exp_pos).
  rewrite Rpower_mult.
  replace (18 / 10 * INR 5) with (INR 9) by (simpl; lra).
  rewrite Rpower_pow by lra. lra.
Qed.

Lemma three_pow_1_8_bounds : 72 / 10 < Rpower 3 (18 / 10) < 7258 / 1000.
Proof.
  pose proof three_pow_1_8 as H5.
  assert (Hp : 0 < Rpower 3 (18 / 10)) by (unfold Rpower; apply exp_pos).
  split; apply Rnot_le_lt; intros Hle.
  - assert (H : (Rpower 3 (18 / 10)) ^ 5 <= (72 / 10) ^ 5)
      by (apply pow_incr; lra).
    rewrite H5 in H. lra.
  - assert (H : (7258 / 1000) ^ 5 <= (Rpower 3 (18 / 10)) ^ 5)
      by (apply pow_incr; lra).
    rewrite H5 in H. lra.
Qed.

(** Ten replies, posted one hour ago: the score is [9 / 3^1.8], a value
    between 1.24 and 1.25 ([3^1.8] lies between 7.2 and 7.258). *)
Theorem computeScore_one_hour :
  computeScore 3600000 (scored_item 10 0) = 9 / Rpower 3 (18 / 10) /\
  124 / 100 < computeScore 3600000 (scored_item 10 0) < 125 / 100.
Proof.
  assert (Heq : computeScore 3600000 (scored_item 10 0)
                = 9 / Rpower 3 (18 / 10)).
  { rewrite computeScore_decayed by (cbn; lra).
    unfold decayed. rewrite hours_elapsed by (cbn; lra).
    cbn [replies createdAt scored_item]. unfold msPerHour.
    replace ((3600000 - 0) / (1000 * 60 * 60) + 2) with 3 by lra.
    now replace (10 - 1) with 9 by lra. }
  split; [exact Heq |]. rewrite Heq.
  destruct three_pow_1_8_bounds as [Hlo Hhi].
  assert (Hp : 0 < Rpower 3 (18 / 10)) by lra.
  split; apply Rmult_lt_reg_r with (Rpower 3 (18 / 10)); try exact Hp;
    replace (9 / Rpower 3 (18 / 10) * Rpower 3 (18 / 10)) with 9
      by (field; lra);
    lra.
Qed.

End ScorerExact.

(* ------------------------------------------------------------------ *)
(** * Facts about [JsMap] and [JsSet] *)

Module JsMapFacts.

Section Facts.
Context {V : Type}.
Implicit Types (m : JsMap.t V) (k : string) (v : V).

Lemma get_set_same k v m : JsMap.get k (JsMap.set k v m) = Some v.
Proof.
  induction m as [| [k' v'] rest IH]; simpl.
  - now rewrite String.eqb_refl.
  - destruct (String.eqb k k') eqn:E; simpl; rewrite E; [reflexivity | exact IH].
Qed.

Lemma get_set_other k k' v m :
  k <> k' -> JsMap.get k' (JsMap.set k v m) = JsMap.get k' m.
Proof.
  intros Hne. induction m as [| [k0 v0] rest IH]; simpl.
  - destruct (String.eqb k' k) eqn:E; [| reflexivity].
    apply String.eqb_eq in E. congruence.
  - destruct (String.eqb k k0) eqn:E; simpl.
    + apply String.eqb_eq in E. subst k0.
      destruct (String.eqb k' k) eqn:E'; [| reflexivity].
      apply String.eqb_eq in E'. congruence.
    + now rewrite IH.
Qed.

Lemma get_delete_same k m : JsMap.get k (JsMap.delete k m) = None.
Proof.
  induction m as [| [k' v'] rest IH]; simpl; [reflexivity |].
  destruct (String.eqb k k') eqn:E; simpl; [exact IH |].
  now rewrite E.
Qed.

Lemma get_delete_other k k' m :
  k <> k' -> JsMap.get k' (JsMap.delete k m) = JsMap.get k' m.
Proof.
  intros Hne. induction m as [| [k0 v0] rest IH]; simpl; [reflexivity |].
  destruct (String.eqb k k0) eqn:E; simpl.
  - apply String.eqb_eq in E. subst k0.
    destruct (String.eqb k' k) eqn:E'; [| exact IH].
    apply String.eqb_eq in E'. congruence.
  - now rewrite IH.
Qed.

Lemma get_In k v m : JsMap.get k m = Some v -> In (k, v) m.
Proof.
  induction m as [| [k' v'] rest IH]; simpl; [discriminate |].
  destruct (String.eqb k k') eqn:E.
  - apply String.eqb_eq in E. intros [= ->]. subst. now left.
  - intros Hg. right. now apply IH.
Qed.

Lemma get_None_keys k m : JsMap.get k m = None <-> ~ In k (JsMap.keys m).
Proof.
  induction m as [| [k' v'] rest IH]; simpl.
  - split; [intros _ [] | reflexivity].
  - destruct (String.eqb k k') eqn:E.
    + apply String.eqb_eq in E. subst. split; [discriminate |].
      intros Hn. exfalso. apply Hn. now left.
    + apply String.eqb_neq in E. rewrite IH. split.
      * intros Hn [Heq | Hin]; [congruence | contradiction].
      * intros Hn Hin. apply Hn. now right.
Qed.

(** In a map without repeated keys every entry is the one [get] finds. *)
Lemma In_get k v m : JsMap.wf m -> In (k, v) m -> JsMap.get k m = Some v.
Proof.
  unfold JsMap.wf.
  induction m as [| [k' v'] rest IH]; simpl; [intros _ [] |].
  intros Hnd [Heq | Hin]; inversion Hnd as [| ? ? Hnotin Hnd']; subst.
  - injection Heq as -> ->. now rewrite String.eqb_refl.
  - destruct (String.eqb k k') eqn:E; [| now apply IH].
    apply String.eqb_eq in E. subst k'.
    exfalso. apply Hnotin. change k with (fst (k, v)). now apply in_map.
Qed.

Lemma keys_delete k m :
  JsMap.keys (JsMap.delete k m) =
  filter (fun k' => negb (String.eqb k k')) (JsMap.keys m).
Proof.
  induction m as [| [k' v'] rest IH]; simpl; [reflexivity |].
  destruct (String.eqb k k'); simpl; now rewrite IH.
Qed.

Lemma wf_delete k m : JsMap.wf m -> JsMap.wf (JsMap.delete k m).
Proof.
  unfold JsMap.wf. intros Hnd. rewrite keys_delete. now apply NoDup_filter.
Qed.

Lemma keys_set k v m :
  JsMap.keys (JsMap.set k v m) =
  if JsMap.has k m then JsMap.keys m else JsMap.keys m ++ [k].
Proof.
  unfold JsMap.has.
  induction m as [| [k' v'] rest IH]; simpl; [reflexivity |].
  destruct (String.eqb k k') eqn:E; simpl; [reflexivity |].
  rewrite IH. now destruct (JsMap.get k rest).
Qed.

Lemma wf_set k v m : JsMap.wf m -> JsMap.wf (JsMap.set k v m).
Proof.
  unfold JsMap.wf. intros Hnd. rewrite keys_set. unfold JsMap.has.
  destruct (JsMap.get k m) eqn:E; [exact Hnd |].
  apply get_None_keys in E.
  apply NoDup_app; [exact Hnd | repeat constructor; intros [] | ].
  intros x Hx [<- | []]. contradiction.
Qed.

Lemma wfb_wf m : JsMap.wfb m = true <-> JsMap.wf m.
Proof.
  unfold JsMap.wf.
  induction m as [| [k v] rest IH]; simpl.
  - split; [constructor | reflexivity].
  - rewrite andb_true_iff, negb_true_iff, IH. unfold JsMap.has. split.
    + intros [Hg Hnd]. constructor; [| exact Hnd].
      apply get_None_keys. now destruct (JsMap.get k rest).
    + intros Hnd. inversion Hnd as [| ? ? Hnotin Hnd']; subst.
      apply get_None_keys in Hnotin. now rewrite Hnotin.
Qed.

End Facts.

(** Filtering keeps the images under [f] distinct. *)
Lemma NoDup_ids_filter {A B : Type} (keep : A -> bool) (f : A -> B) :
  forall l : list A, NoDup (map f l) -> NoDup (map f (filter keep l)).
Proof.
  induction l as [| x rest IH]; cbn [filter map]; intros Hnd; [exact Hnd |].
  apply NoDup_cons_iff in Hnd as [Hfresh Hrest].
  destruct (keep x); cbn [map]; [| now apply IH].
  apply NoDup_cons; [| now apply IH].
  contradict Hfresh.
  apply in_map_iff in Hfresh as [y [Hy Hin]].
  apply in_map_iff. exists y. split; [exact Hy |].
  now apply filter_In in Hin.
Qed.

(** Two filters in a row are one. *)
Lemma filter_twice {A : Type} (f g : A -> bool) (l : list A) :
  filter f (filter g l) = filter (fun x => (g x && f x)%bool) l.
Proof.
  induction l as [| x rest IH]; cbn [filter]; [reflexivity |].
  destruct (g x); cbn [filter andb]; [destruct (f x) |]; now rewrite IH.
Qed.

Lemma has_add_same k s : JsSet.has k (JsSet.add k s) = true.
Proof.
  unfold JsSet.add. destruct (JsSet.has k s) eqn:E; [exact E |].
  unfold JsSet.has. rewrite existsb_app. simpl.
  now rewrite String.eqb_refl, orb_true_r.
Qed.

Lemma has_add k k' s :
  JsSet.has k' (JsSet.add k s) = (String.eqb k' k || JsSet.has k' s)%bool.
Proof.
  unfold JsSet.add. destruct (JsSet.has k s) eqn:E.
  - destruct (String.eqb k' k) eqn:E'; [| reflexivity].
    apply String.eqb_eq in E'. subst. now rewrite E.
  - unfold JsSet.has. rewrite existsb_app. simpl.
    now rewrite orb_false_r, orb_comm.
Qed.

Lemma add_idempotent k s : JsSet.add k (JsSet.add k s) = JsSet.add k s.
Proof.
  unfold JsSet.add at 1. now rewrite has_add_same.
Qed.

Lemma has_In k s : JsSet.has k s = true <-> In k s.
Proof.
  unfold JsSet.has. rewrite existsb_exists. split.
  - intros [x [Hin E]]. apply String.eqb_eq in E. now subst.
  - intros Hin. exists k. now rewrite String.eqb_refl.
Qed.

Lemma has_of_list_aux k l s :
  JsSet.has k (fold_left (fun s k => JsSet.add k s) l s) = true <->
  In k l \/ JsSet.has k s = true.
Proof.
  revert s. induction l as [| x rest IH]; intros s; simpl.
  - tauto.
  - rewrite IH, has_add, orb_true_iff, String.eqb_eq. intuition congruence.
Qed.

Lemma has_of_list k l : JsSet.has k (JsSet.of_list l) = true <-> In k l.
Proof.
  unfold JsSet.of_list. rewrite has_of_list_aux. unfold JsSet.has. simpl.
  intuition discriminate.
Qed.

(** Membership of a lowered name in the set of lowered names. *)
Lemma has_lowered (node : string) (nodes : list string) :
  JsSet.has (toLowerCase node) (JsSet.of_list (map toLowerCase nodes)) =
  existsb (fun n => String.eqb (toLowerCase node) (toLowerCase n)) nodes.
Proof.
  destruct (existsb _ nodes) eqn:E.
  - apply has_of_list. apply existsb_exists in E as [n [Hin Hn]].
    apply String.eqb_eq in Hn. rewrite Hn. now apply in_map.
  - apply not_true_is_false. intros Hhas. apply has_of_list in Hhas.
    apply in_map_iff in Hhas as [n [Hn Hin]].
    assert (Hex : existsb (fun n => String.eqb (toLowerCase node) (toLowerCase n))
                          nodes = true).
    { apply existsb_exists. exists n. split; [exact Hin |].
      rewrite Hn. apply String.eqb_refl. }
    congruence.
Qed.

End JsMapFacts.

(* ------------------------------------------------------------------ *)
(** * The ratchet of [addItem] *)

Module Ratchet.

Import JsMapFacts.

(** One [addItem] call. *)
Record call (num : Type) := mkCall {
  c_period : string;
  c_item : NewsItem num;
  c_score : num;
}.

Arguments mkCall {num}.
Arguments c_period {num}.
Arguments c_item {num}.
Arguments c_score {num}.

Section Generic.
Context {num : Type} `{Number num}.

Definition run (calls : list (call num)) (s : MemStore.t num) : MemStore.t num :=
  fold_left (fun st c => MemStore.addItem (c_period c) (c_item c) (c_score c) st)
            calls s.

(** The score the store holds for [(period, i)], if any. *)
Definition storedScore (s : MemStore.t num) (period i : string) : option num :=
  match JsMap.get period (MemStore.periodScores s) with
  | Some scores => JsMap.get i scores
  | None => None
  end.

(** Does the call address [(period, i)]? *)
Definition addresses (period i : string) (c : call num) : bool :=
  (String.eqb (c_period c) period && String.eqb (id (c_item c)) i)%bool.

(** The scores passed for [(period, i)], in call order. *)
Definition scoresFor (period i : string) (calls : list (call num)) : list num :=
  map c_score (filter (addresses period i) calls).


Lemma storedScore_addItem (s : MemStore.t num) (c : call num) (period i : string) :
  storedScore (MemStore.addItem (c_period c) (c_item c) (c_score c) s) period i =
  if addresses period i c
  then match storedScore s period i with
       | Some e => Some (if gtb (c_score c) e then c_score c else e)
       | None => if gtb (c_score c) zero then Some (c_score c) else None
       end
  else storedScore s period i.
Proof.
  unfold storedScore, addresses, MemStore.addItem. cbn [MemStore.periodScores].
  destruct (String.eqb (c_period c) period) eqn:Ep; cbn [andb].
  - apply String.eqb_eq in Ep. subst period.
    rewrite get_set_same.
    destruct (JsMap.get (c_period c) (MemStore.periodScores s)) as [scores |].
    + destruct (String.eqb (id (c_item c)) i) eqn:Ei.
      * apply String.eqb_eq in Ei. subst i.
        destruct (JsMap.get (id (c_item c)) scores) as [e |] eqn:Eg.
        -- destruct (gtb (c_score c) e); [now rewrite get_set_same | now rewrite Eg].
        -- destruct (gtb (c_score c) zero); [now rewrite get_set_same | exact Eg].
      * apply String.eqb_neq in Ei.
        destruct (gtb (c_score c) _); [now apply get_set_other | reflexivity].
    + destruct (String.eqb (id (c_item c)) i) eqn:Ei.
      * apply String.eqb_eq in Ei. subst i. cbn [JsMap.get JsMap.empty].
        destruct (gtb (c_score c) zero); [now rewrite get_set_same | reflexivity].
      * apply String.eqb_neq in Ei. cbn [JsMap.get JsMap.empty].
        destruct (gtb (c_score c) zero); [now rewrite get_set_other | reflexivity].
  - apply String.eqb_neq in Ep. now rewrite get_set_other.
Qed.



(** Nothing but [items] and [periodScores] is touched. *)
Lemma addItem_frame (period : string) (it : NewsItem num) (sc : num)
  (s : MemStore.t num) :
  MemStore.published (MemStore.addItem period it sc s) = MemStore.published s /\
  MemStore.skipped (MemStore.addItem period it sc s) = MemStore.skipped s.
Proof. split; reflexivity. Qed.

End Generic.

Local Open Scope R_scope.

(** The largest of [start] and the scores of [l]. *)
Definition maxFrom (start : R) (l : list R) : R := fold_left Rmax l start.

Lemma maxFrom_ge (l : list R) (start : R) : start <= maxFrom start l.
Proof.
  revert start. induction l as [| x rest IH]; intros start; simpl.
  - lra.
  - eapply Rle_trans; [apply (Rmax_l start x) | apply IH].
Qed.


Lemma maxFrom_attained (l : list R) (start : R) :
  maxFrom start l = start \/ In (maxFrom start l) l.
Proof.
  revert start. induction l as [| y rest IH]; intros start; simpl; [now left |].
  destruct (IH (Rmax start y)) as [Heq | Hin]; [| now right; right].
  unfold maxFrom in *. rewrite Heq.
  unfold Rmax. destruct (Rle_dec start y); [right; now left | now left].
Qed.

Lemma gtb_Rmax (sc e : R) : (if gtb sc e then sc else e) = Rmax e sc.
Proof.
  unfold gtb. cbn [ltb Exact]. unfold Rltb, Rmax.
  destruct (Rlt_dec e sc), (Rle_dec e sc); lra.
Qed.

(** The stored score after a run of calls, from any store. *)
Lemma storedScore_run (calls : list (call R)) (s : MemStore.t R) (period i : string) :
  storedScore (run calls s) period i =
  match storedScore s period i with
  | Some e => Some (maxFrom e (scoresFor period i calls))
  | None =>
      if Rltb 0 (maxFrom 0 (scoresFor period i calls))
      then Some (maxFrom 0 (scoresFor period i calls))
      else None
  end.
Proof.
  revert s. induction calls as [| c rest IH]; intros s.
  - cbn. destruct (storedScore s period i); [reflexivity |].
    unfold Rltb. destruct (Rlt_dec 0 0); [lra | reflexivity].
  - change (run (c :: rest) s)
      with (run rest (MemStore.addItem (c_period c) (c_item c) (c_score c) s)).
    rewrite IH, storedScore_addItem. unfold scoresFor. cbn [filter].
    destruct (addresses period i c); [| reflexivity].
    cbn [map]. unfold maxFrom. cbn [fold_left].
    destruct (storedScore s period i) as [e |].
    + now rewrite gtb_Rmax.
    + unfold gtb. cbn [ltb zero Exact].
      destruct (Rltb 0 (c_score c)) eqn:Epos; unfold Rltb in Epos;
        destruct (Rlt_dec 0 (c_score c)) as [Hpos | Hnpos]; try discriminate.
      * rewrite (Rmax_right 0 (c_score c)) by lra.
        pose proof (maxFrom_ge (map c_score (filter (addresses period i) rest))
                               (c_score c)) as Hge.
        unfold maxFrom in Hge.
        unfold Rltb. destruct (Rlt_dec 0 _); [reflexivity | lra].
      * rewrite (Rmax_left 0 (c_score c)) by lra. reflexivity.
Qed.


Definition post (i : string) : NewsItem R :=
  mkNewsItem i "t" "u" "" "tech" "Tech" "a" 10 0.


(** The examples of the specification, as the program runs them: 5 then 3
    leaves 5, 3 then 5 leaves 5, and the item is the last one passed. *)
Definition post64 (t : string) : NewsItem float :=
  mkNewsItem "1" t "u" "" "tech" "Tech" "a" 10%float 0%float.

Example ratchet_5_then_3 :
  storedScore (run [mkCall "2024-01-01" (post64 "old") 5%float;
                    mkCall "2024-01-01" (post64 "new") 3%float] MemStore.empty)
              "2024-01-01" "1" = Some 5%float /\
  storedScore (run [mkCall "2024-01-01" (post64 "old") 3%float;
                    mkCall "2024-01-01" (post64 "new") 5%float] MemStore.empty)
              "2024-01-01" "1" = Some 5%float /\
  JsMap.get "1" (MemStore.items
                   (run [mkCall "2024-01-01" (post64 "old") 5%float;
                         mkCall "2024-01-01" (post64 "new") 3%float]
                        MemStore.empty))
    = Some (post64 "new").
Proof. repeat split; reflexivity. Qed.

(** ** The ratchet as the Collector drives it *)

(** The calls a Collector loop makes: one per item with a score above 0. *)
Definition callsOf (period : string) (items : list (R * NewsItem R))
  : list (call R) :=
  map (fun e => mkCall period (snd e) (Collector.scoreAt e))
      (filter (fun e => negb (Rleb (Collector.scoreAt e) 0)) items).

Lemma storeItems_run (period : string) (items : list (R * NewsItem R))
  (s : MemStore.t R) :
  Collector.storeItems period items s = run (callsOf period items) s.
Proof.
  revert s. induction items as [| e rest IH]; intros s; [reflexivity |].
  unfold Collector.storeItems, callsOf in *. cbn [fold_left filter].
  change (leb (Collector.scoreAt e) zero) with (Rleb (Collector.scoreAt e) 0).
  destruct (Rleb (Collector.scoreAt e) 0); cbn [negb map]; apply IH.
Qed.

Lemma scoresFor_callsOf (period i : string) (items : list (R * NewsItem R)) :
  scoresFor period i (callsOf period items) =
  map Collector.scoreAt
      (filter (fun e => negb (Rleb (Collector.scoreAt e) 0))
              (filter (fun e => String.eqb (id (snd e)) i) items)).
Proof.
  unfold scoresFor, callsOf.
  induction items as [| e rest IH]; [reflexivity |].
  cbn [filter].
  destruct (Rleb (Collector.scoreAt e) 0) eqn:Epos; cbn [negb map filter].
  - destruct (String.eqb (id (snd e)) i); cbn [filter]; [rewrite Epos |]; exact IH.
  - unfold addresses at 1. cbn [c_period c_item]. rewrite String.eqb_refl.
    cbn [andb]. destruct (String.eqb (id (snd e)) i); cbn [filter map];
      [rewrite Epos; cbn [negb map c_score]; now rewrite IH | exact IH].
Qed.

Lemma maxFrom_skip_nonpos {A : Type} (f : A -> R) (l : list A) (start : R) :
  0 <= start ->
  maxFrom start (map f (filter (fun x => negb (Rleb (f x) 0)) l))
  = maxFrom start (map f l).
Proof.
  revert start. induction l as [| x rest IH]; intros start Hs; [reflexivity |].
  cbn [filter map]. unfold Rleb. destruct (Rle_dec (f x) 0) as [Hle | Hgt];
    cbn [negb map]; unfold maxFrom in *; cbn [fold_left].
  - rewrite (Rmax_left start (f x)) by lra. now apply IH.
  - apply IH. eapply Rle_trans; [exact Hs | apply Rmax_l].
Qed.

(** After the Collector stored the items of a source, a pair that held no
    score holds the largest score computed for the fetched items of that id,
    when one of them is above 0, and still none otherwise. *)
Theorem collector_keeps_max (period i : string)
  (items : list (R * NewsItem R)) (s : MemStore.t R) :
  storedScore s period i = None ->
  let computed :=
    map Collector.scoreAt
        (filter (fun e => String.eqb (id (snd e)) i) items) in
  storedScore (Collector.storeItems period items s) period i =
    if Rltb 0 (maxFrom 0 computed) then Some (maxFrom 0 computed) else None.
Proof.
  intros Hnone computed. subst computed.
  rewrite storeItems_run, storedScore_run, Hnone, scoresFor_callsOf.
  now rewrite maxFrom_skip_nonpos by lra.
Qed.

Lemma collector_keeps_max_witness :
  storedScore (Collector.storeItems "2024-01-01" [(0, post "1")] MemStore.empty)
              "2024-01-01" "1"
  = if Rltb 0 (maxFrom 0 [computeScore 0 (post "1")])
    then Some (maxFrom 0 [computeScore 0 (post "1")]) else None.
Proof.
  apply (collector_keeps_max "2024-01-01" "1" [(0, post "1")] MemStore.empty).
  reflexivity.
Defined.

End Ratchet.

(* ------------------------------------------------------------------ *)
(** * Publish markers, skip markers and gc *)

Module Markers.

Import JsMapFacts.

(** A store of the running program, for the examples: binary64 scores. *)
Definition post (i node : string) (r : float) : NewsItem float :=
  mkNewsItem i "t" "u" "" node node "a" r 0%float.

Section Generic.
Context {num : Type} `{Number num}.
Implicit Types (s : MemStore.t num).

(** Every map of the store is a genuine [Map]: no key twice. *)
Definition wf s : Prop :=
  JsMap.wf (MemStore.items s) /\
  JsMap.wf (MemStore.periodScores s) /\
  JsMap.wf (MemStore.skipped s).

Lemma wf_empty : wf MemStore.empty.
Proof. repeat split; constructor. Qed.





(** ** Publish markers *)

Lemma isPublished_markPublished c p s :
  MemStore.isPublished c p (MemStore.markPublished c p s) = true.
Proof. apply has_add_same. Qed.

Lemma markPublished_idempotent c p s :
  MemStore.markPublished c p (MemStore.markPublished c p s) =
  MemStore.markPublished c p s.
Proof.
  unfold MemStore.markPublished. cbn. now rewrite add_idempotent.
Qed.

(** ** Skip markers *)

(** The answer of [isSkipped], without the eviction. *)
Definition skippedAt (now : Z) (c i : string) s : bool :=
  match JsMap.get (MemStore.compositeKey c i) (MemStore.skipped s) with
  | Some expiry => negb (now >? expiry)%Z
  | None => false
  end.

Lemma isSkipped_answer now c i s :
  fst (MemStore.isSkipped now c i s) = skippedAt now c i s.
Proof.
  unfold MemStore.isSkipped, skippedAt.
  destruct (JsMap.get _ _) as [e |]; [| reflexivity].
  now destruct (now >? e)%Z.
Qed.

(** [s1] is [s] with some expired skip markers evicted: all that a read
    changes. *)
Definition evicted (now : Z) s s1 : Prop :=
  MemStore.items s1 = MemStore.items s /\
  MemStore.periodScores s1 = MemStore.periodScores s /\
  MemStore.published s1 = MemStore.published s /\
  forall k,
    JsMap.get k (MemStore.skipped s1) = JsMap.get k (MemStore.skipped s) \/
    (JsMap.get k (MemStore.skipped s1) = None /\
     exists e, JsMap.get k (MemStore.skipped s) = Some e /\ (now > e)%Z).

Lemma evicted_refl now s : evicted now s s.
Proof. repeat split. intros k. now left. Qed.

Lemma evicted_trans now s s1 s2 :
  evicted now s s1 -> evicted now s1 s2 -> evicted now s s2.
Proof.
  intros (Hi & Hp & Hpub & Hk) (Hi' & Hp' & Hpub' & Hk').
  repeat split; try congruence.
  intros k. destruct (Hk' k) as [Heq | (Hnone & e & He & Hexp)].
  - rewrite Heq. apply Hk.
  - right. split; [exact Hnone |].
    destruct (Hk k) as [Heq | (Hnone' & _)]; [| congruence].
    exists e. split; [congruence | exact Hexp].
Qed.

Lemma isSkipped_evicts now c i s :
  evicted now s (snd (MemStore.isSkipped now c i s)).
Proof.
  unfold MemStore.isSkipped.
  destruct (JsMap.get _ _) as [e |] eqn:Eg; [| apply evicted_refl].
  destruct (now >? e)%Z eqn:Ee; [| apply evicted_refl].
  repeat split. cbn. intros k.
  destruct (String.eqb (MemStore.compositeKey c i) k) eqn:Ek.
  - apply String.eqb_eq in Ek. subst k. right.
    split; [apply get_delete_same |]. exists e. split; [exact Eg | lia].
  - apply String.eqb_neq in Ek. left. now apply get_delete_other.
Qed.

(** Evicting expired markers does not change any answer. *)
Lemma skippedAt_evicted now c i s s1 :
  evicted now s s1 -> skippedAt now c i s1 = skippedAt now c i s.
Proof.
  intros (_ & _ & _ & Hk). unfold skippedAt.
  destruct (Hk (MemStore.compositeKey c i)) as [-> | (-> & e & -> & Hexp)];
    [reflexivity |].
  symmetry. apply negb_false_iff. lia.
Qed.

End Generic.

(** C2: after [markPublished(channel, period)], [isPublished(channel, period)]
    is true, and a second [markPublished] leaves the store as it is; a
    Builder tick for a period that is already published returns [null],
    writes and persists nothing, and returns the store unchanged. *)
Theorem publish_once {num : Type} `{Number num}
  (summarizeItem : string -> string -> string -> string)
  (summarizePost : list (NewsItem num) -> string -> string)
  (renderMarkdown : string -> string -> string ->
                    list (SummarizedItem num) -> string)
  (expandVars : string -> string -> string)
  (config : Builder.AppConfig) (clock : Builder.Clock)
  (c p : string) (s : MemStore.t num) :
  MemStore.isPublished c p (MemStore.markPublished c p s) = true /\
  MemStore.markPublished c p (MemStore.markPublished c p s) =
    MemStore.markPublished c p s /\
  (MemStore.isPublished Builder.channel (Builder.today clock) s = true ->
   Builder.runOnce summarizeItem summarizePost renderMarkdown expandVars
                   config clock s
   = Builder.mkTick None s []).
Proof.
  split; [apply isPublished_markPublished |].
  split; [apply markPublished_idempotent |].
  intros Hpub. unfold Builder.runOnce. now rewrite Hpub.
Qed.

(** A configuration and a clock for the examples. *)
Definition config5 : Builder.AppConfig :=
  Builder.mkConfig "" ["promotions"; "deals"] 5 72 "".

Definition noon : Builder.Clock :=
  Builder.mkClock 1704110400000 "2024-01-01" "2023-12-25".

Definition no_summary : string -> string -> string -> string := fun _ _ _ => "".
Definition no_post_summary : list (NewsItem float) -> string -> string :=
  fun _ _ => "".
Definition plain_render
  : string -> string -> string -> list (SummarizedItem float) -> string :=
  fun t _ _ _ => t.
Definition keep_template : string -> string -> string := fun t _ => t.

(** A store with one scored item, already published for the day. *)
Definition published_store : MemStore.t float :=
  MemStore.markPublished Builder.channel "2024-01-01"
    (MemStore.addItem "2024-01-01" (post "1" "tech" 10%float) 1.5%float
                      MemStore.empty).

Lemma publish_once_witness :
  Builder.runOnce no_summary no_post_summary plain_render keep_template
                  config5 noon published_store
  = Builder.mkTick None published_store [].
Proof.
  apply (publish_once no_summary no_post_summary plain_render keep_template
                      config5 noon "v2ex-digest" "2024-01-01" published_store).
  reflexivity.
Defined.

End Markers.

(* ------------------------------------------------------------------ *)
(** * The time to live of a skip marker *)

Module SkipTtl.

Import JsMapFacts.

Section Generic.
Context {num : Type} `{Number num}.
Implicit Types (s : MemStore.t num).

Lemma isSkipped_live now c i s e :
  JsMap.get (MemStore.compositeKey c i) (MemStore.skipped s) = Some e ->
  (now <= e)%Z ->
  MemStore.isSkipped now c i s = (true, s).
Proof.
  intros Hg Hle. unfold MemStore.isSkipped. rewrite Hg.
  destruct (now >? e)%Z eqn:E; [lia | reflexivity].
Qed.

Lemma isSkipped_expired now c i s e :
  JsMap.get (MemStore.compositeKey c i) (MemStore.skipped s) = Some e ->
  (e < now)%Z ->
  MemStore.isSkipped now c i s =
  (false, MemStore.mk (MemStore.items s) (MemStore.periodScores s)
            (MemStore.published s)
            (JsMap.delete (MemStore.compositeKey c i) (MemStore.skipped s))).
Proof.
  intros Hg Hlt. unfold MemStore.isSkipped. rewrite Hg.
  destruct (now >? e)%Z eqn:E; [reflexivity | lia].
Qed.

Lemma isSkipped_unmarked now c i s :
  JsMap.get (MemStore.compositeKey c i) (MemStore.skipped s) = None ->
  MemStore.isSkipped now c i s = (false, s).
Proof. intros Hg. unfold MemStore.isSkipped. now rewrite Hg. Qed.

Lemma get_markSkipped t0 c i ttl s :
  JsMap.get (MemStore.compositeKey c i)
            (MemStore.skipped (MemStore.markSkipped t0 c i ttl s))
  = Some (t0 + ttl)%Z.
Proof. apply get_set_same. Qed.

End Generic.

(** C5 (as amended): a marker set at [t0] with [ttl] answers true at every
    time up to [t0 + ttl], so with [ttl >= 0] it answers true immediately
    after [markSkipped]; at a time later than [t0 + ttl] (more than [ttl]
    elapsed) [isSkipped] answers false and the entry is gone from the skip
    map afterwards, the other entries being kept; for an id without a marker
    [isSkipped] answers false and changes nothing. *)
Theorem skip_marker_ttl {num : Type} `{Number num}
  (s : MemStore.t num) (c i : string) (t0 ttl t : Z) :
  let marked := MemStore.markSkipped t0 c i ttl s in
  let key := MemStore.compositeKey c i in
  ((0 <= ttl)%Z -> MemStore.isSkipped t0 c i marked = (true, marked)) /\
  ((t - t0 <= ttl)%Z -> MemStore.isSkipped t c i marked = (true, marked)) /\
  ((t - t0 > ttl)%Z ->
     fst (MemStore.isSkipped t c i marked) = false /\
     JsMap.has key (MemStore.skipped (snd (MemStore.isSkipped t c i marked)))
       = false /\
     ~ In key (JsMap.keys (MemStore.skipped (snd (MemStore.isSkipped t c i marked)))) /\
     forall k, k <> key ->
       JsMap.get k (MemStore.skipped (snd (MemStore.isSkipped t c i marked)))
       = JsMap.get k (MemStore.skipped marked)) /\
  (JsMap.get key (MemStore.skipped s) = None ->
     MemStore.isSkipped t c i s = (false, s)).
Proof.
  intros marked key.
  pose proof (get_markSkipped t0 c i ttl s) as Hg. fold marked key in Hg.
  split; [intros Httl; apply (isSkipped_live _ _ _ _ _ Hg); lia |].
  split; [intros Hel; apply (isSkipped_live _ _ _ _ _ Hg); lia |].
  split; [| apply isSkipped_unmarked].
  intros Hel.
  rewrite (isSkipped_expired t c i marked _ Hg) by lia. cbn [fst snd MemStore.skipped].
  fold key.
  assert (Hnone : JsMap.get key (JsMap.delete key (MemStore.skipped marked)) = None)
    by apply get_delete_same.
  repeat split.
  - unfold JsMap.has. now rewrite Hnone.
  - now apply get_None_keys.
  - intros k Hk. apply get_delete_other. congruence.
Qed.

(** A marker of one second, asked after half a second. *)
Lemma skip_marker_ttl_witness :
  MemStore.isSkipped 500 "v2ex-digest" "1"
    (MemStore.markSkipped 0 "v2ex-digest" "1" 1000 (@MemStore.empty float))
  = (true, MemStore.markSkipped 0 "v2ex-digest" "1" 1000 (@MemStore.empty float)).
Proof.
  apply (skip_marker_ttl (@MemStore.empty float) "v2ex-digest" "1" 0 1000 500).
  lia.
Defined.

(** C5 as stated fails at the boundary and for a negative [ttl]: when
    exactly [ttl = 1000] ms have elapsed [isSkipped] still answers true and
    keeps the entry, and a marker with [ttl = -1] answers false immediately. *)
Lemma skip_marker_alive_at_ttl :
  MemStore.isSkipped 1000 "v2ex-digest" "1"
    (MemStore.markSkipped 0 "v2ex-digest" "1" 1000 (@MemStore.empty float))
  = (true, MemStore.markSkipped 0 "v2ex-digest" "1" 1000 (@MemStore.empty float)) /\
  fst (MemStore.isSkipped 0 "v2ex-digest" "1"
         (MemStore.markSkipped 0 "v2ex-digest" "1" (-1) (@MemStore.empty float)))
  = false.
Proof. split; reflexivity. Qed.

End SkipTtl.

(* ------------------------------------------------------------------ *)
(** * gc *)

Module Gc.

Import JsMapFacts.

Section Sweep.
Context {V X : Type} (key : X -> string) (dead : X -> bool).

(** A loop that deletes the key of every dead element it visits. *)
Definition sweep (l : list X) (m : JsMap.t V) : JsMap.t V :=
  fold_left (fun m x => if dead x then JsMap.delete (key x) m else m) l m.

(** Is [k] the key of a dead element of [l]? *)
Definition hit (l : list X) (k : string) : bool :=
  existsb (fun x => (String.eqb (key x) k && dead x)%bool) l.

Lemma delete_filter (k : string) (m : JsMap.t V) :
  JsMap.delete k m = filter (fun e => negb (String.eqb k (fst e))) m.
Proof.
  induction m as [| [k' v'] rest IH]; simpl; [reflexivity |].
  destruct (String.eqb k k'); simpl; now rewrite IH.
Qed.

(** The loop leaves exactly the entries whose key it did not hit, in their
    order. *)
Lemma sweep_filter (l : list X) (m : JsMap.t V) :
  sweep l m = filter (fun e => negb (hit l (fst e))) m.
Proof.
  revert m. induction l as [| x rest IH]; intros m; simpl.
  - symmetry. apply forallb_filter_id. now apply forallb_forall.
  - unfold sweep in *. cbn [fold_left]. rewrite IH.
    destruct (dead x) eqn:Ed.
    + rewrite delete_filter, filter_twice.
      apply filter_ext. intros [k v]. cbn [fst].
      rewrite andb_true_r, negb_orb. reflexivity.
    + apply filter_ext. intros [k v]. cbn [fst].
      now rewrite andb_false_r.
Qed.

End Sweep.

Section GetFilter.
Context {V : Type}.

Lemma get_filter (f : string * V -> bool) (m : JsMap.t V) (k : string) (v : V) :
  JsMap.wf m ->
  (JsMap.get k (filter f m) = Some v <->
   JsMap.get k m = Some v /\ f (k, v) = true).
Proof.
  intros Hwf. split.
  - intros Hg. apply get_In in Hg. apply filter_In in Hg as [Hin Hf].
    split; [now apply In_get | exact Hf].
  - intros [Hg Hf]. apply In_get.
    + unfold JsMap.wf, JsMap.keys in *.
      clear - Hwf. induction m as [| [k' v'] rest IH]; simpl; [constructor |].
      inversion Hwf as [| ? ? Hnotin Hnd]; subst.
      destruct (f (k', v')); simpl; [| now apply IH].
      constructor; [| now apply IH].
      intros Hin. apply Hnotin. apply in_map_iff in Hin as [x [Hx Hin]].
      apply filter_In in Hin as [Hin _]. apply in_map_iff. now exists x.
    + apply filter_In. split; [now apply get_In | exact Hf].
Qed.

End GetFilter.

Section Generic.
Context {num : Type} `{Number num}.
Implicit Types (s : MemStore.t num).

(** Has the expiry of a marker passed at [now]? *)
Definition expired (now : Z) (e : string * Z) : bool := (now >? snd e)%Z.

(** Is the period key earlier than the cutoff date? *)
Definition stale (cutoffStr : string) (period : string) : bool :=
  String.ltb period cutoffStr.

Lemma gc_unfold now cutoffStr s :
  MemStore.gc now cutoffStr s =
  MemStore.mk (MemStore.items s)
    (sweep (fun p => p) (stale cutoffStr)
           (JsMap.keys (MemStore.periodScores s)) (MemStore.periodScores s))
    (MemStore.published s)
    (sweep fst (expired now) (MemStore.skipped s) (MemStore.skipped s)).
Proof.
  unfold MemStore.gc, sweep, expired, stale, JsMap.entries. f_equal.
  assert (Hext : forall (l : list (string * Z)) (m : JsMap.t Z),
             fold_left (fun m '(key, expiry) =>
                          if (now >? expiry)%Z then JsMap.delete key m else m) l m
             = fold_left (fun m x =>
                          if (now >? snd x)%Z then JsMap.delete (fst x) m else m) l m).
  { induction l as [| [k e] rest IH]; intros m;
      [reflexivity | cbn [fold_left snd fst]; apply IH]. }
  apply Hext.
Qed.

Lemma hit_entries_wf {V : Type} (dead : string * V -> bool) (m : JsMap.t V)
  (k : string) (v : V) :
  JsMap.wf m -> In (k, v) m -> hit fst dead m k = dead (k, v).
Proof.
  intros Hwf Hin. unfold hit.
  destruct (dead (k, v)) eqn:Ed.
  - apply existsb_exists. exists (k, v). cbn [fst].
    now rewrite String.eqb_refl, Ed.
  - apply not_true_is_false. intros Hex.
    apply existsb_exists in Hex as [[k' v'] [Hin' Hb]]. cbn [fst] in Hb.
    apply andb_true_iff in Hb as [Ek Hd]. apply String.eqb_eq in Ek. subst k'.
    assert (v' = v).
    { apply (In_get _ _ _ Hwf) in Hin. apply (In_get _ _ _ Hwf) in Hin'.
      congruence. }
    subst. congruence.
Qed.

Lemma hit_keys {V : Type} (dead : string -> bool) (m : JsMap.t V)
  (k : string) (v : V) :
  In (k, v) m -> hit (fun p => p) dead (JsMap.keys m) k = dead k.
Proof.
  intros Hin. unfold hit.
  destruct (dead k) eqn:Ed.
  - apply existsb_exists. exists k. split.
    + unfold JsMap.keys. change k with (fst (k, v)). now apply in_map.
    + now rewrite String.eqb_refl, Ed.
  - apply not_true_is_false. intros Hex.
    apply existsb_exists in Hex as [k' [_ Hb]].
    apply andb_true_iff in Hb as [Ek Hd]. apply String.eqb_eq in Ek. subst k'.
    congruence.
Qed.

(** On a genuine store, [gc] is a filter of the two maps: order kept. *)
Lemma gc_filter now cutoffStr s :
  JsMap.wf (MemStore.skipped s) ->
  MemStore.gc now cutoffStr s =
  MemStore.mk (MemStore.items s)
    (filter (fun e => negb (stale cutoffStr (fst e))) (MemStore.periodScores s))
    (MemStore.published s)
    (filter (fun e => negb (expired now e)) (MemStore.skipped s)).
Proof.
  intros Hwf. rewrite gc_unfold, !sweep_filter. f_equal.
  - apply filter_ext_in. intros [k v] Hin. cbn [fst].
    now rewrite (hit_keys _ _ _ _ Hin).
  - apply filter_ext_in. intros [k v] Hin. cbn [fst].
    now rewrite (hit_entries_wf _ _ _ _ Hwf Hin).
Qed.

End Generic.



(** A store with a marker that expired, one that did not, one week-old
    table and one of the day. *)
Definition aged_store : MemStore.t float :=
  MemStore.markSkipped 0 "v2ex-digest" "2" 5000
    (MemStore.markSkipped 0 "v2ex-digest" "1" 1000
       (MemStore.addItem "2024-01-01" (Markers.post "2" "tech" 5%float) 0.5%float
          (MemStore.addItem "2023-12-24" (Markers.post "1" "tech" 10%float) 1.5%float
             MemStore.empty))).



(** On that store gc drops the first marker and the old table only. *)
Example gc_aged_store :
  JsMap.keys (MemStore.skipped (MemStore.gc 2000 "2023-12-25" aged_store))
    = ["v2ex-digest:2"] /\
  JsMap.keys (MemStore.periodScores (MemStore.gc 2000 "2023-12-25" aged_store))
    = ["2024-01-01"].
Proof. split; reflexivity. Qed.

End Gc.

(* ------------------------------------------------------------------ *)
(** * load *)

Module Snapshot.

Section Generic.
Context {num : Type} `{Number num}.
Context (reviveItem : json num -> NewsItem num)
        (scoreOf : json num -> num)
        (keyOf : json num -> string)
        (expiryOf : json num -> Z).

Let load := MemStore.load reviveItem scoreOf keyOf expiryOf.
Let create := MemStore.create reviveItem scoreOf keyOf expiryOf.

(** Without a snapshot file [load] does nothing. *)
Lemma load_missing (s : MemStore.t num) : load Missing s = (s, false).
Proof. reflexivity. Qed.

(** A file that does not parse leaves the store as it was. *)
Lemma load_unparsable (s : MemStore.t num) : load Unparsable s = (s, true).
Proof. reflexivity. Qed.

Lemma create_without_snapshot :
  create Missing = MemStore.empty /\ create Unparsable = MemStore.empty.
Proof. split; reflexivity. Qed.

(** A snapshot whose root is [null], or anything but an object, loads
    nothing. *)
Lemma create_non_object (raw : json num) :
  (forall fields, raw <> JObj fields) -> create (Parsed raw) = MemStore.empty.
Proof.
  intros Hno. destruct raw; try reflexivity. now destruct (Hno fields).
Qed.

End Generic.

(** What holds of [load]: it is a total function (the [try] block catches
    every throw), and a missing file, a file that does not parse and a
    snapshot whose root is not an object all leave a new store empty. *)
Theorem load_tolerates_bad_root
  (reviveItem : json float -> NewsItem float) (scoreOf : json float -> float)
  (keyOf : json float -> string) (expiryOf : json float -> Z) :
  MemStore.create reviveItem scoreOf keyOf expiryOf Missing = MemStore.empty /\
  MemStore.create reviveItem scoreOf keyOf expiryOf Unparsable = MemStore.empty /\
  forall raw, (forall fields, raw <> JObj fields) ->
    MemStore.create reviveItem scoreOf keyOf expiryOf (Parsed raw)
    = MemStore.empty.
Proof.
  split; [reflexivity |]. split; [reflexivity |].
  intros raw Hroot. destruct raw; try reflexivity. now destruct (Hroot fields).
Qed.

(** A snapshot with one well-formed item and a [published] field that is
    not iterable: [{"items": {"1": {...}}, "published": 5}]. *)
Definition item_json : json float :=
  JObj [("id", JStr "1"); ("title", JStr "t"); ("url", JStr "u");
        ("content", JStr ""); ("nodeName", JStr "tech");
        ("nodeTitle", JStr "Tech"); ("author", JStr "a");
        ("replies", JNum 5%float);
        ("createdAt", JStr "2024-01-01T00:00:00.000Z")].

Definition broken_snapshot : json float :=
  JObj [("items", JObj [("1", item_json)]); ("published", JNum 5%float)].

(** C7 fails on the code: [load] on that snapshot throws at [published],
    after the items were stored; the [catch] block runs (it warns "starting
    fresh"), and the store keeps the item, whatever views read the leaves. *)
Theorem load_keeps_partial_state
  (reviveItem : json float -> NewsItem float) (scoreOf : json float -> float)
  (keyOf : json float -> string) (expiryOf : json float -> Z) :
  MemStore.load reviveItem scoreOf keyOf expiryOf
                (Parsed broken_snapshot) MemStore.empty =
    (MemStore.mk [("1", reviveItem item_json)] [] [] [], true) /\
  MemStore.create reviveItem scoreOf keyOf expiryOf (Parsed broken_snapshot)
    <> MemStore.empty.
Proof.
  split; [reflexivity | discriminate].
Qed.

(** Views for the examples: fields by name, at their types. *)
Definition str_field (fields : list (string * json float)) (k : string) : string :=
  match JsMap.get k fields with Some (JStr s) => s | _ => "" end.

Definition num_field (fields : list (string * json float)) (k : string) : float :=
  match JsMap.get k fields with Some (JNum n) => n | _ => PrimFloat.nan end.

Definition revive (j : json float) : NewsItem float :=
  match j with
  | JObj f =>
      mkNewsItem (str_field f "id") (str_field f "title") (str_field f "url")
                 (str_field f "content") (str_field f "nodeName")
                 (str_field f "nodeTitle") (str_field f "author")
                 (num_field f "replies") (num_field f "createdAt")
  | _ => mkNewsItem "" "" "" "" "" "" "" PrimFloat.nan PrimFloat.nan
  end.

Definition score_view (j : json float) : float :=
  match j with JNum n => n | _ => PrimFloat.nan end.

Definition key_view (j : json float) : string :=
  match j with JStr s => s | _ => "" end.


End Snapshot.

(* ------------------------------------------------------------------ *)
(** * topItems *)

Module TopItems.

Section Generic.
Context {num : Type} `{Number num}.

(** The score table ranked as [topItems] ranks it. *)
Definition ranked (scores : JsMap.t num) : list (string * num) :=
  Array_sort (fun a b => sub (snd b) (snd a)) (JsMap.entries scores).

(** The entries of [l] that have a stored item, each with its item. *)
Definition joined (its : JsMap.t (NewsItem num)) (l : list (string * num))
  : list (ScoredItem num) :=
  flat_map (fun e => match JsMap.get (fst e) its with
                     | Some it => [mkScored it (snd e)]
                     | None => []
                     end) l.


Lemma joinItems_joined (its : JsMap.t (NewsItem num)) (l : list (string * num))
  (result : list (ScoredItem num)) :
  MemStore.joinItems its l result = result ++ joined its l.
Proof.
  revert result. induction l as [| [i sc] rest IH]; intros result; simpl.
  - now rewrite app_nil_r.
  - destruct (JsMap.get i its) as [it |]; rewrite IH; [| reflexivity].
    now rewrite <- app_assoc.
Qed.


Lemma joined_In (its : JsMap.t (NewsItem num)) (l : list (string * num))
  (x : ScoredItem num) :
  In x (joined its l) <->
  exists i, In (i, score x) l /\ JsMap.get i its = Some (item x).
Proof.
  unfold joined. rewrite in_flat_map. split.
  - intros [[i sc] [Hin Hx]]. cbn [fst snd] in Hx.
    destruct (JsMap.get i its) as [it |] eqn:Eg; [| destruct Hx].
    destruct Hx as [<- | []]. exists i. now split.
  - intros [i [Hin Hg]]. exists (i, score x). split; [exact Hin |].
    cbn [fst snd]. rewrite Hg. left. now destruct x.
Qed.

Lemma topItems_unfold (period : string) (n : Z) (s : MemStore.t num) :
  MemStore.topItems period n s =
  match JsMap.get period (MemStore.periodScores s) with
  | None => []
  | Some scores => joined (MemStore.items s) (Array_slice0 n (ranked scores))
  end.
Proof.
  unfold MemStore.topItems.
  destruct (JsMap.get period (MemStore.periodScores s)); [| reflexivity].
  now rewrite joinItems_joined.
Qed.

End Generic.






End TopItems.

(* ------------------------------------------------------------------ *)
(** * A Builder tick below the threshold *)

Module BelowThreshold.

Import Markers.

Section Generic.
Context {num : Type} `{Number num}.
Implicit Types (s : MemStore.t num) (c : ScoredItem num).

(** Is the node of the candidate in the configured exclusion list, case
    apart? *)
Definition excludedNode (config : Builder.AppConfig) c : bool :=
  existsb (fun n => String.eqb (toLowerCase (nodeName (item c))) (toLowerCase n))
          (Builder.generate_excludeNodes config).

(** The candidates that survive the three filters, read off the store
    without running the tick. *)
Definition survivors (config : Builder.AppConfig) (clock : Builder.Clock) s
  : list (ScoredItem num) :=
  filter (fun c => (gtb (replies (item c)) zero && gtb (score c) zero)%bool)
    (filter (fun c => negb (skippedAt (Builder.now clock) Builder.channel
                                      (id (item c)) s))
       (filter (fun c => negb (excludedNode config c))
          (MemStore.topItems (Builder.today clock)
                             (Builder.generate_topN config * 5) s))).

Lemma has_excludeSet (config : Builder.AppConfig) c :
  JsSet.has (toLowerCase (nodeName (item c)))
            (JsSet.of_list (map toLowerCase (Builder.generate_excludeNodes config)))
  = excludedNode config c.
Proof. apply JsMapFacts.has_lowered. Qed.

(** The skip filter keeps the candidates without a live marker, and the
    store it leaves differs by evicted markers only. *)
Lemma filterNotSkipped_spec (now : Z) (cands : list (ScoredItem num)) s :
  fst (Builder.filterNotSkipped now cands s) =
    filter (fun c => negb (skippedAt now Builder.channel (id (item c)) s)) cands /\
  evicted now s (snd (Builder.filterNotSkipped now cands s)).
Proof.
  revert s. induction cands as [| c rest IH]; intros s.
  - split; [reflexivity | apply evicted_refl].
  - cbn [Builder.filterNotSkipped filter].
    pose proof (isSkipped_answer now Builder.channel (id (item c)) s) as Hans.
    pose proof (isSkipped_evicts now Builder.channel (id (item c)) s) as Hev.
    destruct (MemStore.isSkipped now Builder.channel (id (item c)) s)
      as [skip s1]. cbn [fst snd] in Hans, Hev. subst skip.
    destruct (IH s1) as [Hkept Hev'].
    destruct (Builder.filterNotSkipped now rest s1) as [kept s2].
    cbn [fst snd] in *. subst kept. split.
    + assert (Hsame :
        filter (fun c0 => negb (skippedAt now Builder.channel (id (item c0)) s1)) rest
        = filter (fun c0 => negb (skippedAt now Builder.channel (id (item c0)) s)) rest).
      { apply filter_ext. intros c0. now rewrite (skippedAt_evicted now _ _ s s1). }
      rewrite Hsame. now destruct (skippedAt now Builder.channel (id (item c)) s).
    + eapply evicted_trans; eassumption.
Qed.

Lemma candidates_spec (config : Builder.AppConfig) (clock : Builder.Clock) s :
  fst (Builder.candidates config clock s) = survivors config clock s /\
  evicted (Builder.now clock) s (snd (Builder.candidates config clock s)).
Proof.
  unfold Builder.candidates, survivors.
  set (c1 := filter _ (MemStore.topItems _ _ s)).
  assert (Hc1 : c1 = filter (fun c => negb (excludedNode config c))
                            (MemStore.topItems (Builder.today clock)
                               (Builder.generate_topN config * 5) s)).
  { apply filter_ext. intros c. now rewrite has_excludeSet. }
  destruct (filterNotSkipped_spec (Builder.now clock) c1 s) as [Hkept Hev].
  destruct (Builder.filterNotSkipped (Builder.now clock) c1 s) as [c2 s1].
  cbn [fst snd] in *. subst c2. rewrite Hc1. split; [reflexivity | exact Hev].
Qed.

End Generic.

(** C6: a tick in which fewer than 5 candidates survive the node
    exclusion, the skip filter and the positive-replies and positive-score
    filter returns [null], writes no file and persists nothing; the store
    afterwards has the same items, score tables and publish set, and its
    skip map differs only by expired markers that the [isSkipped] reads
    evicted: nothing was marked and gc did not run. *)
Theorem runOnce_below_threshold {num : Type} `{Number num}
  (summarizeItem : string -> string -> string -> string)
  (summarizePost : list (NewsItem num) -> string -> string)
  (renderMarkdown : string -> string -> string ->
                    list (SummarizedItem num) -> string)
  (expandVars : string -> string -> string)
  (config : Builder.AppConfig) (clock : Builder.Clock) (s : MemStore.t num) :
  (List.length (survivors config clock s) < 5)%nat ->
  let tick := Builder.runOnce summarizeItem summarizePost renderMarkdown
                              expandVars config clock s in
  Builder.returned tick = None /\
  Builder.effects tick = [] /\
  MemStore.items (Builder.store tick) = MemStore.items s /\
  MemStore.periodScores (Builder.store tick) = MemStore.periodScores s /\
  MemStore.published (Builder.store tick) = MemStore.published s /\
  forall k,
    JsMap.get k (MemStore.skipped (Builder.store tick))
      = JsMap.get k (MemStore.skipped s) \/
    (JsMap.get k (MemStore.skipped (Builder.store tick)) = None /\
     exists e, JsMap.get k (MemStore.skipped s) = Some e /\
               (Builder.now clock > e)%Z).
Proof.
  intros Hfew tick. subst tick. unfold Builder.runOnce.
  destruct (MemStore.isPublished Builder.channel (Builder.today clock) s).
  - cbn. repeat split. intros k. now left.
  - destruct (candidates_spec config clock s) as [Hc Hev].
    destruct (Builder.candidates config clock s) as [cands s1].
    cbn [fst snd] in Hc, Hev. subst cands.
    assert (Hlt : (List.length (survivors config clock s) <? Builder.minItems)%nat
                  = true) by (apply Nat.ltb_lt; exact Hfew).
    rewrite Hlt. cbn [Builder.returned Builder.effects Builder.store].
    destruct Hev as (Hi & Hp & Hpub & Hk). repeat split; assumption.
Qed.

(** A day with four candidates that qualify, one in an excluded node and
    one under a live marker; the marker of "1" expired. *)
Definition thin_store : MemStore.t float :=
  MemStore.markSkipped 0 "v2ex-digest" "1" 1000
   (MemStore.markSkipped 1704110000000 "v2ex-digest" "6" 259200000
    (MemStore.addItem "2024-01-01" (post "6" "tech" 9%float) 0.6%float
     (MemStore.addItem "2024-01-01" (post "5" "Promotions" 9%float) 2.5%float
      (MemStore.addItem "2024-01-01" (post "4" "tech" 3%float) 0.4%float
       (MemStore.addItem "2024-01-01" (post "3" "jobs" 4%float) 0.3%float
        (MemStore.addItem "2024-01-01" (post "2" "tech" 7%float) 1.2%float
         (MemStore.addItem "2024-01-01" (post "1" "apple" 8%float) 1.5%float
           MemStore.empty))))))).

Lemma runOnce_below_threshold_witness :
  Builder.returned
    (Builder.runOnce no_summary no_post_summary plain_render keep_template
                     config5 noon thin_store) = None.
Proof.
  apply (runOnce_below_threshold no_summary no_post_summary plain_render
                                 keep_template config5 noon thin_store).
  vm_compute. lia.
Defined.

(** On that store the four survivors are ranked by score, and the tick
    evicts the expired marker of "1" and nothing else. *)
Example thin_store_tick :
  map (fun c => id (item c)) (survivors config5 noon thin_store)
    = ["1"; "2"; "4"; "3"] /\
  JsMap.keys (MemStore.skipped thin_store) = ["v2ex-digest:6"; "v2ex-digest:1"] /\
  JsMap.keys (MemStore.skipped
                (Builder.store
                   (Builder.runOnce no_summary no_post_summary plain_render
                                    keep_template config5 noon thin_store)))
    = ["v2ex-digest:6"].
Proof. repeat split; vm_compute; reflexivity. Qed.

End BelowThreshold.

(* ------------------------------------------------------------------ *)
(** * scoreAndRank *)

Module Ranker.

Import JsMapFacts.

Lemma firstn_incl {A : Type} (n : nat) (l : list A) (x : A) :
  In x (firstn n l) -> In x l.
Proof.
  intros Hin. rewrite <- (firstn_skipn n l). apply in_or_app. now left.
Qed.

(** ** Stable sorting by a key, largest first (exact arithmetic) *)

Section SortByKey.
Context {A : Type} (key : A -> R).

Definition byKeyDesc (a b : A) : R := sub (key b) (key a).

Definition Reqb (x y : R) : bool := if Req_dec_T x y then true else false.

(** The elements of [l] whose key is [v], in their order. *)
Definition withKey (v : R) (l : list A) : list A :=
  filter (fun a => Reqb (key a) v) l.

Definition descending (l : list A) : Prop :=
  StronglySorted (fun a b => (key b <= key a)%R) l.

Lemma insertSorted_unfold (x y : A) (rest : list A) :
  insertSorted byKeyDesc x (y :: rest) =
  if Rlt_dec (key x) (key y) then y :: insertSorted byKeyDesc x rest
  else x :: y :: rest.
Proof.
  cbn [insertSorted]. unfold gtb, byKeyDesc. cbn [ltb sub zero Exact].
  unfold Rltb.
  destruct (Rlt_dec 0 (key y - key x)), (Rlt_dec (key x) (key y));
    try reflexivity; lra.
Qed.

Lemma insertSorted_perm (x : A) (l : list A) :
  Permutation (insertSorted byKeyDesc x l) (x :: l).
Proof.
  induction l as [| y rest IH]; [reflexivity |].
  rewrite insertSorted_unfold. destruct (Rlt_dec (key x) (key y)).
  - rewrite IH. apply perm_swap.
  - reflexivity.
Qed.

Lemma Array_sort_perm (l : list A) : Permutation (Array_sort byKeyDesc l) l.
Proof.
  induction l as [| x rest IH]; [reflexivity |].
  cbn [Array_sort fold_right]. fold (Array_sort byKeyDesc rest).
  rewrite insertSorted_perm. now constructor.
Qed.

Lemma insertSorted_descending (x : A) (l : list A) :
  descending l -> descending (insertSorted byKeyDesc x l).
Proof.
  unfold descending. induction l as [| y rest IH]; intros Hs.
  - repeat constructor.
  - rewrite insertSorted_unfold. inversion Hs as [| ? ? Hrest Hall]; subst.
    destruct (Rlt_dec (key x) (key y)) as [Hlt | Hge].
    + constructor; [now apply IH |].
      apply Forall_forall. intros z Hz.
      apply (Permutation_in _ (insertSorted_perm x rest)) in Hz.
      destruct Hz as [<- | Hz]; [lra |].
      rewrite Forall_forall in Hall. now apply Hall.
    + constructor; [exact Hs |].
      constructor; [lra |].
      rewrite Forall_forall in Hall |- *. intros z Hz.
      specialize (Hall z Hz). lra.
Qed.

Lemma Array_sort_descending (l : list A) : descending (Array_sort byKeyDesc l).
Proof.
  induction l as [| x rest IH]; [constructor |].
  cbn [Array_sort fold_right]. now apply insertSorted_descending.
Qed.

(** Insertion does not reorder elements of equal key. *)
Lemma insertSorted_withKey (v : R) (x : A) (l : list A) :
  withKey v (insertSorted byKeyDesc x l) = withKey v (x :: l).
Proof.
  induction l as [| y rest IH]; [reflexivity |].
  rewrite insertSorted_unfold. destruct (Rlt_dec (key x) (key y)) as [Hlt | Hge];
    [| reflexivity].
  unfold withKey in *. cbn [filter] in *. rewrite IH.
  unfold Reqb. destruct (Req_dec_T (key x) v), (Req_dec_T (key y) v);
    try reflexivity. lra.
Qed.

Lemma Array_sort_stable (v : R) (l : list A) :
  withKey v (Array_sort byKeyDesc l) = withKey v l.
Proof.
  induction l as [| x rest IH]; [reflexivity |].
  cbn [Array_sort fold_right]. fold (Array_sort byKeyDesc rest).
  rewrite insertSorted_withKey. unfold withKey in *. cbn [filter].
  now rewrite IH.
Qed.

Lemma descending_firstn (n : nat) (l : list A) :
  descending l -> descending (firstn n l).
Proof.
  unfold descending. revert n. induction l as [| x rest IH]; intros n Hs.
  - rewrite firstn_nil. constructor.
  - destruct n as [| n]; [constructor |].
    inversion Hs as [| ? ? Hrest Hall]; subst. cbn [firstn].
    constructor; [now apply IH |].
    rewrite Forall_forall in Hall |- *. intros z Hz.
    apply Hall. eapply firstn_incl. exact Hz.
Qed.


End SortByKey.

(** ** The deduplication loop *)

Section Unique.
Context {num : Type}.
Implicit Types (it : NewsItem num) (l items : list (NewsItem num)).

(** The first occurrence of every id, in input order. *)
Definition firstOcc l : list (NewsItem num) :=
  fold_right (fun x acc =>
                x :: filter (fun y => negb (String.eqb (id y) (id x))) acc)
             [] l.

(** Does the node of the item match one of [excludeNodes], case apart? *)
Definition excluded (excludeNodes : list string) it : bool :=
  existsb (fun n => String.eqb (toLowerCase (nodeName it)) (toLowerCase n))
          excludeNodes.

(** Neither skipped nor in an excluded node. *)
Definition admissible (skipIds : JsSet.t) (excludeNodes : list string) it : bool :=
  (negb (JsSet.has (id it) skipIds) && negb (excluded excludeNodes it))%bool.

(** Dropping the items of an id that [seen] holds changes nothing once the
    seen ones are dropped. *)
Lemma filter_unseen_same (seen : JsSet.t) (i : string) l :
  JsSet.has i seen = true ->
  filter (fun y => negb (JsSet.has (id y) seen))
         (filter (fun y => negb (String.eqb (id y) i)) l)
  = filter (fun y => negb (JsSet.has (id y) seen)) l.
Proof.
  intros Hseen. rewrite filter_twice. apply filter_ext. intros y.
  destruct (String.eqb (id y) i) eqn:E; [| reflexivity].
  apply String.eqb_eq in E. rewrite E, Hseen. reflexivity.
Qed.

Lemma filter_unseen_add (seen : JsSet.t) (i : string) l :
  filter (fun y => negb (JsSet.has (id y) (JsSet.add i seen))) l
  = filter (fun y => negb (JsSet.has (id y) seen))
           (filter (fun y => negb (String.eqb (id y) i)) l).
Proof.
  rewrite filter_twice. apply filter_ext. intros y.
  now rewrite has_add, negb_orb.
Qed.

(** The loop computes the first occurrences among the admissible items,
    less the ids seen before it started. *)
Lemma uniqueLoop_spec (skipIds : JsSet.t) (excludeNodes : list string)
  (seen : JsSet.t) items :
  uniqueLoop skipIds (JsSet.of_list (map toLowerCase excludeNodes)) seen items
  = filter (fun y => negb (JsSet.has (id y) seen))
           (firstOcc (filter (admissible skipIds excludeNodes) items)).
Proof.
  revert seen. induction items as [| it rest IH]; intros seen; [reflexivity |].
  cbn [uniqueLoop filter]. rewrite has_lowered. fold (excluded excludeNodes it).
  unfold admissible at 1.
  destruct (JsSet.has (id it) skipIds) eqn:Eskip.
  - rewrite orb_true_r. cbn [negb andb]. apply IH.
  - rewrite orb_false_r. cbn [negb andb].
    destruct (excluded excludeNodes it) eqn:Eex; cbn [negb].
    + destruct (JsSet.has (id it) seen); apply IH.
    + cbn [firstOcc fold_right filter].
      fold (firstOcc (filter (admissible skipIds excludeNodes) rest)).
      destruct (JsSet.has (id it) seen) eqn:Eseen; cbn [negb].
      * rewrite IH. symmetry. now apply filter_unseen_same.
      * rewrite IH. f_equal. apply filter_unseen_add.
Qed.

Lemma uniqueLoop_firstOcc (skipIds : JsSet.t) (excludeNodes : list string) items :
  uniqueLoop skipIds (JsSet.of_list (map toLowerCase excludeNodes))
             JsSet.empty items
  = firstOcc (filter (admissible skipIds excludeNodes) items).
Proof.
  rewrite uniqueLoop_spec. apply forallb_filter_id.
  apply forallb_forall. reflexivity.
Qed.

Lemma firstOcc_incl l it : In it (firstOcc l) -> In it l.
Proof.
  induction l as [| x rest IH]; [intros [] |].
  cbn [firstOcc fold_right]. fold (firstOcc rest).
  intros [<- | Hin]; [now left |].
  apply filter_In in Hin as [Hin _]. right. now apply IH.
Qed.


Lemma NoDup_firstn {A : Type} (n : nat) (l : list A) :
  NoDup l -> NoDup (firstn n l).
Proof.
  intros Hnd. rewrite <- (firstn_skipn n l) in Hnd.
  now apply NoDup_app_remove_r in Hnd.
Qed.

End Unique.

(** The loop keeps the first occurrence of an id among the items that are
    neither skipped nor excluded: an excluded or skipped item does not stand
    for its id, so a later item with the same id is kept; a kept item does. *)
Theorem dedup_after_exclusion :
  (forall (num : Type) (skipIds : JsSet.t) (excludeNodes : list string)
          (items : list (NewsItem num)),
     uniqueLoop skipIds (JsSet.of_list (map toLowerCase excludeNodes))
                JsSet.empty items
     = firstOcc (filter (admissible skipIds excludeNodes) items)) /\
  map title
      (uniqueLoop [] (JsSet.of_list (map toLowerCase ["Promotions"])) JsSet.empty
         [mkNewsItem "1" "first" "" "" "promotions" "" "" 9%float 0%float;
          mkNewsItem "1" "second" "" "" "tech" "" "" 9%float 0%float;
          mkNewsItem "1" "third" "" "" "tech" "" "" 9%float 0%float])
  = ["second"].
Proof.
  split; [intros; apply uniqueLoop_firstOcc | reflexivity].
Qed.

(** ** The contract of [scoreAndRank] in exact arithmetic *)

Local Open Scope R_scope.

(** The qualifying items with their scores, in the order of the
    deduplicated list: the first occurrence of every id among the items that
    are neither skipped nor excluded, when its score is positive. *)
Definition qualifying (now : R) (items : list (NewsItem R)) (skipIds : JsSet.t)
  (excludeNodes : list string) : list (ScoredItem R) :=
  filter (fun s => Rltb 0 (score s))
         (map (fun it => mkScored it (computeScore now it))
              (firstOcc (filter (admissible skipIds excludeNodes) items))).

Lemma scoreAndRank_unfold (now : R) (items : list (NewsItem R)) (topN : Z)
  (skipIds : JsSet.t) (excludeNodes : list string) :
  scoreAndRank now items topN skipIds excludeNodes =
  Array_slice0 topN (Array_sort (byKeyDesc score)
                                (qualifying now items skipIds excludeNodes)).
Proof.
  unfold scoreAndRank, qualifying. now rewrite uniqueLoop_firstOcc.
Qed.






Definition post (i node : string) (r : R) : NewsItem R :=
  mkNewsItem i "t" "u" "" node node "a" r 0.

(** Two posts of equal score keep their input order; the repeated id, the
    skipped id, the excluded node and the post without replies are left
    out. *)
Example scoreAndRank_example :
  map (fun x => id (item x))
      (scoreAndRank 0 [post "1" "tech" 3; post "2" "tech" 5; post "1" "tech" 9;
                       post "3" "Deals" 9; post "4" "tech" 3; post "5" "tech" 0;
                       post "6" "tech" 7]
                    3 ["6"] ["deals"])
  = ["2"; "1"; "4"].
Proof.
  rewrite scoreAndRank_unfold. unfold qualifying.
  match goal with
  | |- context [firstOcc ?l] =>
      let U := eval cbv -[IZR] in (firstOcc l) in change (firstOcc l) with U
  end.
  cbn [map].
  rewrite !ScorerExact.computeScore_decayed by (cbn; lra).
  rewrite (ScorerExact.computeScore_exact_unfold 0
             (mkNewsItem "5" "t" "u" "" "tech" "tech" "a" 0 0)).
  cbn [replies]. rewrite ScorerExact.Rleb_true by lra.
  unfold ScorerExact.decayed. cbn [replies].
  rewrite !ScorerExact.hours_clamped by (cbn; lra).
  set (d := Rpower (0 + 2) (18 / 10)).
  assert (Hd : 0 < d) by (unfold d, Rpower; apply exp_pos).
  assert (H2 : 0 < (3 - 1) / d) by (apply Rdiv_lt_0_compat; lra).
  assert (H4 : 0 < (5 - 1) / d) by (apply Rdiv_lt_0_compat; lra).
  assert (H24 : (3 - 1) / d < (5 - 1) / d).
  { unfold Rdiv. apply Rmult_lt_compat_r; [apply Rinv_0_lt_compat; lra | lra]. }
  cbn [filter score].
  rewrite !ScorerExact.Rltb_true by lra.
  rewrite ScorerExact.Rltb_false by lra.
  cbn [Array_sort fold_right].
  change (insertSorted (byKeyDesc score) ?x []) with [x].
  repeat (rewrite insertSorted_unfold; cbn [score];
          match goal with
          | |- context [Rlt_dec ?a ?b] => destruct (Rlt_dec a b); try lra
          end).
  reflexivity.
Qed.



End Ranker.

(* ------------------------------------------------------------------ *)
(** * A Builder tick that publishes *)

Module Publishing.

Import JsMapFacts Markers.

Lemma append_inv_head (a b c : string) : (a ++ b)%string = (a ++ c)%string -> b = c.
Proof.
  induction a as [| x a IH]; cbn [append]; intros Heq; [exact Heq |].
  injection Heq as Heq. now apply IH.
Qed.

Lemma compositeKey_inj (c i j : string) :
  MemStore.compositeKey c i = MemStore.compositeKey c j -> i = j.
Proof.
  unfold MemStore.compositeKey. intros Heq.
  apply append_inv_head in Heq. now apply (append_inv_head ":") in Heq.
Qed.

Section Generic.
Context {num : Type} `{Number num}.
Implicit Types (s : MemStore.t num) (c : ScoredItem num).

(** The marking loop of the tick. *)
Definition markAll (now ttl : Z) (chosen : list (ScoredItem num)) s
  : MemStore.t num :=
  fold_left (fun st c => MemStore.markSkipped now Builder.channel
                           (id (item c)) ttl st)
            chosen s.

Definition chosenId (i : string) (chosen : list (ScoredItem num)) : bool :=
  existsb (fun c => String.eqb (id (item c)) i) chosen.

Lemma markAll_frame now ttl chosen s :
  MemStore.items (markAll now ttl chosen s) = MemStore.items s /\
  MemStore.periodScores (markAll now ttl chosen s) = MemStore.periodScores s /\
  MemStore.published (markAll now ttl chosen s) = MemStore.published s /\
  (JsMap.wf (MemStore.skipped s) ->
   JsMap.wf (MemStore.skipped (markAll now ttl chosen s))).
Proof.
  revert s. induction chosen as [| c rest IH]; intros s; [now repeat split |].
  change (markAll now ttl (c :: rest) s)
    with (markAll now ttl rest
            (MemStore.markSkipped now Builder.channel (id (item c)) ttl s)).
  destruct (IH (MemStore.markSkipped now Builder.channel (id (item c)) ttl s))
    as (Hi & Hp & Hpub & Hwf).
  repeat split; try assumption.
  intros Hw. apply Hwf. cbn. now apply wf_set.
Qed.

Lemma markAll_get now ttl chosen s (i : string) :
  JsMap.get (MemStore.compositeKey Builder.channel i)
            (MemStore.skipped (markAll now ttl chosen s)) =
  if chosenId i chosen then Some (now + ttl)%Z
  else JsMap.get (MemStore.compositeKey Builder.channel i) (MemStore.skipped s).
Proof.
  revert s. induction chosen as [| c rest IH]; intros s; [reflexivity |].
  change (markAll now ttl (c :: rest) s)
    with (markAll now ttl rest
            (MemStore.markSkipped now Builder.channel (id (item c)) ttl s)).
  change (chosenId i (c :: rest))
    with (String.eqb (id (item c)) i || chosenId i rest)%bool.
  rewrite IH.
  destruct (chosenId i rest); [now rewrite orb_true_r |].
  rewrite orb_false_r. cbn [MemStore.markSkipped MemStore.skipped].
  destruct (String.eqb (id (item c)) i) eqn:E.
  - apply String.eqb_eq in E. subst i. apply get_set_same.
  - apply String.eqb_neq in E. apply get_set_other.
    intros Heq. apply E. now apply compositeKey_inj in Heq.
Qed.

Lemma wf_skipped_filterNotSkipped now (cands : list (ScoredItem num)) s :
  JsMap.wf (MemStore.skipped s) ->
  JsMap.wf (MemStore.skipped (snd (Builder.filterNotSkipped now cands s))).
Proof.
  revert s. induction cands as [| c rest IH]; intros s Hwf; [exact Hwf |].
  cbn [Builder.filterNotSkipped].
  assert (Hwf1 : JsMap.wf (MemStore.skipped
                   (snd (MemStore.isSkipped now Builder.channel (id (item c)) s)))).
  { unfold MemStore.isSkipped.
    destruct (JsMap.get _ (MemStore.skipped s)) as [e |]; [| exact Hwf].
    destruct (now >? e)%Z; [cbn; now apply wf_delete | exact Hwf]. }
  destruct (MemStore.isSkipped now Builder.channel (id (item c)) s) as [skip s1].
  cbn [snd] in Hwf1. specialize (IH s1 Hwf1).
  destruct (Builder.filterNotSkipped now rest s1) as [kept s2]. exact IH.
Qed.

(** gc takes away expired markers only, so no answer changes. *)
Lemma skippedAt_gc now cutoffStr (c i : string) s :
  JsMap.wf (MemStore.skipped s) ->
  skippedAt now c i (MemStore.gc now cutoffStr s) = skippedAt now c i s.
Proof.
  intros Hwf. rewrite (Gc.gc_filter now cutoffStr s Hwf).
  unfold skippedAt. cbn [MemStore.skipped].
  set (key := MemStore.compositeKey c i).
  set (alive := fun e : string * Z => negb (Gc.expired now e)).
  destruct (JsMap.get key (MemStore.skipped s)) as [e |] eqn:Eg.
  - destruct (alive (key, e)) eqn:Ea.
    + assert (Hg : JsMap.get key (filter alive (MemStore.skipped s)) = Some e)
        by (apply Gc.get_filter; auto).
      now rewrite Hg.
    + destruct (JsMap.get key (filter alive (MemStore.skipped s))) as [e' |] eqn:Eg'.
      * apply Gc.get_filter in Eg' as [Hg Ha]; [| exact Hwf].
        assert (e' = e) by congruence. subst e'. congruence.
      * unfold alive, Gc.expired in Ea. cbn [snd] in Ea. now rewrite Ea.
  - destruct (JsMap.get key (filter alive (MemStore.skipped s))) as [e' |] eqn:Eg';
      [| reflexivity].
    apply Gc.get_filter in Eg' as [Hg _]; [congruence | exact Hwf].
Qed.

End Generic.

(** A tick that finds at least 5 survivors for a day not yet published
    writes the digest of the first [topN] of them, marks the day published,
    marks exactly those items skipped for [skipHours], runs gc and persists
    the resulting store: afterwards the day is published, the chosen items
    are skipped, and for every other id the answer of [isSkipped] is what it
    was before the tick. *)
Theorem runOnce_publishes {num : Type} `{Number num}
  (summarizeItem : string -> string -> string -> string)
  (summarizePost : list (NewsItem num) -> string -> string)
  (renderMarkdown : string -> string -> string ->
                    list (SummarizedItem num) -> string)
  (expandVars : string -> string -> string)
  (config : Builder.AppConfig) (clock : Builder.Clock) (s : MemStore.t num) :
  MemStore.isPublished Builder.channel (Builder.today clock) s = false ->
  (5 <= List.length (BelowThreshold.survivors config clock s))%nat ->
  JsMap.wf (MemStore.skipped s) ->
  (0 <= Builder.generate_skipHours config)%Z ->
  let tick := Builder.runOnce summarizeItem summarizePost renderMarkdown
                              expandVars config clock s in
  let chosen := Array_slice0 (Builder.generate_topN config)
                             (BelowThreshold.survivors config clock s) in
  let outPath := ("out/daily-" ++ Builder.today clock ++ ".md")%string in
  Builder.returned tick = Some outPath /\
  Builder.effects tick =
    [FileWritten outPath
       (Builder.digest summarizeItem summarizePost renderMarkdown expandVars
                       config (Builder.today clock) chosen);
     StorePersisted (Builder.store tick)] /\
  MemStore.isPublished Builder.channel (Builder.today clock) (Builder.store tick)
    = true /\
  MemStore.items (Builder.store tick) = MemStore.items s /\
  forall i,
    skippedAt (Builder.now clock) Builder.channel i (Builder.store tick) =
    if chosenId i chosen then true
    else skippedAt (Builder.now clock) Builder.channel i s.
Proof.
  intros Hnot Hmany Hwf Hhours tick chosen outPath.
  subst tick. unfold Builder.runOnce. rewrite Hnot.
  destruct (BelowThreshold.candidates_spec config clock s) as [Hc Hev].
  pose proof (wf_skipped_filterNotSkipped (Builder.now clock)
                (filter (fun c =>
                   negb (JsSet.has (toLowerCase (nodeName (item c)))
                           (JsSet.of_list
                              (map toLowerCase
                                   (Builder.generate_excludeNodes config)))))
                   (MemStore.topItems (Builder.today clock)
                      (Builder.generate_topN config * 5) s))
                s Hwf) as Hwf1.
  unfold Builder.candidates in *.
  destruct (Builder.filterNotSkipped _ _ s) as [c2 s1].
  cbn [fst snd] in Hc, Hev, Hwf1. rewrite Hc.
  assert (Hge : (List.length (BelowThreshold.survivors config clock s)
                 <? Builder.minItems)%nat = false)
    by (apply Nat.ltb_ge; exact Hmany).
  rewrite Hge. fold chosen.
  cbn [Builder.returned Builder.effects Builder.store].
  set (ttl := (Builder.generate_skipHours config * 60 * 60 * 1000)%Z).
  set (s2 := MemStore.markPublished Builder.channel (Builder.today clock) s1).
  fold (markAll (Builder.now clock) ttl chosen s2).
  destruct (markAll_frame (Builder.now clock) ttl chosen s2)
    as (Hi & Hp & Hpub & Hwf3).
  specialize (Hwf3 Hwf1).
  destruct Hev as (Hi1 & Hp1 & Hpub1 & Hk1).
  split; [reflexivity |]. split; [reflexivity |]. split; [| split].
  - unfold MemStore.isPublished, MemStore.gc. cbn [MemStore.published].
    rewrite Hpub. apply has_add_same.
  - unfold MemStore.gc. cbn [MemStore.items]. now rewrite Hi.
  - intros i. rewrite skippedAt_gc by exact Hwf3.
    unfold skippedAt at 1. rewrite markAll_get.
    destruct (chosenId i chosen).
    + apply negb_true_iff. rewrite Z.gtb_ltb. apply Z.ltb_ge. unfold ttl. lia.
    + change (JsMap.get (MemStore.compositeKey Builder.channel i)
                        (MemStore.skipped s2))
        with (JsMap.get (MemStore.compositeKey Builder.channel i)
                        (MemStore.skipped s1)).
      change (match JsMap.get (MemStore.compositeKey Builder.channel i)
                              (MemStore.skipped s1) with
              | Some expiry => negb (Builder.now clock >? expiry)%Z
              | None => false
              end)
        with (skippedAt (Builder.now clock) Builder.channel i s1).
      apply skippedAt_evicted. repeat split; assumption.
Qed.

(** Six candidates, [topN = 5]: the spec's example. *)
Definition full_store : MemStore.t float :=
  MemStore.addItem "2024-01-01" (post "6" "tech" 9%float) 0.6%float
   (MemStore.addItem "2024-01-01" (post "5" "share" 9%float) 2.5%float
    (MemStore.addItem "2024-01-01" (post "4" "tech" 3%float) 0.4%float
     (MemStore.addItem "2024-01-01" (post "3" "jobs" 4%float) 0.3%float
      (MemStore.addItem "2024-01-01" (post "2" "tech" 7%float) 1.2%float
       (MemStore.addItem "2024-01-01" (post "1" "apple" 8%float) 1.5%float
         MemStore.empty))))).

Lemma runOnce_publishes_witness :
  Builder.returned
    (Builder.runOnce no_summary no_post_summary plain_render keep_template
                     config5 noon full_store)
  = Some "out/daily-2024-01-01.md".
Proof.
  apply (runOnce_publishes no_summary no_post_summary plain_render
                           keep_template config5 noon full_store).
  - reflexivity.
  - vm_compute. lia.
  - apply wfb_wf. reflexivity.
  - vm_compute. discriminate.
Defined.

(** On that store the tick publishes the five best, skips them and leaves
    "3", the sixth, without a marker. *)
Example full_store_tick :
  let tick := Builder.runOnce no_summary no_post_summary plain_render
                              keep_template config5 noon full_store in
  JsMap.keys (MemStore.skipped (Builder.store tick))
    = ["v2ex-digest:5"; "v2ex-digest:1"; "v2ex-digest:2"; "v2ex-digest:6";
       "v2ex-digest:4"] /\
  MemStore.published (Builder.store tick) = ["v2ex-digest:2024-01-01"] /\
  skippedAt (Builder.now noon) Builder.channel "3" (Builder.store tick) = false.
Proof. repeat split; vm_compute; reflexivity. Qed.

End Publishing.

(* ------------------------------------------------------------------ *)
(** * Edge cases of the scorer *)

Module ScorerEdges.

(** ** On binary64 *)

Lemma is_nan_spec (x : float) :
  PrimFloat.is_nan x = true <-> Prim2SF x = S754_nan.
Proof.
  unfold PrimFloat.is_nan. rewrite FloatAxioms.eqb_spec.
  destruct (Prim2SF x) as [s | s | | s m e]; cbn.
  - split; discriminate.
  - destruct s; split; discriminate.
  - split; reflexivity.
  - unfold SFeqb, SFcompare. rewrite Z.compare_refl.
    destruct s; rewrite Pos.compare_cont_refl; split; discriminate.
Qed.

Lemma nan_of_spec (x : float) : Prim2SF x = S754_nan -> PrimFloat.is_nan x = true.
Proof. apply is_nan_spec. Qed.

(** Arithmetic on a NaN gives a NaN. *)
Lemma sub_nan_r (x y : float) :
  PrimFloat.is_nan y = true -> PrimFloat.is_nan (PrimFloat.sub x y) = true.
Proof.
  rewrite !is_nan_spec, FloatAxioms.sub_spec. intros ->.
  now destruct (Prim2SF x).
Qed.

Lemma div_nan_l (x y : float) :
  PrimFloat.is_nan x = true -> PrimFloat.is_nan (PrimFloat.div x y) = true.
Proof.
  rewrite !is_nan_spec, FloatAxioms.div_spec. now intros ->.
Qed.

Lemma div_nan_r (x y : float) :
  PrimFloat.is_nan y = true -> PrimFloat.is_nan (PrimFloat.div x y) = true.
Proof.
  rewrite !is_nan_spec, FloatAxioms.div_spec. intros ->.
  now destruct (Prim2SF x).
Qed.

Lemma add_nan_l (x y : float) :
  PrimFloat.is_nan x = true -> PrimFloat.is_nan (PrimFloat.add x y) = true.
Proof.
  rewrite !is_nan_spec, FloatAxioms.add_spec. now intros ->.
Qed.

Lemma float_max_nan_l (x y : float) :
  PrimFloat.is_nan x = true -> PrimFloat.is_nan (float_max x y) = true.
Proof. intros Hx. unfold float_max. now rewrite Hx. Qed.

(** There is one NaN. *)
Lemma nan_unique (x : float) : PrimFloat.is_nan x = true -> x = PrimFloat.nan.
Proof.
  intros Hx. apply is_nan_spec in Hx.
  rewrite <- (SF2Prim_Prim2SF x), Hx. reflexivity.
Qed.

(** Zero divided by anything is a NaN or a zero. *)
Lemma zero_div (p : float) :
  PrimFloat.is_nan (PrimFloat.div 0%float p) = true \/
  (PrimFloat.eqb (PrimFloat.div 0%float p) 0%float = true /\
   PrimFloat.ltb (PrimFloat.div 0%float p) 0%float = false).
Proof.
  rewrite is_nan_spec, FloatAxioms.eqb_spec, FloatAxioms.ltb_spec,
    FloatAxioms.div_spec.
  replace (Prim2SF 0%float) with (S754_zero false) by reflexivity.
  destruct (Prim2SF p) as [s | s | | s m e]; cbn; auto.
Qed.

Section WithPow.
Context (pow : MathPow float).

(** An item with exactly one reply scores zero for every date and every
    [Math.pow]: the filter [score > 0] of [scoreAndRank] and the test
    [score <= 0] of the Collector both leave it out. *)
Theorem computeScore_single_reply (now : float) (it : NewsItem float) :
  replies it = 1%float ->
  PrimFloat.eqb (computeScore now it) 0%float = true /\
  gtb (computeScore now it) zero = false /\
  leb (computeScore now it) zero = true.
Proof.
  intros Hr.
  assert (Hz : PrimFloat.eqb (computeScore now it) 0%float = true /\
               PrimFloat.ltb (computeScore now it) 0%float = false).
  { rewrite ScorerBinary64.computeScore_binary64_unfold, Hr.
    replace (PrimFloat.leb 1%float 0%float) with false by reflexivity.
    unfold ScorerBinary64.rawScore. rewrite Hr.
    replace (PrimFloat.sub 1%float 1%float) with 0%float by reflexivity.
    match goal with
    | |- context [PrimFloat.div 0%float ?p] =>
        destruct (zero_div p) as [Hnan | [Heq Hlt]]
    end.
    - rewrite Hnan. cbn [orb]. split; reflexivity.
    - rewrite Hlt, orb_false_r.
      match goal with
      | |- context [PrimFloat.is_nan ?q] => destruct (PrimFloat.is_nan q)
      end; [split; reflexivity | split; assumption]. }
  destruct Hz as [Heq Hlt]. split; [exact Heq |].
  revert Heq Hlt. unfold gtb. cbn [ltb leb zero Binary64].
  rewrite FloatAxioms.eqb_spec, !FloatAxioms.ltb_spec, FloatAxioms.leb_spec.
  replace (Prim2SF 0%float) with (S754_zero false) by reflexivity.
  destruct (Prim2SF (computeScore now it)) as [s | s | | s m e]; cbn;
    try discriminate; auto.
  - destruct s; discriminate.
  - destruct s; discriminate.
Qed.

(** An item whose [createdAt] is an invalid Date scores exactly 0, whatever
    its replies, [Math.pow(NaN, 1.8)] being a NaN. *)
Theorem computeScore_invalid_date (now : float) (it : NewsItem float) :
  PrimFloat.is_nan (pow PrimFloat.nan 1.8%float) = true ->
  PrimFloat.is_nan (createdAt it) = true ->
  computeScore now it = 0%float.
Proof.
  intros Hpow Hdate.
  rewrite ScorerBinary64.computeScore_binary64_unfold.
  destruct (PrimFloat.leb (replies it) 0%float); [reflexivity |].
  assert (Hraw : PrimFloat.is_nan (ScorerBinary64.rawScore pow now it) = true).
  { unfold ScorerBinary64.rawScore. apply div_nan_r.
    match goal with
    | |- PrimFloat.is_nan (pow ?b _) = true =>
        assert (Hb : PrimFloat.is_nan b = true)
    end.
    { apply add_nan_l, float_max_nan_l, div_nan_l, sub_nan_r, Hdate. }
    rewrite (nan_unique _ Hb). apply Hpow. }
  now rewrite Hraw.
Qed.

End WithPow.

(** A [Math.pow] that hands a NaN base through. *)
Definition pow_of_base : MathPow float := fun b _ => b.

Lemma computeScore_single_reply_witness :
  PrimFloat.eqb
    (computeScore (H0 := pow_of_base) 3600000%float
                  (ScorerBinary64.scored_item 1%float 0%float))
    0%float = true.
Proof.
  apply (computeScore_single_reply pow_of_base 3600000%float
           (ScorerBinary64.scored_item 1%float 0%float)).
  reflexivity.
Defined.

Lemma computeScore_invalid_date_witness :
  computeScore (H0 := pow_of_base) 3600000%float
               (ScorerBinary64.scored_item 10%float PrimFloat.nan) = 0%float.
Proof.
  apply (computeScore_invalid_date pow_of_base); reflexivity.
Defined.

(** ** In exact arithmetic *)

Local Open Scope R_scope.

Lemma computeScore_nonneg (now : R) (it : NewsItem R) : 0 <= computeScore now it.
Proof.
  rewrite ScorerExact.computeScore_exact_unfold.
  destruct (Rleb (replies it) 0); [lra |].
  unfold Rltb. destruct (Rlt_dec (ScorerExact.decayed now it) 0); lra.
Qed.

(** The same item with another reply count. *)
Definition withReplies (r : R) (it : NewsItem R) : NewsItem R :=
  mkNewsItem (id it) (title it) (url it) (content it) (nodeName it)
             (nodeTitle it) (author it) r (createdAt it).

(** The score is positive exactly for more than one reply, it never exceeds
    [(replies - 1) / 2^1.8], and more replies never score less. *)
Theorem computeScore_by_replies (now : R) (it : NewsItem R) (r1 r2 : R) :
  (0 < computeScore now it <-> 1 < replies it) /\
  (1 < replies it ->
   computeScore now it <= (replies it - 1) / Rpower 2 (18 / 10)) /\
  (r1 <= r2 ->
   computeScore now (withReplies r1 it) <= computeScore now (withReplies r2 it)).
Proof.
  assert (Hpos : forall x : NewsItem R, 0 < computeScore now x <-> 1 < replies x).
  { intros x. split; [| apply ScorerExact.computeScore_pos].
    intros H. apply Rnot_le_lt. intros Hle.
    rewrite ScorerExact.computeScore_exact_unfold in H.
    unfold Rleb, Rltb in H.
    destruct (Rle_dec (replies x) 0); [lra |].
    destruct (Rlt_dec (ScorerExact.decayed now x) 0); [lra |].
    unfold ScorerExact.decayed in H.
    pose proof (ScorerExact.pow_pos now x) as Hp.
    assert (Hq : (replies x - 1) / Rpower (ScorerExact.hours now x + 2) (18 / 10)
                 <= 0).
    { unfold Rdiv. rewrite <- (Rmult_0_l (/ Rpower (ScorerExact.hours now x + 2)
                                            (18 / 10))).
      apply Rmult_le_compat_r; [apply Rlt_le, Rinv_0_lt_compat, Hp | lra]. }
    lra. }
  split; [apply Hpos |]. split.
  - intros Hr. rewrite ScorerExact.computeScore_decayed by exact Hr.
    unfold ScorerExact.decayed.
    pose proof (ScorerExact.hours_nonneg now it) as Hh.
    assert (Hp2 : 0 < Rpower 2 (18 / 10)) by (unfold Rpower; apply exp_pos).
    assert (Hle : Rpower 2 (18 / 10)
                  <= Rpower (ScorerExact.hours now it + 2) (18 / 10)).
    { apply Rle_Rpower_l; lra. }
    unfold Rdiv. apply Rmult_le_compat_l; [lra |].
    apply Rinv_le_contravar; assumption.
  - intros H12.
    destruct (Rle_lt_dec r1 1) as [Hlow | Hhigh].
    + destruct (Rle_lt_dec (computeScore now (withReplies r1 it)) 0) as [Hz | Hp].
      * eapply Rle_trans; [exact Hz | apply computeScore_nonneg].
      * apply Hpos in Hp. cbn [replies withReplies] in Hp. lra.
    + rewrite !ScorerExact.computeScore_decayed by (cbn [replies withReplies]; lra).
      unfold ScorerExact.decayed, ScorerExact.hours.
      cbn [replies createdAt withReplies].
      unfold Rdiv at 1 3. apply Rmult_le_compat_r; [| lra].
      apply Rlt_le, Rinv_0_lt_compat. unfold Rpower. apply exp_pos.
Qed.

Lemma computeScore_by_replies_witness :
  computeScore 0 (withReplies 3 (ScorerExact.scored_item 10 0))
  <= computeScore 0 (withReplies 5 (ScorerExact.scored_item 10 0)).
Proof.
  apply (computeScore_by_replies 0 (ScorerExact.scored_item 10 0) 3 5). lra.
Defined.

End ScorerEdges.

(* ------------------------------------------------------------------ *)
(** * What the store keeps between ticks *)

Module StoreInvariants.

Import JsMapFacts.

Section MapFacts.
Context {V : Type}.

Lemma In_set (k k' : string) (v v' : V) (m : JsMap.t V) :
  In (k', v') (JsMap.set k v m) -> (k' = k /\ v' = v) \/ In (k', v') m.
Proof.
  induction m as [| [k0 v0] rest IH]; cbn [JsMap.set].
  - intros [[= <- <-] | []]. now left.
  - destruct (String.eqb k k0) eqn:E.
    + apply String.eqb_eq in E. subst k0.
      intros [[= <- <-] | Hin]; [now left | right; now right].
    + intros [Heq | Hin]; [right; now left |].
      destruct (IH Hin) as [Hnew | Hold]; [now left | right; now right].
Qed.

Lemma has_set (k k' : string) (v : V) (m : JsMap.t V) :
  JsMap.has k' (JsMap.set k v m) = (String.eqb k k' || JsMap.has k' m)%bool.
Proof.
  unfold JsMap.has.
  destruct (String.eqb k k') eqn:E.
  - apply String.eqb_eq in E. subst k'. now rewrite get_set_same.
  - apply String.eqb_neq in E. now rewrite get_set_other.
Qed.

Lemma In_delete (k k' : string) (v' : V) (m : JsMap.t V) :
  In (k', v') (JsMap.delete k m) -> In (k', v') m.
Proof.
  induction m as [| [k0 v0] rest IH]; cbn [JsMap.delete]; [trivial |].
  destruct (String.eqb k k0); [right; now apply IH |].
  intros [Heq | Hin]; [now left | right; now apply IH].
Qed.

End MapFacts.

Section Generic.
Context {num : Type} `{Number num}.
Implicit Types (s : MemStore.t num).

(** Insertion puts the element somewhere, whatever the comparator says. *)
Lemma insertSorted_permutation {A : Type} (cmp : A -> A -> num) (x : A)
  (l : list A) : Permutation (insertSorted cmp x l) (x :: l).
Proof.
  induction l as [| y rest IH]; cbn [insertSorted]; [reflexivity |].
  destruct (gtb (cmp x y) zero); [| reflexivity].
  rewrite IH. apply perm_swap.
Qed.

Lemma Array_sort_permutation {A : Type} (cmp : A -> A -> num) (l : list A) :
  Permutation (Array_sort cmp l) l.
Proof.
  induction l as [| x rest IH]; [reflexivity |].
  cbn [Array_sort fold_right]. fold (Array_sort cmp rest).
  rewrite insertSorted_permutation. now constructor.
Qed.

(** Every id of every score table has a stored item. *)
Definition covered s : Prop :=
  forall period scores i sc,
    In (period, scores) (MemStore.periodScores s) ->
    In (i, sc) scores ->
    JsMap.has i (MemStore.items s) = true.

Lemma covered_empty : covered MemStore.empty.
Proof. intros period scores i sc []. Qed.

Lemma covered_addItem period it sc s :
  covered s -> covered (MemStore.addItem period it sc s).
Proof.
  intros Hc p scores i sc' Hp Hi. unfold MemStore.addItem in *.
  cbn [MemStore.items MemStore.periodScores] in *.
  rewrite has_set. apply orb_true_iff.
  destruct (String.eqb (id it) i) eqn:E; [now left | right].
  apply String.eqb_neq in E.
  apply In_set in Hp as [[-> ->] | Hold]; [| now apply (Hc p scores i sc')].
  destruct (JsMap.get period (MemStore.periodScores s)) as [old |] eqn:Eg.
  - apply get_In in Eg.
    destruct (gtb sc _).
    + apply In_set in Hi as [[Heq _] | Hi]; [congruence |].
      now apply (Hc period old i sc').
    + now apply (Hc period old i sc').
  - destruct (gtb sc _); [| destruct Hi].
    apply In_set in Hi as [[Heq _] | []]. congruence.
Qed.

Lemma covered_frame s s' :
  MemStore.items s' = MemStore.items s ->
  (forall e, In e (MemStore.periodScores s') -> In e (MemStore.periodScores s)) ->
  covered s -> covered s'.
Proof.
  intros Hi Hp Hc period scores i sc Hin Hsc. rewrite Hi.
  apply (Hc period scores i sc); [now apply Hp | exact Hsc].
Qed.

Lemma covered_gc now cutoffStr s :
  covered s -> covered (MemStore.gc now cutoffStr s).
Proof.
  apply covered_frame; [reflexivity |].
  intros e. rewrite Gc.gc_unfold. cbn [MemStore.periodScores].
  rewrite Gc.sweep_filter. intros Hin. now apply filter_In in Hin.
Qed.

Lemma covered_isSkipped now c i s :
  covered s -> covered (snd (MemStore.isSkipped now c i s)).
Proof.
  apply covered_frame; unfold MemStore.isSkipped;
    destruct (JsMap.get _ (MemStore.skipped s)) as [e |]; try reflexivity;
    try (destruct (now >? e)%Z; reflexivity); try tauto.
  destruct (now >? e)%Z; cbn; tauto.
Qed.

(** On a covered store the join of [topItems] drops nothing. *)
Lemma joined_all (its : JsMap.t (NewsItem num)) (l : list (string * num)) :
  (forall e, In e l -> JsMap.has (fst e) its = true) ->
  List.length (TopItems.joined its l) = List.length l.
Proof.
  induction l as [| [i sc] rest IH]; intros Hall; [reflexivity |].
  cbn [TopItems.joined flat_map fst snd].
  pose proof (Hall (i, sc) (or_introl eq_refl)) as Hi.
  unfold JsMap.has in Hi. cbn [fst] in Hi.
  destruct (JsMap.get i its); [| discriminate].
  cbn [app List.length]. f_equal. apply IH.
  intros e He. apply Hall. now right.
Qed.

Lemma topItems_full period n s scores :
  covered s ->
  JsMap.get period (MemStore.periodScores s) = Some scores ->
  List.length (MemStore.topItems period n s)
  = sliceCount n (List.length scores).
Proof.
  intros Hc Hg. rewrite TopItems.topItems_unfold, Hg.
  rewrite joined_all.
  - unfold Array_slice0, TopItems.ranked, JsMap.entries.
    rewrite length_firstn.
    rewrite !(Permutation_length (Array_sort_permutation _ scores)).
    unfold sliceCount. destruct (n <? 0)%Z; lia.
  - intros [i sc] Hin. cbn [fst].
    apply Ranker.firstn_incl in Hin.
    apply (Permutation_in _ (Array_sort_permutation _ _)) in Hin.
    apply (Hc period scores i sc); [now apply get_In | exact Hin].
Qed.

End Generic.

Section Ticks.
Context {num : Type} `{Number num} `{MathPow num}.
Implicit Types (s : MemStore.t num).

Lemma covered_storeItems period items s :
  covered s -> covered (Collector.storeItems period items s).
Proof.
  revert s. induction items as [| e rest IH]; intros s Hc; [exact Hc |].
  unfold Collector.storeItems in *. cbn [fold_left]. apply IH.
  destruct (leb (Collector.scoreAt e) zero); [exact Hc |].
  now apply covered_addItem.
Qed.

Lemma covered_collector period fetched s :
  covered s -> covered (fst (Collector.runOnce period fetched s)).
Proof.
  unfold Collector.runOnce. cbn [fst].
  revert s. induction fetched as [| r rest IH]; intros s Hc; [exact Hc |].
  cbn [fold_left]. apply IH. destruct r as [items |]; [| exact Hc].
  now apply covered_storeItems.
Qed.

End Ticks.

Lemma covered_filterNotSkipped {num : Type} `{Number num} (now : Z)
  (cands : list (ScoredItem num)) (s : MemStore.t num) :
  covered s -> covered (snd (Builder.filterNotSkipped now cands s)).
Proof.
  intros Hc.
  destruct (BelowThreshold.filterNotSkipped_spec now cands s)
    as [_ (Hi & Hp & _)].
  apply (covered_frame s); [exact Hi | now rewrite Hp | exact Hc].
Qed.

(** The invariant of the running service: the empty store is covered, and
    a Collector tick and a Builder tick keep a store covered, as do the marker
    operations and gc.  On a covered store the result of [topItems(period, n)]
    is as long as [slice(0, n)] of the score table: no entry is passed over
    for want of an item. *)
Theorem scored_ids_have_items {num : Type} `{Number num} `{MathPow num}
  (summarizeItem : string -> string -> string -> string)
  (summarizePost : list (NewsItem num) -> string -> string)
  (renderMarkdown : string -> string -> string ->
                    list (SummarizedItem num) -> string)
  (expandVars : string -> string -> string)
  (s : MemStore.t num) :
  covered s ->
  (forall period fetched,
     covered (fst (Collector.runOnce period fetched s))) /\
  (forall config clock,
     covered (Builder.store
                (Builder.runOnce summarizeItem summarizePost renderMarkdown
                                 expandVars config clock s))) /\
  (forall period it sc, covered (MemStore.addItem period it sc s)) /\
  (forall now ttl c i,
     covered (MemStore.markSkipped now c i ttl s) /\
     covered (MemStore.markPublished c i s) /\
     covered (snd (MemStore.isSkipped now c i s))) /\
  (forall now cutoffStr, covered (MemStore.gc now cutoffStr s)) /\
  (forall period n scores,
     JsMap.get period (MemStore.periodScores s) = Some scores ->
     List.length (MemStore.topItems period n s)
     = sliceCount n (List.length scores)).
Proof.
  intros Hc.
  split; [intros; now apply covered_collector |].
  split.
  { intros config clock. unfold Builder.runOnce.
    destruct (MemStore.isPublished _ _ s); [exact Hc |].
    unfold Builder.candidates.
    pose proof (covered_filterNotSkipped (Builder.now clock)
                  (filter (fun c =>
                     negb (JsSet.has (toLowerCase (nodeName (item c)))
                             (JsSet.of_list
                                (map toLowerCase
                                     (Builder.generate_excludeNodes config)))))
                     (MemStore.topItems (Builder.today clock)
                        (Builder.generate_topN config * 5) s))
                  s Hc) as Hc1.
    destruct (Builder.filterNotSkipped _ _ s) as [c2 s1]. cbn [snd] in Hc1.
    destruct (_ <? Builder.minItems)%nat; [exact Hc1 |].
    cbn [Builder.store]. apply covered_gc.
    match goal with
    | |- covered (fold_left _ ?chosen ?s2) =>
        change (covered (Publishing.markAll (Builder.now clock)
                           (Builder.generate_skipHours config * 60 * 60 * 1000)
                           chosen s2));
        destruct (Publishing.markAll_frame (Builder.now clock)
                    (Builder.generate_skipHours config * 60 * 60 * 1000)
                    chosen s2) as (Hi & Hp & _)
    end.
    eapply covered_frame; [exact Hi | rewrite Hp; intros e He; exact He |].
    exact Hc1. }
  split; [intros; now apply covered_addItem |].
  split.
  { intros now ttl c i. repeat split.
    - now apply (covered_frame s).
    - now apply (covered_frame s).
    - now apply covered_isSkipped. }
  split; [intros; now apply covered_gc |].
  intros period n scores Hg. now apply topItems_full.
Qed.

Lemma scored_ids_have_items_witness :
  List.length (MemStore.topItems "2024-01-01" 4 Publishing.full_store) = 4%nat.
Proof.
  assert (Hc : covered Publishing.full_store).
  { unfold Publishing.full_store. repeat apply covered_addItem.
    apply covered_empty. }
  destruct (scored_ids_have_items (H0 := ScorerEdges.pow_of_base)
              Markers.no_summary Markers.no_post_summary Markers.plain_render
              Markers.keep_template Publishing.full_store Hc)
    as (_ & _ & _ & _ & _ & Hlen).
  now rewrite (Hlen "2024-01-01" 4%Z _ eq_refl).
Defined.

End StoreInvariants.

(* ------------------------------------------------------------------ *)
(** * The order of what is read from the store (exact arithmetic) *)

Module BestFirst.

Import Ranker.

Section Order.
Context {A : Type} (key : A -> R).

Lemma descending_filter (keep : A -> bool) (l : list A) :
  descending key l -> descending key (filter keep l).
Proof.
  unfold descending. induction 1 as [| x rest Hrest IH Hall]; [constructor |].
  cbn [filter]. destruct (keep x); [| exact IH].
  constructor; [exact IH |].
  apply Forall_forall. intros y Hy. apply filter_In in Hy as [Hy _].
  revert y Hy. now apply Forall_forall.
Qed.

(** A sorted list splits at any point into a better and a worse part. *)
Lemma descending_split (n : nat) (l : list A) :
  descending key l ->
  forall a b, In a (firstn n l) -> In b (skipn n l) -> (key b <= key a)%R.
Proof.
  unfold descending. intros Hs. revert n.
  induction Hs as [| x rest Hrest IH Hall]; intros n a b Ha Hb.
  - rewrite firstn_nil in Ha. destruct Ha.
  - destruct n as [| n]; [destruct Ha |].
    cbn [firstn skipn] in Ha, Hb. destruct Ha as [<- | Ha].
    + rewrite Forall_forall in Hall. apply Hall.
      rewrite <- (firstn_skipn n rest). apply in_or_app. now right.
    + now apply (IH n).
Qed.

End Order.

Lemma joined_descending (its : JsMap.t (NewsItem R)) (l : list (string * R)) :
  descending snd l -> descending score (TopItems.joined its l).
Proof.
  unfold descending. induction 1 as [| [i sc] rest Hrest IH Hall]; [constructor |].
  cbn [TopItems.joined flat_map fst snd].
  destruct (JsMap.get i its) as [it |]; [| exact IH].
  cbn [app]. constructor; [exact IH |].
  apply Forall_forall. intros y Hy.
  apply TopItems.joined_In in Hy as [j [Hin _]].
  rewrite Forall_forall in Hall. apply (Hall (j, score y) Hin).
Qed.

Lemma ranked_descending (scores : JsMap.t R) :
  descending snd (TopItems.ranked scores).
Proof. apply (Array_sort_descending snd). Qed.

Lemma Array_slice0_descending {A : Type} (key : A -> R) (n : Z) (l : list A) :
  descending key l -> descending key (Array_slice0 n l).
Proof. apply descending_firstn. Qed.

Lemma topItems_descending (period : string) (n : Z) (s : MemStore.t R) :
  descending score (MemStore.topItems period n s).
Proof.
  rewrite TopItems.topItems_unfold.
  destruct (JsMap.get period (MemStore.periodScores s)) as [scores |];
    [| constructor].
  apply joined_descending, Array_slice0_descending, ranked_descending.
Qed.

(** What [topItems] leaves out of its cut. *)
Definition leftOut (n : Z) (scores : JsMap.t R) : list (string * R) :=
  skipn (sliceCount n (List.length (TopItems.ranked scores)))
        (TopItems.ranked scores).

(** [topItems] returns its items best first, and nothing that it leaves out
    of its cut of the score table scores higher than something it returns;
    entries of equal score are ranked in the order the table received them.
    The items of a digest, cut from the filtered candidates, are in that
    order too. *)
Theorem topItems_best_first (period : string) (n : Z) (s : MemStore.t R) :
  descending score (MemStore.topItems period n s) /\
  (forall scores,
     JsMap.get period (MemStore.periodScores s) = Some scores ->
     Permutation (Array_slice0 n (TopItems.ranked scores) ++ leftOut n scores)
                 scores /\
     (forall x e, In x (MemStore.topItems period n s) ->
                  In e (leftOut n scores) -> (snd e <= score x)%R) /\
     (forall v, withKey snd v (TopItems.ranked scores) = withKey snd v scores)) /\
  (forall config clock,
     descending score
       (Array_slice0 (Builder.generate_topN config)
                     (BelowThreshold.survivors config clock s))).
Proof.
  split; [apply topItems_descending |]. split.
  - intros scores Hg. split; [| split].
    + unfold Array_slice0, leftOut. rewrite firstn_skipn.
      apply (Array_sort_perm snd).
    + intros x e Hx He. rewrite TopItems.topItems_unfold, Hg in Hx.
      apply TopItems.joined_In in Hx as [i [Hin _]].
      change (score x) with (snd (i, score x)).
      apply (descending_split snd _ (TopItems.ranked scores)
               (ranked_descending scores) _ _ Hin He).
    + intros v. apply (Array_sort_stable snd).
  - intros config clock. apply Array_slice0_descending.
    unfold BelowThreshold.survivors.
    do 3 apply descending_filter. apply topItems_descending.
Qed.

End BestFirst.

(* ------------------------------------------------------------------ *)
(** * A whole tick of the Collector (exact arithmetic) *)

Module CollectorTick.

Import Ratchet.

(** What the sources delivered in a tick, in order, a failed source
    delivering nothing. *)
Definition delivered {A : Type} (fetched : list (option (list A))) : list A :=
  flat_map (fun r => match r with Some items => items | None => [] end) fetched.

Section Generic.
Context {num : Type} `{Number num} `{MathPow num}.

Lemma storeItems_app (period : string)
  (l1 l2 : list (num * NewsItem num)) (s : MemStore.t num) :
  Collector.storeItems period (l1 ++ l2) s =
  Collector.storeItems period l2 (Collector.storeItems period l1 s).
Proof. unfold Collector.storeItems. apply fold_left_app. Qed.

Lemma runOnce_delivered (period : string)
  (fetched : list (option (list (num * NewsItem num)))) (s : MemStore.t num) :
  fst (Collector.runOnce period fetched s) =
  Collector.storeItems period (delivered fetched) s.
Proof.
  unfold Collector.runOnce. cbn [fst].
  revert s. induction fetched as [| r rest IH]; intros s; [reflexivity |].
  cbn [fold_left delivered flat_map]. fold (delivered rest).
  rewrite storeItems_app, IH. now destruct r.
Qed.

End Generic.

Local Open Scope R_scope.

(** Every stored score is above 0. *)
Definition positive (s : MemStore.t R) : Prop :=
  forall period i e, storedScore s period i = Some e -> 0 < e.

Lemma scoresFor_elsewhere (period p i : string)
  (items : list (R * NewsItem R)) :
  p <> period -> scoresFor p i (callsOf period items) = [].
Proof.
  intros Hne. unfold scoresFor, callsOf.
  induction items as [| e rest IH]; [reflexivity |].
  cbn [filter]. destruct (negb _); [| exact IH].
  cbn [map filter]. unfold addresses at 1. cbn [c_period].
  apply not_eq_sym in Hne. apply String.eqb_neq in Hne. rewrite Hne.
  exact IH.
Qed.

(** The scores computed for the delivered items of id [i], in order. *)
Definition computed (i : string) (items : list (R * NewsItem R)) : list R :=
  map Collector.scoreAt (filter (fun e => String.eqb (id (snd e)) i) items).

(** A tick stores what the sources that answered delivered and persists the
    store once; a source that failed changes nothing.  For the period of the
    tick a pair that had a score gets the largest of it and the scores
    computed in the tick, a pair that had none gets the largest computed
    score if that is above 0; the scores of other periods, the publish flags
    and the skip markers are as before, and every stored score stays above
    0. *)
Theorem collector_tick (period : string)
  (fetched : list (option (list (R * NewsItem R)))) (s : MemStore.t R) :
  positive s ->
  let tick := Collector.runOnce period fetched s in
  let got := delivered fetched in
  snd tick = [StorePersisted (fst tick)] /\
  fst tick = Collector.storeItems period got s /\
  (forall i,
     storedScore (fst tick) period i =
     match storedScore s period i with
     | Some e => Some (maxFrom e (computed i got))
     | None => if Rltb 0 (maxFrom 0 (computed i got))
               then Some (maxFrom 0 (computed i got)) else None
     end) /\
  (forall p i, p <> period -> storedScore (fst tick) p i = storedScore s p i) /\
  MemStore.published (fst tick) = MemStore.published s /\
  MemStore.skipped (fst tick) = MemStore.skipped s /\
  positive (fst tick).
Proof.
  intros Hpos tick got. subst tick got.
  assert (Hscore : forall i,
     storedScore (fst (Collector.runOnce period fetched s)) period i =
     match storedScore s period i with
     | Some e => Some (maxFrom e (computed i (delivered fetched)))
     | None => if Rltb 0 (maxFrom 0 (computed i (delivered fetched)))
               then Some (maxFrom 0 (computed i (delivered fetched)))
               else None
     end).
  { intros i. rewrite runOnce_delivered, storeItems_run, storedScore_run.
    rewrite scoresFor_callsOf. unfold computed.
    destruct (storedScore s period i) as [e |] eqn:Es.
    - rewrite maxFrom_skip_nonpos; [reflexivity |].
      apply Rlt_le. now apply (Hpos period i).
    - now rewrite maxFrom_skip_nonpos by lra. }
  assert (Hother : forall p i, p <> period ->
     storedScore (fst (Collector.runOnce period fetched s)) p i
     = storedScore s p i).
  { intros p i Hne. rewrite runOnce_delivered, storeItems_run, storedScore_run.
    rewrite (scoresFor_elsewhere period p i _ Hne). cbn [maxFrom fold_left].
    destruct (storedScore s p i); [reflexivity |].
    unfold Rltb. destruct (Rlt_dec 0 0); [lra | reflexivity]. }
  assert (Hframe : forall calls st,
     MemStore.published (run calls st) = MemStore.published st /\
     MemStore.skipped (run calls st) = MemStore.skipped st).
  { induction calls as [| c rest IH]; intros st; [now split |].
    unfold run in *. cbn [fold_left].
    destruct (IH (MemStore.addItem (c_period c) (c_item c) (c_score c) st))
      as [Hp Hs].
    rewrite Hp, Hs. apply addItem_frame. }
  split; [reflexivity |].
  split; [apply runOnce_delivered |].
  split; [exact Hscore |].
  split; [exact Hother |].
  rewrite runOnce_delivered, storeItems_run.
  split; [apply Hframe |]. split; [apply Hframe |].
  rewrite <- storeItems_run, <- runOnce_delivered.
  intros p i e Hget.
  destruct (String.eqb_spec p period) as [-> | Hne].
  - rewrite Hscore in Hget.
    destruct (storedScore s period i) as [e0 |] eqn:Es.
    + injection Hget as <-.
      eapply Rlt_le_trans; [apply (Hpos period i e0 Es) | apply maxFrom_ge].
    + unfold Rltb in Hget.
      destruct (Rlt_dec 0 _) as [Hlt | _]; [| discriminate].
      now injection Hget as <-.
  - rewrite (Hother p i Hne) in Hget. now apply (Hpos p i).
Qed.

Lemma collector_tick_witness :
  positive (fst (Collector.runOnce "2024-01-01"
                   [Some [(0, post "1")]; None; Some [(3600000, post "2")]]
                   MemStore.empty)).
Proof.
  apply (collector_tick "2024-01-01"
           [Some [(0, post "1")]; None; Some [(3600000, post "2")]]
           MemStore.empty).
  intros period i e Hget. discriminate Hget.
Defined.

End CollectorTick.

(* ------------------------------------------------------------------ *)
(** * Persisting and loading again *)

Module RoundTrip.

Import JsMapFacts.

Section OwnOrder.
Context {V : Type}.
Implicit Types (m props : list (string * V)).

Lemma insertAsc_perm (x : N * (string * V)) (l : list (N * (string * V))) :
  Permutation (JsObject.insertAsc x l) (x :: l).
Proof.
  induction l as [| y rest IH]; cbn [JsObject.insertAsc]; [reflexivity |].
  destruct (fst y <? fst x)%N; [| reflexivity].
  rewrite IH. apply perm_swap.
Qed.

Lemma ascending_perm (l : list (N * (string * V))) :
  Permutation (JsObject.ascending l) l.
Proof.
  induction l as [| x rest IH]; [reflexivity |].
  unfold JsObject.ascending in *. cbn [fold_right].
  rewrite insertAsc_perm. now constructor.
Qed.

Lemma indexPart_snd props :
  map snd (JsObject.indexPart props)
  = filter (fun e => JsObject.isIndex (fst e)) props.
Proof.
  induction props as [| e rest IH]; [reflexivity |].
  cbn [JsObject.indexPart flat_map filter]. unfold JsObject.isIndex at 1.
  destruct (JsObject.arrayIndex (fst e)); cbn [app map snd];
    fold (JsObject.indexPart rest); now rewrite IH.
Qed.

Lemma partition_perm {A : Type} (keep : A -> bool) (l : list A) :
  Permutation (filter keep l ++ filter (fun x => negb (keep x)) l) l.
Proof.
  induction l as [| x rest IH]; [reflexivity |].
  cbn [filter]. destruct (keep x); cbn [negb app].
  - now constructor.
  - rewrite <- Permutation_middle. now constructor.
Qed.

Lemma ownEntries_perm props : Permutation (JsObject.ownEntries props) props.
Proof.
  unfold JsObject.ownEntries.
  rewrite (Permutation_map snd (ascending_perm _)), indexPart_snd.
  apply (partition_perm (fun e => JsObject.isIndex (fst e))).
Qed.

(** Without an index key the order is the order of creation. *)
Lemma ownEntries_plain props :
  (forall e, In e props -> JsObject.isIndex (fst e) = false) ->
  JsObject.ownEntries props = props.
Proof.
  intros Hplain. unfold JsObject.ownEntries.
  assert (Hidx : JsObject.indexPart props = []).
  { induction props as [| e rest IH]; [reflexivity |].
    cbn [JsObject.indexPart flat_map]. fold (JsObject.indexPart rest).
    pose proof (Hplain e (or_introl eq_refl)) as He.
    unfold JsObject.isIndex in He.
    destruct (JsObject.arrayIndex (fst e)); [discriminate |].
    apply IH. intros e' He'. apply Hplain. now right. }
  rewrite Hidx. cbn [JsObject.ascending fold_right map app].
  apply forallb_filter_id. apply forallb_forall. intros e He.
  now rewrite (Hplain e He).
Qed.

(** By index, smallest first. *)
Definition byIndex (l : list (N * (string * V))) : Prop :=
  StronglySorted (fun x y => (fst x <= fst y)%N) l.

Lemma insertAsc_In (x y : N * (string * V)) (l : list (N * (string * V))) :
  In y (JsObject.insertAsc x l) -> y = x \/ In y l.
Proof.
  intros Hin. apply (Permutation_in _ (insertAsc_perm x l)) in Hin.
  destruct Hin as [<- | Hin]; [now left | now right].
Qed.

Lemma insertAsc_byIndex (x : N * (string * V)) (l : list (N * (string * V))) :
  byIndex l -> byIndex (JsObject.insertAsc x l).
Proof.
  unfold byIndex. induction 1 as [| y rest Hrest IH Hall].
  - repeat constructor.
  - cbn [JsObject.insertAsc]. destruct (fst y <? fst x)%N eqn:E.
    + constructor; [exact IH |]. apply Forall_forall. intros z Hz.
      apply insertAsc_In in Hz as [-> | Hz].
      * apply N.ltb_lt in E. lia.
      * rewrite Forall_forall in Hall. now apply Hall.
    + apply N.ltb_ge in E. constructor; [now constructor |].
      constructor; [exact E |]. apply Forall_forall. intros z Hz.
      rewrite Forall_forall in Hall. specialize (Hall z Hz). lia.
Qed.

Lemma ascending_byIndex (l : list (N * (string * V))) :
  byIndex (JsObject.ascending l).
Proof.
  induction l as [| x rest IH]; [constructor |].
  unfold JsObject.ascending in *. cbn [fold_right].
  now apply insertAsc_byIndex.
Qed.

(** Sorting what is sorted changes nothing. *)
Lemma ascending_fixed (l : list (N * (string * V))) :
  byIndex l -> JsObject.ascending l = l.
Proof.
  unfold byIndex. induction 1 as [| x rest Hrest IH Hall]; [reflexivity |].
  unfold JsObject.ascending in *. cbn [fold_right]. rewrite IH.
  destruct rest as [| y rest']; [reflexivity |].
  cbn [JsObject.insertAsc]. inversion Hall as [| ? ? Hxy _]; subst.
  destruct (fst y <? fst x)%N eqn:E; [| reflexivity].
  apply N.ltb_lt in E. lia.
Qed.

(** Every entry carries the index of its key. *)
Definition tagged (l : list (N * (string * V))) : Prop :=
  forall x, In x l -> JsObject.arrayIndex (fst (snd x)) = Some (fst x).

Lemma indexPart_tagged props : tagged (JsObject.indexPart props).
Proof.
  intros [n e] Hin. unfold JsObject.indexPart in Hin.
  apply in_flat_map in Hin as [e' [_ Hin]].
  destruct (JsObject.arrayIndex (fst e')) as [n' |] eqn:E; [| destruct Hin].
  destruct Hin as [[= <- <-] | []]. exact E.
Qed.

Lemma indexPart_of_tagged (l : list (N * (string * V))) :
  tagged l -> JsObject.indexPart (map snd l) = l.
Proof.
  induction l as [| [n e] rest IH]; intros Htag; [reflexivity |].
  cbn [map snd JsObject.indexPart flat_map].
  fold (JsObject.indexPart (map snd rest)).
  pose proof (Htag (n, e) (or_introl eq_refl)) as He. cbn [fst snd] in He.
  rewrite He, IH; [reflexivity |]. intros x Hx. apply Htag. now right.
Qed.

Lemma indexPart_app props props' :
  JsObject.indexPart (props ++ props')
  = JsObject.indexPart props ++ JsObject.indexPart props'.
Proof. unfold JsObject.indexPart. apply flat_map_app. Qed.

Lemma indexPart_others props :
  JsObject.indexPart (filter (fun e => negb (JsObject.isIndex (fst e))) props)
  = [].
Proof.
  induction props as [| e rest IH]; [reflexivity |].
  cbn [filter]. unfold JsObject.isIndex at 1.
  destruct (JsObject.arrayIndex (fst e)) eqn:E; cbn [negb]; [exact IH |].
  cbn [JsObject.indexPart flat_map]. now rewrite E.
Qed.

Lemma others_of_tagged (l : list (N * (string * V))) :
  tagged l ->
  filter (fun e => negb (JsObject.isIndex (fst e))) (map snd l) = [].
Proof.
  induction l as [| x rest IH]; intros Htag; [reflexivity |].
  cbn [map filter]. unfold JsObject.isIndex at 1.
  rewrite (Htag x (or_introl eq_refl)). cbn [negb]. apply IH.
  intros y Hy. apply Htag. now right.
Qed.

(** Enumerating an enumeration changes nothing. *)
Lemma ownEntries_fixed props :
  JsObject.ownEntries (JsObject.ownEntries props) = JsObject.ownEntries props.
Proof.
  assert (Htag : tagged (JsObject.ascending (JsObject.indexPart props))).
  { intros x Hx. apply (indexPart_tagged props).
    apply (Permutation_in _ (ascending_perm _) Hx). }
  unfold JsObject.ownEntries at 1.
  unfold JsObject.ownEntries at 1 2.
  rewrite indexPart_app, indexPart_others, app_nil_r.
  rewrite (indexPart_of_tagged _ Htag).
  rewrite (ascending_fixed _ (ascending_byIndex _)).
  rewrite filter_app, (others_of_tagged _ Htag). cbn [app].
  unfold JsObject.ownEntries. f_equal.
  rewrite filter_twice. apply filter_ext. intros e.
  now destruct (negb (JsObject.isIndex (fst e))).
Qed.

Lemma wf_perm m m' : Permutation m m' -> JsMap.wf m -> JsMap.wf m'.
Proof.
  unfold JsMap.wf, JsMap.keys. intros Hp.
  apply Permutation_NoDup. now apply Permutation_map.
Qed.

Lemma get_perm (k : string) m m' :
  JsMap.wf m -> Permutation m m' -> JsMap.get k m' = JsMap.get k m.
Proof.
  intros Hwf Hp. destruct (JsMap.get k m) as [v |] eqn:E.
  - apply In_get; [now apply (wf_perm m) |].
    apply (Permutation_in _ Hp). now apply get_In.
  - apply get_None_keys. apply get_None_keys in E. intros Hin. apply E.
    unfold JsMap.keys in *.
    apply (Permutation_in _ (Permutation_sym (Permutation_map fst Hp))), Hin.
Qed.

Lemma wf_ownEntries m : JsMap.wf m -> JsMap.wf (JsObject.ownEntries m).
Proof. apply wf_perm. symmetry. apply ownEntries_perm. Qed.

Lemma get_ownEntries (k : string) m :
  JsMap.wf m -> JsMap.get k (JsObject.ownEntries m) = JsMap.get k m.
Proof.
  intros Hwf. apply get_perm; [exact Hwf |]. symmetry. apply ownEntries_perm.
Qed.

(** Setting fresh keys one after the other lists them in that order. *)
Lemma set_fresh (k : string) (v : V) m :
  JsMap.get k m = None -> JsMap.set k v m = m ++ [(k, v)].
Proof.
  induction m as [| [k' v'] rest IH]; cbn [JsMap.get JsMap.set app];
    [reflexivity |].
  destruct (String.eqb k k'); [discriminate |].
  intros Hg. now rewrite IH.
Qed.

End OwnOrder.

(** Writing the values of a map with [enc] and reading them with [dec],
    one [set] per entry. *)
Lemma restore {V J W : Type} (enc : V -> J) (dec : J -> W) (h : V -> W)
  (l : list (string * V)) (acc : JsMap.t W) :
  (forall e, In e l -> dec (enc (snd e)) = h (snd e)) ->
  NoDup (JsMap.keys acc ++ JsMap.keys l) ->
  fold_left (fun m e => JsMap.set (fst e) (dec (snd e)) m)
            (map (fun e => (fst e, enc (snd e))) l) acc
  = acc ++ map (fun e => (fst e, h (snd e))) l.
Proof.
  revert acc. induction l as [| [k v] rest IH]; intros acc Hleaf Hnd.
  - now rewrite app_nil_r.
  - cbn [map fold_left fst snd].
    pose proof (Hleaf (k, v) (or_introl eq_refl)) as Hk. cbn [snd] in Hk.
    rewrite Hk, set_fresh.
    + rewrite IH.
      * now rewrite <- app_assoc.
      * intros e He. apply Hleaf. now right.
      * unfold JsMap.keys in *. rewrite map_app. cbn [map fst].
        rewrite <- app_assoc. exact Hnd.
    + apply get_None_keys. intros Hin.
      unfold JsMap.keys in Hnd. cbn [map fst] in Hnd.
      apply NoDup_remove_2 in Hnd. apply Hnd. apply in_or_app. now left.
Qed.

Lemma keys_map_snd {V W : Type} (h : V -> W) (m : JsMap.t V) :
  JsMap.keys (map (fun e => (fst e, h (snd e))) m) = JsMap.keys m.
Proof.
  unfold JsMap.keys. rewrite map_map. now apply map_ext.
Qed.

Lemma get_map_snd {V W : Type} (h : V -> W) (k : string) (m : JsMap.t V) :
  JsMap.get k (map (fun e => (fst e, h (snd e))) m)
  = option_map h (JsMap.get k m).
Proof.
  induction m as [| [k' v] rest IH]; [reflexivity |].
  cbn [map JsMap.get fst snd]. now destruct (String.eqb k k').
Qed.

(** The enumeration order depends on the keys only. *)
Lemma ownEntries_map {V W : Type} (h : V -> W) (m : list (string * V)) :
  JsObject.ownEntries (map (fun e => (fst e, h (snd e))) m)
  = map (fun e => (fst e, h (snd e))) (JsObject.ownEntries m).
Proof.
  set (g := fun e : string * V => (fst e, h (snd e))).
  set (gi := fun x : N * (string * V) => (fst x, g (snd x))).
  assert (Hins : forall x l,
            JsObject.insertAsc (gi x) (map gi l)
            = map gi (JsObject.insertAsc x l)).
  { intros x l. induction l as [| y rest IH]; [reflexivity |].
    cbn [map JsObject.insertAsc]. unfold gi at 1 2. cbn [fst].
    destruct (fst y <? fst x)%N; cbn [map]; [| reflexivity].
    f_equal. exact IH. }
  assert (Hasc : forall l,
            JsObject.ascending (map gi l) = map gi (JsObject.ascending l)).
  { induction l as [| x rest IH]; [reflexivity |].
    unfold JsObject.ascending in *. cbn [map fold_right].
    now rewrite IH, Hins. }
  assert (Hidx : JsObject.indexPart (map g m) = map gi (JsObject.indexPart m)).
  { induction m as [| e rest IH]; [reflexivity |].
    cbn [map JsObject.indexPart flat_map].
    fold (JsObject.indexPart rest). fold (JsObject.indexPart (map g rest)).
    rewrite IH. unfold g at 1. cbn [fst].
    now destruct (JsObject.arrayIndex (fst e)). }
  unfold JsObject.ownEntries. rewrite Hidx, Hasc, map_app, !map_map.
  apply f_equal2; [reflexivity |].
  clear Hidx. induction m as [| e rest IH]; [reflexivity |].
  cbn [map filter]. unfold g at 1. cbn [fst].
  destruct (negb (JsObject.isIndex (fst e))); cbn [map]; now rewrite IH.
Qed.

(** [Object.fromEntries] of a genuine [Map]. *)
Lemma fromEntries_wf {V : Type} (m : JsMap.t V) :
  JsMap.wf m -> JsObject.fromEntries m = JsObject.ownEntries m.
Proof.
  intros Hwf. unfold JsObject.fromEntries. f_equal.
  pose proof (restore (fun v : V => v) (fun v => v) (fun v => v) m []) as Hr.
  cbv beta in Hr.
  assert (Hid : map (fun e : string * V => (fst e, snd e)) m = m).
  { rewrite <- (map_id m) at 2. apply map_ext. now intros [k v]. }
  rewrite Hid in Hr. apply Hr; [reflexivity | exact Hwf].
Qed.

Lemma fold_add_fresh (l : list string) (acc : JsSet.t) :
  NoDup (acc ++ l) -> fold_left (fun st k => JsSet.add k st) l acc = acc ++ l.
Proof.
  revert acc. induction l as [| k rest IH]; intros acc Hnd.
  - now rewrite app_nil_r.
  - cbn [fold_left]. unfold JsSet.add at 2.
    destruct (JsSet.has k acc) eqn:E.
    + apply has_In in E. apply NoDup_remove_2 in Hnd.
      destruct Hnd. apply in_or_app. now left.
    + rewrite IH; rewrite <- app_assoc; [reflexivity | exact Hnd].
Qed.

Section Store.
Context {num : Type} `{Number num}.
Context (reviveItem : json num -> NewsItem num)
        (scoreOf : json num -> num)
        (keyOf : json num -> string)
        (expiryOf : json num -> Z).
Context (itemJson : NewsItem num -> json num)
        (numJson : num -> json num)
        (expiryJson : Z -> json num).
Implicit Types (s : MemStore.t num).

Let load := MemStore.load reviveItem scoreOf keyOf expiryOf.
Let data := Persisted.data itemJson numJson expiryJson.

(** Every collection of the store is a genuine [Map] or [Set]. *)
Definition genuine s : Prop :=
  JsMap.wf (MemStore.items s) /\
  JsMap.wf (MemStore.periodScores s) /\
  (forall p scores, In (p, scores) (MemStore.periodScores s) -> JsMap.wf scores) /\
  NoDup (MemStore.published s) /\
  JsMap.wf (MemStore.skipped s).

(** The leaves of the store survive [JSON.stringify] and [JSON.parse]:
    an item is written as an object and revived as it was, a score and an
    expiry are read back as the same number. *)
Definition survives s : Prop :=
  (forall i it, In (i, it) (MemStore.items s) ->
     (exists f, itemJson it = JObj f) /\ reviveItem (itemJson it) = it) /\
  (forall p scores i x, In (p, scores) (MemStore.periodScores s) ->
     In (i, x) scores -> scoreOf (numJson x) = x) /\
  (forall k, In k (MemStore.published s) -> keyOf (JStr k) = k) /\
  (forall k e, In (k, e) (MemStore.skipped s) -> expiryOf (expiryJson e) = e).

(** The store with every map in the order its snapshot enumerates. *)
Definition reloaded s : MemStore.t num :=
  MemStore.mk (JsObject.ownEntries (MemStore.items s))
              (map (fun e => (fst e, JsObject.ownEntries (snd e)))
                   (JsObject.ownEntries (MemStore.periodScores s)))
              (MemStore.published s)
              (JsObject.ownEntries (MemStore.skipped s)).

Lemma object_entries {V : Type} (leaf : V -> json num) (m : JsMap.t V) :
  JsMap.wf m ->
  MemStore.Object_entries (Persisted.object leaf m)
  = Some (map (fun e => (fst e, leaf (snd e))) (JsObject.ownEntries m)).
Proof.
  intros Hwf. unfold Persisted.object, JsMap.entries. cbn [MemStore.Object_entries].
  rewrite fromEntries_wf, ownEntries_map; [reflexivity |].
  unfold JsMap.wf. now rewrite keys_map_snd.
Qed.

Lemma truthy_object {V : Type} (leaf : V -> json num) (m : JsMap.t V) :
  MemStore.truthy (Persisted.object leaf m) = true.
Proof. reflexivity. Qed.

Lemma map_fst_snd {V : Type} (m : list (string * V)) :
  map (fun e => (fst e, snd e)) m = m.
Proof.
  rewrite <- (map_id m) at 2. apply map_ext. now intros [k v].
Qed.

Lemma loadItems_fold (es : list (string * json num)) s :
  (forall e, In e es -> exists f, snd e = JObj f) ->
  MemStore.loadItems reviveItem es s =
  MemStore.Completed
    (MemStore.mk
       (fold_left (fun m e => JsMap.set (fst e) (reviveItem (snd e)) m) es
                  (MemStore.items s))
       (MemStore.periodScores s) (MemStore.published s) (MemStore.skipped s)).
Proof.
  revert s. induction es as [| [i j] rest IH]; intros s Hobj.
  - now destruct s.
  - destruct (Hobj (i, j) (or_introl eq_refl)) as [f Hj]. cbn [snd] in Hj.
    subst j. cbn [MemStore.loadItems fold_left fst snd].
    rewrite IH; [reflexivity |]. intros e He. apply Hobj. now right.
Qed.

Lemma mapOfEntries_fold (es : list (string * json num)) :
  MemStore.mapOfEntries scoreOf es =
  fold_left (fun m e => JsMap.set (fst e) (scoreOf (snd e)) m) es [].
Proof.
  unfold MemStore.mapOfEntries, JsMap.empty. generalize (@nil (string * num)).
  induction es as [| [k v] rest IH]; intros acc; [reflexivity |].
  cbn [fold_left fst snd]. apply IH.
Qed.

(** What [load] makes of one score table of the snapshot. *)
Definition tableOf (j : json num) : JsMap.t num :=
  match MemStore.Object_entries j with
  | Some es => MemStore.mapOfEntries scoreOf es
  | None => []
  end.

Lemma loadPeriodScores_fold (es : list (string * json num)) s :
  (forall e, In e es -> exists f, snd e = JObj f) ->
  MemStore.loadPeriodScores scoreOf es s =
  MemStore.Completed
    (MemStore.mk (MemStore.items s)
       (fold_left (fun m e => JsMap.set (fst e) (tableOf (snd e)) m) es
                  (MemStore.periodScores s))
       (MemStore.published s) (MemStore.skipped s)).
Proof.
  revert s. induction es as [| [p j] rest IH]; intros s Hobj.
  - now destruct s.
  - destruct (Hobj (p, j) (or_introl eq_refl)) as [f Hj]. cbn [snd] in Hj.
    subst j. cbn [MemStore.loadPeriodScores MemStore.Object_entries
                  fold_left fst snd].
    rewrite IH; [reflexivity |]. intros e He. apply Hobj. now right.
Qed.

Lemma loadSkipped_fold (es : list (string * json num)) s :
  MemStore.loadSkipped expiryOf es s =
  MemStore.mk (MemStore.items s) (MemStore.periodScores s) (MemStore.published s)
    (fold_left (fun m e => JsMap.set (fst e) (expiryOf (snd e)) m) es
               (MemStore.skipped s)).
Proof.
  revert s. induction es as [| [k j] rest IH]; intros s.
  - now destruct s.
  - unfold MemStore.loadSkipped in *. cbn [fold_left]. now rewrite IH.
Qed.

Lemma loadPublished_fold (ks : list string) s :
  (forall k, In k ks -> keyOf (JStr k) = k) ->
  MemStore.loadPublished keyOf (map JStr ks) s =
  MemStore.mk (MemStore.items s) (MemStore.periodScores s)
    (fold_left (fun st k => JsSet.add k st) ks (MemStore.published s))
    (MemStore.skipped s).
Proof.
  revert s. induction ks as [| k rest IH]; intros s Hkey.
  - now destruct s.
  - unfold MemStore.loadPublished in *. cbn [map fold_left].
    rewrite IH by (intros k' Hk'; apply Hkey; now right).
    cbn [MemStore.items MemStore.periodScores MemStore.published MemStore.skipped].
    now rewrite (Hkey k (or_introl eq_refl)).
Qed.

Lemma tableOf_object (scores : JsMap.t num) :
  JsMap.wf scores ->
  (forall i x, In (i, x) scores -> scoreOf (numJson x) = x) ->
  tableOf (Persisted.object numJson scores) = JsObject.ownEntries scores.
Proof.
  intros Hwf Hleaf. unfold tableOf. rewrite (object_entries _ _ Hwf).
  rewrite mapOfEntries_fold.
  rewrite (restore numJson scoreOf (fun x => x)).
  - cbn [app]. apply map_fst_snd.
  - intros [i x] Hin. cbn [snd]. apply (Hleaf i).
    apply (Permutation_in _ (ownEntries_perm scores) Hin).
  - cbn [JsMap.keys map app]. now apply wf_ownEntries.
Qed.

Lemma load_data s :
  genuine s -> survives s ->
  load (Parsed (data s)) MemStore.empty = (reloaded s, false).
Proof.
  intros (Hwi & Hwp & Hwt & Hnd & Hws) (Hitem & Hnum & Hkey & Hexp).
  unfold load, MemStore.load, MemStore.loadBody, MemStore.section.
  change (MemStore.getProp (data s) "items")
    with (Some (Some (Persisted.object itemJson (MemStore.items s)))).
  change (MemStore.getProp (data s) "periodScores")
    with (Some (Some (Persisted.object (Persisted.object numJson)
                                         (MemStore.periodScores s)))).
  change (MemStore.getProp (data s) "published")
    with (Some (Some (JArr (map (@JStr num) (MemStore.published s))))).
  change (MemStore.getProp (data s) "skipped")
    with (Some (Some (Persisted.object expiryJson (MemStore.skipped s)))).
  cbv beta iota. rewrite !truthy_object. cbn [MemStore.truthy]. cbv beta iota.
  rewrite !object_entries by assumption.
  cbn [MemStore.iterate].
  (* items *)
  rewrite loadItems_fold.
  2:{ intros e He. apply in_map_iff in He as [[i it] [<- Hin]]. cbn [snd].
      apply (Hitem i). apply (Permutation_in _ (ownEntries_perm _) Hin). }
  rewrite (restore itemJson reviveItem (fun x => x)).
  2:{ intros [i it] Hin. cbn [snd]. apply (Hitem i).
      apply (Permutation_in _ (ownEntries_perm _) Hin). }
  2:{ cbn [MemStore.items MemStore.empty JsMap.keys map app].
      now apply wf_ownEntries. }
  cbn [MemStore.andThen MemStore.empty MemStore.items MemStore.periodScores
       MemStore.published MemStore.skipped app].
  rewrite map_fst_snd.
  (* periodScores *)
  rewrite loadPeriodScores_fold.
  2:{ intros e He. apply in_map_iff in He as [[p sc] [<- Hin]]. cbn [snd].
      unfold Persisted.object. eauto. }
  rewrite (restore (Persisted.object numJson) tableOf JsObject.ownEntries).
  2:{ intros [p sc] Hin. cbn [snd].
      apply (Permutation_in _ (ownEntries_perm _)) in Hin.
      apply tableOf_object; [now apply (Hwt p) |].
      intros i x Hx. now apply (Hnum p sc i x). }
  2:{ cbn [MemStore.periodScores JsMap.keys map app]. now apply wf_ownEntries. }
  cbn [MemStore.andThen MemStore.items MemStore.periodScores
       MemStore.published MemStore.skipped app].
  (* published *)
  rewrite (loadPublished_fold _ _ Hkey).
  cbn [MemStore.andThen MemStore.items MemStore.periodScores
       MemStore.published MemStore.skipped].
  unfold JsSet.empty. rewrite (fold_add_fresh _ [] Hnd). cbn [app].
  (* skipped *)
  rewrite loadSkipped_fold.
  cbn [MemStore.items MemStore.periodScores MemStore.published MemStore.skipped].
  rewrite (restore expiryJson expiryOf (fun x => x)).
  - cbn [app]. now rewrite map_fst_snd.
  - intros [k e] Hin. cbn [snd]. apply (Hexp k).
    apply (Permutation_in _ (ownEntries_perm _) Hin).
  - cbn [JsMap.keys map app]. now apply wf_ownEntries.
Qed.

Lemma genuine_reloaded s : genuine s -> genuine (reloaded s).
Proof.
  intros (Hwi & Hwp & Hwt & Hnd & Hws). unfold genuine, reloaded.
  cbn [MemStore.items MemStore.periodScores MemStore.published MemStore.skipped].
  split; [now apply wf_ownEntries |].
  split; [unfold JsMap.wf; rewrite keys_map_snd; now apply wf_ownEntries |].
  split; [| split; [exact Hnd | now apply wf_ownEntries]].
  intros p scores Hin. apply in_map_iff in Hin as [[p' sc] [[= <- <-] Hin]].
  apply wf_ownEntries. apply (Hwt p').
  apply (Permutation_in _ (ownEntries_perm _) Hin).
Qed.

Lemma storedScore_reloaded s (p i : string) :
  genuine s ->
  Ratchet.storedScore (reloaded s) p i = Ratchet.storedScore s p i.
Proof.
  intros (_ & Hwp & Hwt & _). unfold Ratchet.storedScore, reloaded.
  cbn [MemStore.periodScores].
  rewrite get_map_snd.
  pose proof (get_ownEntries p (MemStore.periodScores s) Hwp) as Eouter.
  unfold JsMap.t in *. rewrite Eouter.
  destruct (@JsMap.get (list (string * num)) p (MemStore.periodScores s))
    as [scores |] eqn:E; [| reflexivity].
  cbn [option_map]. apply get_ownEntries. apply (Hwt p). now apply get_In.
Qed.

(** After a restart the store answers every lookup as before: [load] of
    what [persist] wrote into a new store does not throw, it restores every
    item, score, publish flag and skip marker, and it leaves each map in the
    order in which its snapshot enumerates the keys (array indices first,
    ascending), kept as they are when no key is an array index. *)
Theorem persist_load_round_trip s :
  genuine s -> survives s ->
  let s' := MemStore.create reviveItem scoreOf keyOf expiryOf (Parsed (data s)) in
  load (Parsed (data s)) MemStore.empty = (s', false) /\
  s' = reloaded s /\
  (forall i, JsMap.get i (MemStore.items s') = JsMap.get i (MemStore.items s)) /\
  (forall p i, Ratchet.storedScore s' p i = Ratchet.storedScore s p i) /\
  MemStore.published s' = MemStore.published s /\
  (forall k, JsMap.get k (MemStore.skipped s')
             = JsMap.get k (MemStore.skipped s)) /\
  genuine s' /\
  ((forall e, In e (MemStore.items s) -> JsObject.isIndex (fst e) = false) ->
   MemStore.items s' = MemStore.items s) /\
  ((forall e, In e (MemStore.skipped s) -> JsObject.isIndex (fst e) = false) ->
   MemStore.skipped s' = MemStore.skipped s).
Proof.
  intros Hg Hsv s'.
  assert (Hs' : s' = reloaded s).
  { subst s'. unfold MemStore.create.
    change (MemStore.load reviveItem scoreOf keyOf expiryOf) with load.
    now rewrite (load_data s Hg Hsv). }
  rewrite Hs'. split; [now apply load_data |]. split; [reflexivity |].
  pose proof Hg as (Hwi & Hwp & Hwt & Hnd & Hws).
  split; [intros i; now apply get_ownEntries |].
  split; [intros p i; now apply storedScore_reloaded |].
  split; [reflexivity |].
  split; [intros k; now apply get_ownEntries |].
  split; [now apply genuine_reloaded |].
  split; intros Hplain; now apply ownEntries_plain.
Qed.

Lemma reloaded_fixed s : reloaded (reloaded s) = reloaded s.
Proof.
  unfold reloaded.
  cbn [MemStore.items MemStore.periodScores MemStore.published MemStore.skipped].
  rewrite !ownEntries_fixed, ownEntries_map, ownEntries_fixed, map_map.
  f_equal. apply map_ext. intros [p scores]. cbn [fst snd].
  now rewrite ownEntries_fixed.
Qed.

Lemma survives_reloaded s : survives s -> survives (reloaded s).
Proof.
  intros (Hitem & Hnum & Hkey & Hexp). unfold survives, reloaded.
  cbn [MemStore.items MemStore.periodScores MemStore.published MemStore.skipped].
  split; [| split; [| split]].
  - intros i it Hin. apply (Hitem i).
    apply (Permutation_in _ (ownEntries_perm _) Hin).
  - intros p scores i x Hp Hx.
    apply in_map_iff in Hp as [[p' sc] [[= <- <-] Hp]].
    apply (Hnum p' sc i x).
    + apply (Permutation_in _ (ownEntries_perm _) Hp).
    + apply (Permutation_in _ (ownEntries_perm _) Hx).
  - exact Hkey.
  - intros k e Hin. apply (Hexp k).
    apply (Permutation_in _ (ownEntries_perm _) Hin).
Qed.

(** Only the first restart can change the order of the store: persisting
    the store that a restart loaded and loading that snapshot gives the same
    store again, map by map and entry by entry. *)
Theorem restart_twice s :
  genuine s -> survives s ->
  let once := MemStore.create reviveItem scoreOf keyOf expiryOf
                              (Parsed (data s)) in
  load (Parsed (data once)) MemStore.empty = (once, false).
Proof.
  intros Hg Hsv once.
  assert (Honce : once = reloaded s).
  { subst once. unfold MemStore.create.
    change (MemStore.load reviveItem scoreOf keyOf expiryOf) with load.
    now rewrite (load_data s Hg Hsv). }
  rewrite Honce, load_data.
  - now rewrite reloaded_fixed.
  - now apply genuine_reloaded.
  - now apply survives_reloaded.
Qed.

End Store.

(** Leaves for the examples on binary64: an item as an object of its
    fields, a number as itself, an expiry as the number of that value. *)
Definition item_to_json (it : NewsItem float) : json float :=
  JObj [("id", JStr (id it)); ("title", JStr (title it)); ("url", JStr (url it));
        ("content", JStr (content it)); ("nodeName", JStr (nodeName it));
        ("nodeTitle", JStr (nodeTitle it)); ("author", JStr (author it));
        ("replies", JNum (replies it)); ("createdAt", JNum (createdAt it))].

Definition expiry_to_json (e : Z) : json float :=
  JNum (PrimFloat.of_uint63 (Uint63.of_Z e)).

Definition expiry_of_json (j : json float) : Z :=
  match j with
  | JNum f =>
      match Prim2SF f with
      | S754_finite false m e => Z.shiftl (Z.pos m) e
      | S754_finite true m e => - Z.shiftl (Z.pos m) e
      | _ => 0
      end
  | _ => 0
  end.

(** Two posts of equal score, "10" stored before "9", published and
    skipped. *)
Definition tie_store : MemStore.t float :=
  MemStore.markSkipped 1704110400000 "v2ex-digest" "10" 259200000
   (MemStore.markPublished "v2ex-digest" "2024-01-01"
     (MemStore.addItem "2024-01-01" (Markers.post "9" "tech" 9%float) 2.5%float
       (MemStore.addItem "2024-01-01" (Markers.post "10" "tech" 9%float)
                         2.5%float MemStore.empty))).

Lemma tie_store_genuine : genuine tie_store.
Proof.
  unfold genuine. split; [| split; [| split; [| split]]];
    try (apply wfb_wf; reflexivity).
  - intros p scores Hin. vm_compute in Hin.
    destruct Hin as [[= <- <-] | []]. apply wfb_wf. reflexivity.
  - repeat constructor; intros [].
Qed.

Lemma tie_store_survives :
  survives Snapshot.revive Snapshot.score_view Snapshot.key_view expiry_of_json
           item_to_json (@JNum float) expiry_to_json tie_store.
Proof.
  unfold survives. split; [| split; [| split]].
  - intros i it Hin. vm_compute in Hin.
    destruct Hin as [[= <- <-] | [[= <- <-] | []]];
      (split; [eexists; reflexivity | reflexivity]).
  - intros p scores i x Hp Hx. vm_compute in Hp.
    destruct Hp as [[= <- <-] | []].
    destruct Hx as [[= <- <-] | [[= <- <-] | []]]; reflexivity.
  - intros k Hk. reflexivity.
  - intros k e Hin. vm_compute in Hin.
    destruct Hin as [[= <- <-] | []]. vm_compute. reflexivity.
Qed.

(** The store a restart loads from the snapshot of [tie_store]. *)
Definition tie_store_restarted : MemStore.t float :=
  MemStore.create Snapshot.revive Snapshot.score_view Snapshot.key_view
                  expiry_of_json
                  (Parsed (Persisted.data item_to_json (@JNum float)
                                          expiry_to_json tie_store)).

Lemma persist_load_round_trip_witness :
  tie_store_restarted = reloaded tie_store.
Proof.
  apply (persist_load_round_trip Snapshot.revive Snapshot.score_view
           Snapshot.key_view expiry_of_json item_to_json (@JNum float)
           expiry_to_json tie_store tie_store_genuine tie_store_survives).
Defined.

Lemma restart_twice_witness :
  MemStore.create Snapshot.revive Snapshot.score_view Snapshot.key_view
                  expiry_of_json
                  (Parsed (Persisted.data item_to_json (@JNum float)
                                          expiry_to_json tie_store_restarted))
  = tie_store_restarted.
Proof.
  exact (f_equal fst
           (restart_twice Snapshot.revive Snapshot.score_view
              Snapshot.key_view expiry_of_json item_to_json (@JNum float)
              expiry_to_json tie_store tie_store_genuine tie_store_survives)).
Defined.

(** Which keys are array indices. *)
Example arrayIndex_examples :
  map JsObject.arrayIndex
      ["0"; "7"; "1023456"; "4294967294"; "4294967295"; "07"; ""; "-1"; "1.5";
       "2024-01-01"; "v2ex-digest:7"]
  = [Some 0%N; Some 7%N; Some 1023456%N; Some 4294967294%N; None; None; None;
     None; None; None; None].
Proof. reflexivity. Qed.

(** The restart changes the order of that store: "9" now precedes "10", in
    the item table and among the posts of equal score that [topItems]
    returns. *)
Example restart_reorders_ties :
  map (fun x => id (item x)) (MemStore.topItems "2024-01-01" 2 tie_store)
    = ["10"; "9"] /\
  map (fun x => id (item x))
      (MemStore.topItems "2024-01-01" 2 tie_store_restarted)
    = ["9"; "10"] /\
  JsMap.keys (MemStore.items tie_store_restarted) = ["9"; "10"] /\
  MemStore.skipped tie_store_restarted = MemStore.skipped tie_store.
Proof. repeat split; vm_compute; reflexivity. Qed.

End RoundTrip.

(* ------------------------------------------------------------------ *)
(** * Reading the configuration *)

Module ConfigFacts.

Import JsMapFacts.

(** ** Keys *)

(** Does the key start with a lower-case letter? *)
Definition headLower (k : string) : bool :=
  match k with
  | String c _ => Config.isLower c
  | EmptyString => false
  end.

(** Does [/_([a-z])/] match somewhere in the key? *)
Fixpoint hasSnake (k : string) : bool :=
  match k with
  | EmptyString => false
  | String c rest => ((Ascii.eqb c "_" && headLower rest) || hasSnake rest)%bool
  end.

Lemma underscore_not_lower : Config.isLower "_" = false.
Proof. reflexivity. Qed.

Lemma upper_not_lower (d : ascii) :
  Config.isLower d = true ->
  Config.isLower (Config.upper_ascii d) = false /\
  Ascii.eqb (Config.upper_ascii d) "_" = false.
Proof.
  destruct d as [[] [] [] [] [] [] [] []]; intros Hd;
    try discriminate Hd; split; reflexivity.
Qed.

Lemma camelKey_step (c : ascii) (rest : string) :
  Config.camelKey (String c rest) =
  if Ascii.eqb c "_" then
    match rest with
    | String d rest' =>
        if Config.isLower d
        then String (Config.upper_ascii d) (Config.camelKey rest')
        else String c (Config.camelKey rest)
    | EmptyString => String c EmptyString
    end
  else String c (Config.camelKey rest).
Proof. reflexivity. Qed.

(** The conversion never begins with a lower-case letter that the key did
    not begin with. *)
Lemma headLower_camelKey (k : string) :
  headLower (Config.camelKey k) = headLower k.
Proof.
  destruct k as [| c rest]; [reflexivity |].
  rewrite camelKey_step. destruct (Ascii.eqb c "_") eqn:Ec; [| reflexivity].
  apply Ascii.eqb_eq in Ec. subst c. cbn [headLower].
  rewrite underscore_not_lower.
  destruct rest as [| d rest']; [reflexivity |].
  destruct (Config.isLower d) eqn:Ed; [| reflexivity].
  cbn [headLower]. now apply upper_not_lower.
Qed.

Lemma camelKey_clean_upto (n : nat) :
  forall k, (String.length k <= n)%nat -> hasSnake (Config.camelKey k) = false.
Proof.
  induction n as [| n IH]; intros k Hlen.
  - destruct k; [reflexivity | cbn in Hlen; lia].
  - destruct k as [| c rest]; [reflexivity |].
    cbn [String.length] in Hlen. rewrite camelKey_step.
    destruct (Ascii.eqb c "_") eqn:Ec.
    + destruct rest as [| d rest']; [cbn; now rewrite Ec |].
      destruct (Config.isLower d) eqn:Ed.
      * cbn [hasSnake]. destruct (upper_not_lower d Ed) as [_ ->].
        cbn [andb orb]. apply IH. cbn [String.length] in Hlen. lia.
      * cbn [hasSnake]. rewrite headLower_camelKey. cbn [headLower].
        rewrite Ed, andb_false_r. cbn [orb]. apply IH. lia.
    + cbn [hasSnake]. rewrite Ec. cbn [andb orb]. apply IH. lia.
Qed.

Lemma camelKey_clean (k : string) : hasSnake (Config.camelKey k) = false.
Proof. now apply (camelKey_clean_upto (String.length k)). Qed.

Lemma camelKey_plain (k : string) : hasSnake k = false -> Config.camelKey k = k.
Proof.
  induction k as [| c rest IH]; [reflexivity |].
  cbn [hasSnake]. intros Hk. apply orb_false_iff in Hk as [Hhead Hrest].
  rewrite camelKey_step. destruct (Ascii.eqb c "_") eqn:Ec.
  - cbn [andb] in Hhead. destruct rest as [| d rest']; [reflexivity |].
    cbn [headLower] in Hhead. rewrite Hhead. now rewrite IH.
  - now rewrite IH.
Qed.

Lemma camelKey_shorter (n : nat) :
  forall k, (String.length k <= n)%nat ->
            (String.length (Config.camelKey k) <= String.length k)%nat.
Proof.
  induction n as [| n IH]; intros k Hlen.
  - destruct k; [cbn; lia | cbn in Hlen; lia].
  - destruct k as [| c rest]; [cbn; lia |].
    cbn [String.length] in Hlen. rewrite camelKey_step.
    destruct (Ascii.eqb c "_").
    + destruct rest as [| d rest']; [cbn; lia |].
      cbn [String.length] in Hlen.
      destruct (Config.isLower d); cbn [String.length].
      * specialize (IH rest' ltac:(lia)). lia.
      * specialize (IH (String d rest') ltac:(cbn [String.length]; lia)).
        cbn [String.length] in IH. lia.
    + cbn [String.length]. specialize (IH rest ltac:(lia)). lia.
Qed.

(** [camelKey] leaves no [_x] behind: its result has no match of
    [/_([a-z])/], so converting twice is converting once (although a
    replacement can bring an underscore next to a letter, as in ["__ab"]);
    a key without a match is returned as it is, and no key gets longer. *)
Theorem camelKey_idempotent (k : string) :
  hasSnake (Config.camelKey k) = false /\
  Config.camelKey (Config.camelKey k) = Config.camelKey k /\
  (hasSnake k = false -> Config.camelKey k = k) /\
  (String.length (Config.camelKey k) <= String.length k)%nat.
Proof.
  split; [apply camelKey_clean |].
  split; [apply camelKey_plain, camelKey_clean |].
  split; [apply camelKey_plain |].
  now apply (camelKey_shorter (String.length k)).
Qed.

Example camelKey_examples :
  map Config.camelKey
      ["top_n"; "exclude_nodes"; "fetch_interval_min"; "api_key"; "topN";
       "__ab"; "_"; "a_"; "a_B"; "a_1"; "_x_y"]
  = ["topN"; "excludeNodes"; "fetchIntervalMin"; "apiKey"; "topN";
     "_Ab"; "_"; "a_"; "a_B"; "a_1"; "XY"].
Proof. reflexivity. Qed.

(** ** Lookups in an enumerated object *)

Section Lookups.
Context {V : Type}.
Implicit Types (m : list (string * V)) (k : string).

Lemma get_app k m m' :
  JsMap.get k (m ++ m') =
  match JsMap.get k m with Some v => Some v | None => JsMap.get k m' end.
Proof.
  induction m as [| [k' v'] rest IH]; [reflexivity |].
  cbn [app JsMap.get]. now destruct (String.eqb k k').
Qed.

Lemma get_filter_key (keep : string -> bool) k m :
  JsMap.get k (filter (fun e => keep (fst e)) m) =
  if keep k then JsMap.get k m else None.
Proof.
  induction m as [| [k' v'] rest IH].
  - now destruct (keep k).
  - cbn [filter fst JsMap.get]. destruct (String.eqb k k') eqn:E.
    + apply String.eqb_eq in E. subst k'.
      destruct (keep k) eqn:Ek; [| exact IH].
      cbn [JsMap.get]. now rewrite String.eqb_refl.
    + destruct (keep k'); [| exact IH]. cbn [JsMap.get]. now rewrite E.
Qed.

Lemma get_insertAsc k (x : N * (string * V)) (l : list (N * (string * V))) :
  RoundTrip.tagged (x :: l) ->
  JsMap.get k (map snd (JsObject.insertAsc x l))
  = JsMap.get k (snd x :: map snd l).
Proof.
  intros Htag. induction l as [| y rest IH]; [reflexivity |].
  cbn [JsObject.insertAsc]. destruct (fst y <? fst x)%N eqn:E; [| reflexivity].
  apply N.ltb_lt in E.
  assert (Hx := Htag x (or_introl eq_refl)).
  assert (Hy := Htag y (or_intror (or_introl eq_refl))).
  destruct x as [nx [kx vx]], y as [ny [ky vy]]. cbn [fst snd] in *.
  cbn [map snd JsMap.get] in *.
  destruct (String.eqb k ky) eqn:Eky.
  - apply String.eqb_eq in Eky. subst ky.
    destruct (String.eqb k kx) eqn:Ekx; [| reflexivity].
    apply String.eqb_eq in Ekx. subst kx.
    rewrite Hx in Hy. injection Hy as ->. lia.
  - rewrite IH.
    + reflexivity.
    + intros z [<- | Hz]; apply Htag; [now left | right; now right].
Qed.

Lemma get_ascending k (l : list (N * (string * V))) :
  RoundTrip.tagged l ->
  JsMap.get k (map snd (JsObject.ascending l)) = JsMap.get k (map snd l).
Proof.
  induction l as [| x rest IH]; intros Htag; [reflexivity |].
  unfold JsObject.ascending in *. cbn [fold_right].
  rewrite get_insertAsc.
  - destruct x as [nx [kx vx]]. cbn [map snd JsMap.get].
    destruct (String.eqb k kx); [reflexivity |].
    apply IH. intros z Hz. apply Htag. now right.
  - intros z [<- | Hz]; [apply Htag; now left |].
    apply Htag. right.
    apply (Permutation_in _ (RoundTrip.ascending_perm rest) Hz).
Qed.

(** Enumerating an object does not change what a lookup finds, even in a
    list with a repeated key. *)
Lemma get_enumerated k m : JsMap.get k (JsObject.ownEntries m) = JsMap.get k m.
Proof.
  unfold JsObject.ownEntries.
  rewrite get_app, get_ascending by apply RoundTrip.indexPart_tagged.
  rewrite RoundTrip.indexPart_snd.
  rewrite (get_filter_key JsObject.isIndex).
  rewrite (get_filter_key (fun k' => negb (JsObject.isIndex k'))).
  destruct (JsObject.isIndex k); cbn [negb]; [| reflexivity].
  now destruct (JsMap.get k m).
Qed.

End Lookups.

(** ** deepMerge *)

Section Merge.
Context {num : Type} `{Number num}.
Implicit Types (t s sv : json num) (fs : list (string * json num)).

(** [obj[k1][k2]...]: the value at a path of property names, through
    objects. *)
Fixpoint lookupPath (path : list string) (j : json num) : option (json num) :=
  match path with
  | [] => Some j
  | k :: rest =>
      match j with
      | JObj fields =>
          match JsMap.get k fields with
          | Some v => lookupPath rest v
          | None => None
          end
      | _ => None
      end
  end.

(** What [deepMerge] stores at a key of the source. *)
Definition mergeValue (tv : option (json num)) sv : json num :=
  match sv, tv with
  | JObj _, Some old =>
      if Config.typeofObject (Some old) then Config.merged old sv else sv
  | _, _ => sv
  end.

Definition mergeStep (result : list (string * json num)) (e : string * json num)
  : list (string * json num) :=
  JsMap.set (fst e) (mergeValue (JsMap.get (fst e) result) (snd e)) result.

Lemma merged_object t fs :
  Config.merged t (JObj fs) =
  JObj (JsObject.ownEntries (fold_left mergeStep fs (Config.spread t))).
Proof.
  cbn [Config.merged]. do 2 f_equal.
  generalize (Config.spread t).
  induction fs as [| [key sv] rest IH]; intros result; [reflexivity |].
  cbn [fold_left]. rewrite <- IH. unfold mergeStep, mergeValue. cbn [fst snd].
  destruct sv; try reflexivity.
  destruct (JsMap.get key result) as [tv |]; [| reflexivity].
  now destruct (Config.typeofObject (Some tv)).
Qed.

Lemma get_mergeStep fs : forall result k,
  NoDup (JsMap.keys fs) ->
  JsMap.get k (fold_left mergeStep fs result) =
  match JsMap.get k fs with
  | Some sv => Some (mergeValue (JsMap.get k result) sv)
  | None => JsMap.get k result
  end.
Proof.
  induction fs as [| [key sv] rest IH]; intros result k Hnd; [reflexivity |].
  cbn [JsMap.keys map fst] in Hnd. apply NoDup_cons_iff in Hnd as [Hfresh Hnd].
  cbn [fold_left JsMap.get]. rewrite (IH _ _ Hnd).
  unfold mergeStep at 1 2. cbn [fst snd].
  destruct (String.eqb k key) eqn:E.
  - apply String.eqb_eq in E. subst key.
    assert (Hnone : JsMap.get k rest = None) by now apply get_None_keys.
    rewrite Hnone. now rewrite get_set_same.
  - apply String.eqb_neq in E.
    rewrite (get_set_other key k) by congruence.
    destruct (JsMap.get k rest); reflexivity.
Qed.

(** One level of the merge, key by key. *)
Lemma get_merged t fs k :
  NoDup (JsMap.keys fs) ->
  lookupPath [k] (Config.merged t (JObj fs)) =
  match JsMap.get k fs with
  | Some sv => Some (mergeValue (JsMap.get k (Config.spread t)) sv)
  | None => JsMap.get k (Config.spread t)
  end.
Proof.
  intros Hnd. rewrite merged_object. cbn [lookupPath].
  rewrite get_enumerated, (get_mergeStep fs _ _ Hnd).
  destruct (JsMap.get k fs); [reflexivity |].
  now destruct (JsMap.get k (Config.spread t)).
Qed.



Lemma lookupPath_cons k rest j v :
  lookupPath [k] j = Some v -> lookupPath (k :: rest) j = lookupPath rest v.
Proof.
  cbn [lookupPath]. destruct j; try discriminate.
  destruct (JsMap.get k fields); [| discriminate]. now intros [= ->].
Qed.




(** ** Two-level configurations *)

(** [j[sec][fld]]. *)
Definition field (sec fld : string) (j : json num) : option (json num) :=
  lookupPath [sec; fld] j.

(** An object whose values are objects: sections. *)
Definition layered t : Prop :=
  exists tfs, t = JObj tfs /\
    forall sec v, JsMap.get sec tfs = Some v -> exists vs, v = JObj vs.

(** A genuine object of genuine sections whose fields are not objects:
    the shape of a configuration file and of the CLI overrides. *)
Definition flat s : Prop :=
  exists sfs, s = JObj sfs /\ NoDup (JsMap.keys sfs) /\
    forall sec v, JsMap.get sec sfs = Some v ->
      exists vs, v = JObj vs /\ NoDup (JsMap.keys vs) /\
        forall fld x, JsMap.get fld vs = Some x -> forall fields, x <> JObj fields.

Lemma mergeValue_leaf (tv : option (json num)) sv :
  (forall fields, sv <> JObj fields) -> mergeValue tv sv = sv.
Proof.
  intros Hleaf. unfold mergeValue. destruct sv; try reflexivity.
  now destruct (Hleaf fields).
Qed.

Lemma field_merged t s :
  layered t -> flat s ->
  layered (Config.merged t s) /\
  forall sec fld,
    field sec fld (Config.merged t s) =
    match field sec fld s with
    | Some v => Some v
    | None => field sec fld t
    end.
Proof.
  intros (tfs & -> & Hlayers) (sfs & -> & Hnd & Hflat).
  assert (Hsec : forall sec,
            lookupPath [sec] (Config.merged (JObj tfs) (JObj sfs)) =
            match JsMap.get sec sfs with
            | Some sv => Some (mergeValue (JsMap.get sec tfs) sv)
            | None => JsMap.get sec tfs
            end).
  { intros sec. apply (get_merged (JObj tfs) sfs sec Hnd). }
  split.
  - rewrite merged_object. eexists. split; [reflexivity |].
    intros sec v Hg. specialize (Hsec sec). rewrite merged_object in Hsec.
    cbn [lookupPath] in Hsec. rewrite Hg in Hsec.
    destruct (JsMap.get sec sfs) as [sv |] eqn:Es.
    + destruct (Hflat sec sv Es) as (vs & -> & _).
      assert (Hv : v = mergeValue (JsMap.get sec tfs) (JObj vs)) by congruence.
      rewrite Hv. unfold mergeValue.
      destruct (JsMap.get sec tfs) as [old |]; [| eauto].
      destruct (Config.typeofObject (Some old)); [| eauto].
      rewrite merged_object. eauto.
    + apply (Hlayers sec v). now rewrite <- Hsec.
  - intros sec fld. unfold field.
    specialize (Hsec sec).
    destruct (JsMap.get sec sfs) as [sv |] eqn:Es.
    + destruct (Hflat sec sv Es) as (vs & -> & Hndv & Hleaf).
      rewrite (lookupPath_cons _ _ _ _ Hsec).
      change (lookupPath [sec; fld] (JObj sfs))
        with (match JsMap.get sec sfs with
              | Some v => lookupPath [fld] v
              | None => None
              end).
      change (lookupPath [sec; fld] (JObj tfs))
        with (match JsMap.get sec tfs with
              | Some v => lookupPath [fld] v
              | None => None
              end).
      rewrite Es.
      destruct (JsMap.get sec tfs) as [old |] eqn:Et.
      * destruct (Hlayers sec old Et) as (tvs & ->).
        change (mergeValue (Some (JObj tvs)) (JObj vs))
          with (Config.merged (JObj tvs) (JObj vs)).
        rewrite (get_merged (JObj tvs) vs fld Hndv).
        cbn [Config.spread MemStore.Object_entries lookupPath].
        destruct (JsMap.get fld vs) as [x |] eqn:Ex.
        -- now rewrite (mergeValue_leaf _ x (Hleaf fld x Ex)).
        -- now destruct (JsMap.get fld tvs).
      * cbn [mergeValue lookupPath].
        now destruct (JsMap.get fld vs).
    + rewrite merged_object in *. cbn [lookupPath] in *. rewrite Es.
      cbn [Config.spread MemStore.Object_entries] in Hsec.
      rewrite <- Hsec.
      now destruct (JsMap.get sec (JsObject.ownEntries _)).
Qed.

End Merge.


(** ** snakeToCamel *)

Section Snake.
Context {num : Type} `{Number num}.

Definition camelEntry (e : string * json num) : string * json num :=
  (Config.camelKey (fst e), Config.snakeToCamel (snd e)).

Lemma snakeToCamel_object (fs : list (string * json num)) :
  Config.snakeToCamel (JObj fs) =
  JObj (JsObject.ownEntries
          (fold_left (fun result e => JsMap.set (fst (camelEntry e))
                                                (snd (camelEntry e)) result)
                     fs [])).
Proof.
  cbn [Config.snakeToCamel]. do 2 f_equal.
  generalize (@nil (string * json num)).
  induction fs as [| [key value] rest IH]; intros result; [reflexivity |].
  cbn [fold_left]. now rewrite <- IH.
Qed.

(** Without two keys of the same camelCase form, the converted object has
    the converted entries in the order of the original. *)
Lemma snakeToCamel_entries (fs : list (string * json num)) :
  NoDup (map Config.camelKey (JsMap.keys fs)) ->
  Config.snakeToCamel (JObj fs) = JObj (JsObject.ownEntries (map camelEntry fs)).
Proof.
  intros Hnd. rewrite snakeToCamel_object. do 2 f_equal.
  pose proof (RoundTrip.restore (fun v : json num => v) (fun v => v)
                (fun v => v) (map camelEntry fs) []) as Hr.
  cbv beta in Hr. rewrite !RoundTrip.map_fst_snd in Hr. cbn [app] in Hr.
  rewrite <- Hr.
  - clear Hr Hnd. generalize (@nil (string * json num)).
    induction fs as [| e rest IH]; intros result; [reflexivity |].
    cbn [map fold_left]. apply IH.
  - reflexivity.
  - cbn [JsMap.keys map app]. unfold JsMap.keys in *.
    rewrite map_map. cbn [camelEntry fst]. now rewrite map_map in Hnd.
Qed.

Lemma get_camelEntry (fs : list (string * json num)) (k : string) (v : json num) :
  NoDup (map Config.camelKey (JsMap.keys fs)) ->
  JsMap.get k fs = Some v ->
  JsMap.get (Config.camelKey k) (map camelEntry fs)
  = Some (Config.snakeToCamel v).
Proof.
  induction fs as [| [k' v'] rest IH]; [discriminate |].
  cbn [JsMap.keys map fst] in *. intros Hnd.
  apply NoDup_cons_iff in Hnd as [Hfresh Hnd].
  cbn [JsMap.get camelEntry fst snd]. destruct (String.eqb k k') eqn:E.
  - apply String.eqb_eq in E. subst k'. intros [= ->].
    now rewrite String.eqb_refl.
  - intros Hg. destruct (String.eqb (Config.camelKey k) (Config.camelKey k'))
      eqn:Ec; [| now apply IH].
    apply String.eqb_eq in Ec. destruct Hfresh. rewrite <- Ec.
    apply get_In in Hg. apply in_map.
    now apply (in_map fst) in Hg.
Qed.

(** A two-level file in which no two keys of an object have the same
    camelCase form. *)
Definition snakeFlat (raw : json num) : Prop :=
  exists rfs, raw = JObj rfs /\
    NoDup (map Config.camelKey (JsMap.keys rfs)) /\
    forall sec v, In (sec, v) rfs ->
      exists vs, v = JObj vs /\
        NoDup (map Config.camelKey (JsMap.keys vs)) /\
        forall fld x, In (fld, x) vs -> forall fields, x <> JObj fields.

Lemma NoDup_camel_keys (fs : list (string * json num)) :
  NoDup (map Config.camelKey (JsMap.keys fs)) ->
  NoDup (JsMap.keys (JsObject.ownEntries (map camelEntry fs))).
Proof.
  intros Hnd. apply RoundTrip.wf_ownEntries. unfold JsMap.wf, JsMap.keys in *.
  rewrite map_map. cbn [camelEntry fst]. now rewrite map_map in Hnd.
Qed.

(** [snakeToCamel] on such a file: what the file says at [sec.fld] is
    found, converted, at the camelCase names, and the result is a two-level
    configuration. *)
Theorem snakeToCamel_fields (raw : json num) :
  snakeFlat raw ->
  flat (Config.snakeToCamel raw) /\
  forall sec fld v,
    field sec fld raw = Some v ->
    field (Config.camelKey sec) (Config.camelKey fld) (Config.snakeToCamel raw)
    = Some (Config.snakeToCamel v).
Proof.
  intros (rfs & -> & Hnd & Hsecs). rewrite (snakeToCamel_entries rfs Hnd).
  split.
  - eexists. split; [reflexivity |]. split; [now apply NoDup_camel_keys |].
    intros sec v Hg. rewrite get_enumerated in Hg. apply get_In in Hg.
    apply in_map_iff in Hg as [[sec0 v0] [[= <- <-] Hin]].
    destruct (Hsecs sec0 v0 Hin) as (vs & -> & Hndv & Hleaf).
    rewrite (snakeToCamel_entries vs Hndv).
    eexists. split; [reflexivity |]. split; [now apply NoDup_camel_keys |].
    intros fld x Hx fields ->. rewrite get_enumerated in Hx. apply get_In in Hx.
    apply in_map_iff in Hx as [[fld0 x0] [[= _ Hx0] Hin0]].
    specialize (Hleaf fld0 x0 Hin0).
    destruct x0; try discriminate Hx0. now destruct (Hleaf fields0).
  - intros sec fld v. unfold field. cbn [lookupPath].
    destruct (JsMap.get sec rfs) as [sv |] eqn:Es; [| discriminate].
    rewrite get_enumerated, (get_camelEntry rfs sec sv Hnd Es).
    destruct (Hsecs sec sv (get_In _ _ _ Es)) as (vs & -> & Hndv & _).
    rewrite (snakeToCamel_entries vs Hndv).
    destruct (JsMap.get fld vs) as [x |] eqn:Ex; [| discriminate].
    intros [= ->].
    now rewrite get_enumerated, (get_camelEntry vs fld v Hndv Ex).
Qed.

End Snake.

(** ** The overrides of the command line *)

Section Overrides.
Context {num : Type} `{Number num}.
Implicit Types (o : list (string * json num)) (v : json num).

Lemma withField_fields (sec fld : string) v o :
  flat (JObj o) -> (forall fields, v <> JObj fields) ->
  flat (JObj (Cli.withField sec fld v o)) /\
  forall sec' fld',
    field sec' fld' (JObj (Cli.withField sec fld v o)) =
    if (String.eqb sec' sec && String.eqb fld' fld)%bool then Some v
    else field sec' fld' (JObj o).
Proof.
  intros (sfs & [= <-] & Hnd & Hflat) Hleaf.
  unfold Cli.withField.
  set (old := match JsMap.get sec o with
              | Some section => Config.spread section
              | None => []
              end).
  assert (Hold : NoDup (JsMap.keys old) /\
                 (forall fld' x, JsMap.get fld' old = Some x ->
                                 forall fields, x <> JObj fields) /\
                 (forall fld', field sec fld' (JObj o) = JsMap.get fld' old)).
  { subst old. unfold field. cbn [lookupPath].
    destruct (JsMap.get sec o) as [section |] eqn:Es.
    - destruct (Hflat sec section Es) as (vs & -> & Hndv & Hleaves).
      cbn [Config.spread MemStore.Object_entries].
      split; [exact Hndv |]. split; [exact Hleaves |].
      intros fld'. now destruct (JsMap.get fld' vs).
    - split; [constructor |]. split; [discriminate | reflexivity]. }
  destruct Hold as (Hndo & Hleaves & Hfield).
  split.
  - eexists. split; [reflexivity |]. split; [now apply wf_set |].
    intros sec' x Hg. destruct (String.eqb_spec sec sec') as [<- | Hne].
    + rewrite get_set_same in Hg. injection Hg as <-.
      eexists. split; [reflexivity |].
      split; [apply RoundTrip.wf_ownEntries; now apply wf_set |].
      intros fld' y Hy. rewrite get_enumerated in Hy.
      destruct (String.eqb_spec fld fld') as [<- | Hnf].
      * rewrite get_set_same in Hy. injection Hy as <-. exact Hleaf.
      * rewrite get_set_other in Hy by exact Hnf. now apply (Hleaves fld').
    + rewrite get_set_other in Hg by exact Hne. now apply (Hflat sec').
  - intros sec' fld'. unfold field at 1. cbn [lookupPath].
    destruct (String.eqb_spec sec' sec) as [-> | Hne].
    + rewrite get_set_same, get_enumerated. cbn [andb].
      destruct (String.eqb_spec fld' fld) as [-> | Hnf].
      * now rewrite get_set_same.
      * rewrite get_set_other by congruence. rewrite Hfield.
        now destruct (JsMap.get fld' old).
    + cbn [andb]. rewrite get_set_other by congruence. reflexivity.
Qed.

(** What one line [if (opts.x) cliOverrides.sec = { ..., fld: opts.x }]
    makes of the field [sec'.fld']. *)
Definition formula (sec fld : string) (v : option (json num)) (sec' fld' : string)
  (otherwise : option (json num)) : option (json num) :=
  match v with
  | Some j =>
      if (String.eqb sec' sec && String.eqb fld' fld && MemStore.truthy j)%bool
      then Some j else otherwise
  | None => otherwise
  end.

Lemma formula_skip (sec fld : string) (v : option (json num)) (sec' fld' : string)
  (otherwise : option (json num)) :
  (String.eqb sec' sec && String.eqb fld' fld)%bool = false ->
  formula sec fld v sec' fld' otherwise = otherwise.
Proof.
  intros Hne. unfold formula. destruct v; [| reflexivity]. now rewrite Hne.
Qed.

(** What the options say about a field: the lines of [runGenerate], the
    last one first. *)
Definition optionAt (opts : Cli.Opts num) (sec fld : string)
  : option (json num) :=
  formula "ai" "apiKey" (option_map JStr (Cli.o_aiApiKey opts)) sec fld
  (formula "ai" "baseUrl" (option_map JStr (Cli.o_aiBaseUrl opts)) sec fld
  (formula "ai" "model" (option_map JStr (Cli.o_aiModel opts)) sec fld
  (formula "ai" "provider" (option_map JStr (Cli.o_aiProvider opts)) sec fld
  (formula "v2ex" "token" (option_map JStr (Cli.o_token opts)) sec fld
  (formula "generate" "excludeNodes"
           (option_map (fun l => JArr (map JStr l)) (Cli.o_excludeNodes opts))
           sec fld
  (formula "generate" "topN" (option_map JNum (Cli.o_topN opts)) sec fld
  (formula "generate" "nodes"
           (option_map (fun l => JArr (map JStr l)) (Cli.o_nodes opts))
           sec fld None))))))).

(** One line [if (opts.x) cliOverrides.sec = {...}], for a value that is
    not an object. *)
Lemma line_fields (sec fld : string) (v : option (json num)) o :
  flat (JObj o) ->
  (forall j fields, v = Some j -> j <> JObj fields) ->
  let o' := match v with
            | Some j => if MemStore.truthy j then Cli.withField sec fld j o else o
            | None => o
            end in
  flat (JObj o') /\
  forall sec' fld',
    field sec' fld' (JObj o') =
    match v with
    | Some j =>
        if (String.eqb sec' sec && String.eqb fld' fld && MemStore.truthy j)%bool
        then Some j else field sec' fld' (JObj o)
    | None => field sec' fld' (JObj o)
    end.
Proof.
  intros Hflat Hleaf o'. subst o'. destruct v as [j |]; [| now split].
  destruct (MemStore.truthy j).
  - destruct (withField_fields sec fld j o Hflat (fun f => Hleaf j f eq_refl))
      as [Hf Hfields].
    split; [exact Hf |]. intros sec' fld'. rewrite Hfields.
    now rewrite andb_true_r.
  - split; [exact Hflat |]. intros sec' fld'. now rewrite andb_false_r.
Qed.

Lemma ifString_fields (sec fld : string) (v : option string) o :
  flat (JObj o) ->
  flat (JObj (Cli.ifString sec fld v o)) /\
  forall sec' fld',
    field sec' fld' (JObj (Cli.ifString sec fld v o)) =
    formula sec fld (option_map JStr v) sec' fld' (field sec' fld' (JObj o)).
Proof.
  intros Hflat.
  destruct (line_fields sec fld (option_map JStr v) o Hflat) as [Hf Hfields].
  - intros j fields Hj. destruct v; now inversion Hj.
  - unfold Cli.ifString, formula. destruct v; [| now split]. now split.
Qed.

Lemma ifList_fields (sec fld : string) (v : option (list string)) o :
  flat (JObj o) ->
  flat (JObj (Cli.ifList sec fld v o)) /\
  forall sec' fld',
    field sec' fld' (JObj (Cli.ifList sec fld v o)) =
    formula sec fld (option_map (fun l => JArr (map JStr l)) v) sec' fld'
            (field sec' fld' (JObj o)).
Proof.
  intros Hflat.
  destruct (line_fields sec fld (option_map (fun l => JArr (map JStr l)) v)
              o Hflat) as [Hf Hfields].
  - intros j fields Hj. destruct v; now inversion Hj.
  - unfold Cli.ifList, formula. destruct v; [| now split]. now split.
Qed.

Lemma ifNumber_fields (sec fld : string) (v : option num) o :
  flat (JObj o) ->
  flat (JObj (Cli.ifNumber sec fld v o)) /\
  forall sec' fld',
    field sec' fld' (JObj (Cli.ifNumber sec fld v o)) =
    formula sec fld (option_map JNum v) sec' fld' (field sec' fld' (JObj o)).
Proof.
  intros Hflat.
  destruct (line_fields sec fld (option_map JNum v) o Hflat) as [Hf Hfields].
  - intros j fields Hj. destruct v; now inversion Hj.
  - unfold Cli.ifNumber, formula. destruct v; [| now split]. now split.
Qed.

(** The overrides that [runGenerate] builds from the options: a two-level
    object ([flat]) that holds exactly the
    options given with a truthy value.  [--top-n 0] and a [--top-n] that
    [parseInt] reads as NaN are left out, as is an option given as the empty
    string; an option that takes a list is kept even when the list is
    empty. *)
Theorem cliOverrides_fields (opts : Cli.Opts num) :
  flat (Cli.cliOverrides opts) /\
  (forall sec fld,
     field sec fld (Cli.cliOverrides opts) = optionAt opts sec fld) /\
  (forall n, Cli.o_topN opts = Some n -> MemStore.truthy (JNum n) = false ->
     field "generate" "topN" (Cli.cliOverrides opts) = None) /\
  (Cli.o_nodes opts = Some [] ->
   field "generate" "nodes" (Cli.cliOverrides opts) = Some (JArr [])).
Proof.
  assert (Hempty : flat (@JObj num [])).
  { eexists. split; [reflexivity |]. split; [constructor | discriminate]. }
  assert (Hmain :
    flat (Cli.cliOverrides opts) /\
    forall sec fld, field sec fld (Cli.cliOverrides opts) = optionAt opts sec fld).
  { unfold Cli.cliOverrides.
    destruct (ifList_fields "generate" "nodes" (Cli.o_nodes opts) [] Hempty)
      as [F1 E1].
    destruct (ifNumber_fields "generate" "topN" (Cli.o_topN opts) _ F1)
      as [F2 E2].
    destruct (ifList_fields "generate" "excludeNodes" (Cli.o_excludeNodes opts)
                _ F2) as [F3 E3].
    destruct (ifString_fields "v2ex" "token" (Cli.o_token opts) _ F3)
      as [F4 E4].
    destruct (ifString_fields "ai" "provider" (Cli.o_aiProvider opts) _ F4)
      as [F5 E5].
    destruct (ifString_fields "ai" "model" (Cli.o_aiModel opts) _ F5)
      as [F6 E6].
    destruct (ifString_fields "ai" "baseUrl" (Cli.o_aiBaseUrl opts) _ F6)
      as [F7 E7].
    destruct (ifString_fields "ai" "apiKey" (Cli.o_aiApiKey opts) _ F7)
      as [F8 E8].
    destruct F8 as (sfs & [= <-] & Hnd & Hsecs). split.
    - eexists. split; [reflexivity |].
      split; [now apply RoundTrip.wf_ownEntries |].
      intros sec v Hg. rewrite get_enumerated in Hg. now apply (Hsecs sec).
    - intros sec fld.
      transitivity (field sec fld
                      (JObj (Cli.ifString "ai" "apiKey" (Cli.o_aiApiKey opts)
                            (Cli.ifString "ai" "baseUrl" (Cli.o_aiBaseUrl opts)
                            (Cli.ifString "ai" "model" (Cli.o_aiModel opts)
                            (Cli.ifString "ai" "provider" (Cli.o_aiProvider opts)
                            (Cli.ifString "v2ex" "token" (Cli.o_token opts)
                            (Cli.ifList "generate" "excludeNodes"
                                        (Cli.o_excludeNodes opts)
                            (Cli.ifNumber "generate" "topN" (Cli.o_topN opts)
                            (Cli.ifList "generate" "nodes" (Cli.o_nodes opts)
                                        [])))))))))).
      + unfold field. cbn [lookupPath]. now rewrite get_enumerated.
      + rewrite E8, E7, E6, E5, E4, E3, E2, E1. reflexivity. }
  destruct Hmain as [Hflat Hfields].
  split; [exact Hflat |]. split; [exact Hfields |]. split.
  - intros n Hn Hfalsy. rewrite Hfields. unfold optionAt.
    rewrite !(formula_skip "ai") by reflexivity.
    rewrite (formula_skip "v2ex") by reflexivity.
    rewrite (formula_skip "generate" "excludeNodes") by reflexivity.
    rewrite (formula_skip "generate" "nodes") by reflexivity.
    unfold formula. rewrite Hn. cbn [option_map]. rewrite Hfalsy.
    now rewrite andb_false_r.
  - intros Hnodes. rewrite Hfields. unfold optionAt.
    rewrite !(formula_skip "ai") by reflexivity.
    rewrite (formula_skip "v2ex") by reflexivity.
    rewrite (formula_skip "generate" "excludeNodes") by reflexivity.
    rewrite (formula_skip "generate" "topN") by reflexivity.
    unfold formula. rewrite Hnodes. reflexivity.
Qed.

End Overrides.

(** ** loadConfig *)

(** What [loadConfig] merges into the defaults for the file. *)
Definition fileConfig (file : snapshotFile float) : json float :=
  match file with
  | Parsed JNull => JObj []
  | Parsed parsed => Config.snakeToCamel parsed
  | _ => JObj []
  end.

(** The overrides, none being as good as [{}]. *)
Definition overridesOf (cliOverrides : option (json float)) : json float :=
  match cliOverrides with
  | Some overrides => overrides
  | None => JObj []
  end.

(** The first of CLI, file and defaults that has the field. *)
Definition firstDefined (sec fld : string) (cli file : json float)
  : option (json float) :=
  match field sec fld cli with
  | Some v => Some v
  | None =>
      match field sec fld file with
      | Some v => Some v
      | None => field sec fld Config.DEFAULTS
      end
  end.

Definition isObject (j : json float) : bool :=
  match j with JObj _ => true | _ => false end.

(** A decision procedure for [flat]. *)
Definition flatb (j : json float) : bool :=
  match j with
  | JObj sfs =>
      JsMap.wfb sfs &&
      forallb (fun e =>
                 match snd e with
                 | JObj vs =>
                     JsMap.wfb vs && forallb (fun x => negb (isObject (snd x))) vs
                 | _ => false
                 end) sfs
  | _ => false
  end.

Lemma flatb_flat (j : json float) : flatb j = true -> flat j.
Proof.
  destruct j as [| | | | | sfs]; try discriminate. cbn [flatb].
  intros Hb. apply andb_true_iff in Hb as [Hwf Hall].
  exists sfs. split; [reflexivity |]. split; [now apply wfb_wf |].
  intros sec v Hg. apply get_In in Hg.
  rewrite forallb_forall in Hall. specialize (Hall (sec, v) Hg).
  cbn [snd] in Hall. destruct v as [| | | | | vs]; try discriminate.
  apply andb_true_iff in Hall as [Hwfv Hleaves].
  exists vs. split; [reflexivity |]. split; [now apply wfb_wf |].
  intros fld x Hx fields ->. apply get_In in Hx.
  rewrite forallb_forall in Hleaves. specialize (Hleaves (fld, JObj fields) Hx).
  discriminate.
Qed.

Lemma DEFAULTS_layered : layered Config.DEFAULTS.
Proof.
  eexists. split; [reflexivity |]. intros sec v Hg. apply get_In in Hg.
  repeat (destruct Hg as [[= <- <-] | Hg]; [eauto |]). destruct Hg.
Qed.

Lemma field_empty (sec fld : string) : field sec fld (@JObj float []) = None.
Proof. reflexivity. Qed.

(** The configuration before the env fallback. *)
Lemma merged_config (fc c : json float) :
  flat fc -> flat c ->
  layered (Config.merged (Config.merged Config.DEFAULTS fc) c) /\
  forall sec fld,
    field sec fld (Config.merged (Config.merged Config.DEFAULTS fc) c)
    = firstDefined sec fld c fc.
Proof.
  intros Hfc Hc.
  destruct (field_merged Config.DEFAULTS fc DEFAULTS_layered Hfc) as [Hl1 Hf1].
  destruct (field_merged _ c Hl1 Hc) as [Hl2 Hf2].
  split; [exact Hl2 |]. intros sec fld. rewrite Hf2, Hf1. reflexivity.
Qed.

Lemma envFallback_fields (openai anthropic : option string) (c0 : json float)
  (k : json float) :
  layered c0 ->
  field "ai" "apiKey" c0 = Some k ->
  exists cfg,
    Config.envFallback openai anthropic c0 = Config.Loaded cfg /\
    forall sec fld,
      field sec fld cfg =
      if (String.eqb sec "ai" && String.eqb fld "apiKey")%bool
      then Some (if MemStore.truthy k then k
                 else JStr (Config.envKey openai anthropic))
      else field sec fld c0.
Proof.
  intros (fields0 & -> & Hlayers) Hkey. unfold field in Hkey.
  cbn [lookupPath] in Hkey.
  destruct (JsMap.get "ai" fields0) as [aiv |] eqn:Eai; [| discriminate].
  destruct (Hlayers "ai" aiv Eai) as (ai & ->).
  destruct (JsMap.get "apiKey" ai) as [k' |] eqn:Ek; [| discriminate].
  injection Hkey as ->.
  unfold Config.envFallback. cbn [MemStore.getProp]. rewrite Eai, Ek.
  destruct (MemStore.truthy k) eqn:Et.
  - eexists. split; [reflexivity |]. intros sec fld.
    destruct (String.eqb sec "ai") eqn:Es; [| reflexivity].
    apply String.eqb_eq in Es. subst sec.
    destruct (String.eqb fld "apiKey") eqn:Ef; [| reflexivity].
    apply String.eqb_eq in Ef. subst fld. cbn [andb].
    unfold field. cbn [lookupPath]. now rewrite Eai, Ek.
  - eexists. split; [reflexivity |]. intros sec fld.
    unfold field. cbn [lookupPath Config.spread MemStore.Object_entries].
    destruct (String.eqb sec "ai") eqn:Es.
    + apply String.eqb_eq in Es. subst sec. rewrite get_set_same.
      destruct (String.eqb fld "apiKey") eqn:Ef; cbn [andb].
      * apply String.eqb_eq in Ef. subst fld. now rewrite get_set_same.
      * apply String.eqb_neq in Ef.
        rewrite (get_set_other "apiKey" fld) by congruence. now rewrite Eai.
    + apply String.eqb_neq in Es. cbn [andb].
      now rewrite (get_set_other "ai" sec) by congruence.
Qed.

(** [loadConfig] on a two-level file and two-level overrides (or none)
    does not throw, and every field [sec.fld] of the configuration is the
    first of the CLI overrides, the file (keys in camelCase) and [DEFAULTS]
    that has it; only [ai.apiKey], when that value is falsy, is replaced by
    [OPENAI_API_KEY], or by [ANTHROPIC_API_KEY] when the first is unset, or
    by [""]. *)
Theorem loadConfig_precedence (file : snapshotFile float)
  (cliOverrides : option (json float)) (openai anthropic : option string) :
  file <> Unparsable ->
  flat (fileConfig file) ->
  flat (overridesOf cliOverrides) ->
  exists cfg,
    Config.loadConfig file cliOverrides openai anthropic = Config.Loaded cfg /\
    forall sec fld,
      field sec fld cfg =
      let chosen := firstDefined sec fld (overridesOf cliOverrides)
                                 (fileConfig file) in
      if (String.eqb sec "ai" && String.eqb fld "apiKey")%bool
      then option_map (fun k => if MemStore.truthy k then k
                                else JStr (Config.envKey openai anthropic))
                      chosen
      else chosen.
Proof.
  intros Hfile Hfc Hc.
  destruct (merged_config _ _ Hfc Hc) as [Hl Hf].
  assert (Hcfg : exists c0,
            layered c0 /\
            (forall sec fld,
               field sec fld c0
               = firstDefined sec fld (overridesOf cliOverrides)
                              (fileConfig file)) /\
            Config.loadConfig file cliOverrides openai anthropic
            = Config.envFallback openai anthropic c0).
  { assert (Hm : Config.deepMerge Config.DEFAULTS (fileConfig file)
                 = Some (Config.merged Config.DEFAULTS (fileConfig file))).
    { destruct Hfc as (ffs & -> & _). reflexivity. }
    assert (Hload : Config.loadConfig file cliOverrides openai anthropic =
              match Config.deepMerge Config.DEFAULTS (fileConfig file) with
              | None => Config.Threw
              | Some config =>
                  match
                    match cliOverrides with
                    | Some overrides =>
                        if MemStore.truthy overrides
                        then Config.deepMerge config overrides
                        else Some config
                    | None => Some config
                    end
                  with
                  | Some c => Config.envFallback openai anthropic c
                  | None => Config.Threw
                  end
              end).
    { destruct file as [| | [| | | | |]]; try reflexivity. now destruct Hfile. }
    rewrite Hload, Hm. clear Hload Hm.
    destruct cliOverrides as [overrides |]; cbn [overridesOf] in *.
    - destruct Hc as (cfs & -> & Hc). cbn [MemStore.truthy Config.deepMerge].
      eexists. split; [exact Hl |]. split; [exact Hf | reflexivity].
    - destruct (field_merged Config.DEFAULTS (fileConfig file)
                  DEFAULTS_layered Hfc) as [Hl1 Hf1].
      eexists. split; [exact Hl1 |]. split; [| reflexivity].
      intros sec fld. rewrite Hf1. unfold firstDefined.
      now rewrite field_empty. }
  destruct Hcfg as (c0 & Hl0 & Hf0 & ->).
  assert (Hkey : exists k, field "ai" "apiKey" c0 = Some k).
  { rewrite Hf0. unfold firstDefined.
    destruct (field "ai" "apiKey" (overridesOf cliOverrides)); [eauto |].
    destruct (field "ai" "apiKey" (fileConfig file)); [eauto |].
    eexists. reflexivity. }
  destruct Hkey as [k Hk].
  destruct (envFallback_fields openai anthropic c0 k Hl0 Hk)
    as (cfg & -> & Hfinal).
  exists cfg. split; [reflexivity |].
  intros sec fld. cbv zeta. rewrite Hfinal.
  destruct (String.eqb sec "ai" && String.eqb fld "apiKey")%bool eqn:E.
  - apply andb_true_iff in E as [Es Ef].
    apply String.eqb_eq in Es, Ef. subst sec fld.
    now rewrite <- Hf0, Hk.
  - apply Hf0.
Qed.

(** A file [generate: {top_n: 5, skip_hours: 24}] and the overrides of
    [--nodes python --ai-model gpt-4o], with only [ANTHROPIC_API_KEY] set. *)
Definition sample_file : json float :=
  JObj [("generate", JObj [("top_n", JNum 5%float);
                           ("skip_hours", JNum 24%float)])].

Definition sample_overrides : json float :=
  JObj [("generate", JObj [("nodes", JArr [JStr "python"])]);
        ("ai", JObj [("model", JStr "gpt-4o")])].

Lemma snakeToCamel_fields_witness :
  field "generate" "skipHours" (Config.snakeToCamel sample_file)
  = Some (JNum 24%float).
Proof.
  assert (Hflat : snakeFlat sample_file).
  { eexists. split; [reflexivity |]. split.
    - repeat constructor. intros [].
    - intros sec v [[= <- <-] | []]. eexists. split; [reflexivity |]. split.
      + repeat constructor; cbn; intuition discriminate.
      + intros fld x [[= <- <-] | [[= <- <-] | []]] fields; discriminate. }
  destruct (snakeToCamel_fields sample_file Hflat) as [_ Hfields].
  exact (Hfields "generate" "skip_hours" (JNum 24%float) eq_refl).
Defined.

Lemma loadConfig_precedence_witness :
  exists cfg,
    Config.loadConfig (Parsed sample_file) (Some sample_overrides)
                      None (Some "sk-ant") = Config.Loaded cfg /\
    field "generate" "topN" cfg = Some (JNum 5%float) /\
    field "generate" "nodes" cfg = Some (JArr [JStr "python"]) /\
    field "generate" "buildIntervalMin" cfg = Some (JNum 30%float) /\
    field "ai" "model" cfg = Some (JStr "gpt-4o") /\
    field "ai" "apiKey" cfg = Some (JStr "sk-ant").
Proof.
  destruct (loadConfig_precedence (Parsed sample_file) (Some sample_overrides)
              None (Some "sk-ant")) as (cfg & Hload & Hf).
  - discriminate.
  - apply flatb_flat. reflexivity.
  - apply flatb_flat. reflexivity.
  - exists cfg. split; [exact Hload |]. rewrite !Hf. repeat split.
Defined.

(** [loadConfig] throws on a file that sets [ai] to nothing ([ai:] in
    YAML is [null]) unless the CLI overrides give an [ai] section: the
    [null] replaces the default section and [config.ai.apiKey] is read from
    it. *)
Theorem loadConfig_null_section (rfs : list (string * json float))
  (openai anthropic : option string) :
  NoDup (map Config.camelKey (JsMap.keys rfs)) ->
  JsMap.get "ai" rfs = Some JNull ->
  Config.loadConfig (Parsed (JObj rfs)) None openai anthropic = Config.Threw /\
  forall cfs, NoDup (JsMap.keys cfs) -> JsMap.get "ai" cfs = None ->
    Config.loadConfig (Parsed (JObj rfs)) (Some (JObj cfs)) openai anthropic
    = Config.Threw.
Proof.
  intros Hnd Hai.
  assert (Hnd' : NoDup (JsMap.keys (JsObject.ownEntries (map camelEntry rfs))))
    by now apply NoDup_camel_keys.
  assert (Hget : JsMap.get "ai" (JsObject.ownEntries (map camelEntry rfs))
                 = Some JNull).
  { rewrite get_enumerated.
    apply (get_camelEntry rfs "ai" JNull Hnd Hai). }
  assert (Hm : lookupPath ["ai"]
                 (Config.merged Config.DEFAULTS
                    (JObj (JsObject.ownEntries (map camelEntry rfs))))
               = Some JNull).
  { rewrite (get_merged _ _ "ai" Hnd'), Hget. reflexivity. }
  assert (Hthrow : forall c0, lookupPath ["ai"] c0 = Some JNull ->
                              Config.envFallback openai anthropic c0
                              = Config.Threw).
  { intros c0 Hc0. unfold Config.envFallback. cbn [lookupPath] in Hc0.
    destruct c0; try discriminate. cbn [MemStore.getProp].
    destruct (JsMap.get "ai" fields) as [[] |]; try discriminate. reflexivity. }
  unfold Config.loadConfig. rewrite (snakeToCamel_entries rfs Hnd).
  cbn [Config.deepMerge MemStore.truthy]. split; [now apply Hthrow |].
  intros cfs Hndc Hnone.
  apply Hthrow. rewrite (get_merged _ cfs "ai" Hndc), Hnone.
  cbn [lookupPath] in Hm.
  destruct (Config.merged Config.DEFAULTS _); try discriminate.
  cbn [Config.spread MemStore.Object_entries].
  now destruct (JsMap.get "ai" fields).
Qed.

Lemma loadConfig_null_section_witness :
  Config.loadConfig (Parsed (JObj [("ai", JNull)])) None None None
  = Config.Threw.
Proof.
  apply (loadConfig_null_section [("ai", JNull)] None None).
  - repeat constructor. intros [].
  - reflexivity.
Defined.

End ConfigFacts.

(* ------------------------------------------------------------------ *)
(** * The requests of the client *)

Module ClientFacts.

Import V2EXClient.

(** The value of a hexadecimal digit. *)
Definition hexValue (c : ascii) : nat :=
  let n := nat_of_ascii c in
  if isDigit c then n - 48 else n - 55.

(** Reading back what [encodeURIComponent] wrote. *)
Fixpoint decode (fuel : nat) (s : string) : string :=
  match fuel with
  | O => EmptyString
  | S fuel' =>
      match s with
      | EmptyString => EmptyString
      | String "%" (String h (String l rest)) =>
          String (ascii_of_nat (16 * hexValue h + hexValue l)) (decode fuel' rest)
      | String c rest => String c (decode fuel' rest)
      end
  end.

Lemma decode_encodeByte (c : ascii) (rest : string) (fuel : nat) :
  decode (S fuel) (encodeByte c ++ rest) = String c (decode fuel rest).
Proof.
  destruct c as [[] [] [] [] [] [] [] []]; reflexivity.
Qed.

Lemma decode_encode (s : string) :
  decode (String.length s) (encodeURIComponent s) = s.
Proof.
  induction s as [| c rest IH]; [reflexivity |].
  cbn [String.length encodeURIComponent].
  now rewrite decode_encodeByte, IH.
Qed.

Lemma encodeURIComponent_inj (s s' : string) :
  encodeURIComponent s = encodeURIComponent s' -> s = s'.
Proof.
  revert s'. induction s as [| c rest IH]; intros s' Heq.
  - destruct s' as [| c' rest']; [reflexivity |].
    cbn [encodeURIComponent] in Heq.
    apply (f_equal (decode 1)) in Heq. rewrite decode_encodeByte in Heq.
    discriminate Heq.
  - destruct s' as [| c' rest'].
    + cbn [encodeURIComponent] in Heq.
      apply (f_equal (decode 1)) in Heq. rewrite decode_encodeByte in Heq.
      discriminate Heq.
    + cbn [encodeURIComponent] in Heq.
      assert (Hc : c = c').
      { apply (f_equal (decode 1)) in Heq.
        rewrite !decode_encodeByte in Heq. now injection Heq. }
      subst c'. f_equal. apply IH.
      clear IH. revert Heq. generalize (encodeURIComponent rest).
      generalize (encodeURIComponent rest').
      unfold encodeByte. destruct (unreserved c); cbn [append];
        intros u u' [= ->]; reflexivity.
Qed.

(** A character that can appear in an encoded component. *)
Definition safe (c : ascii) : bool :=
  (unreserved c || Ascii.eqb c "%")%bool.

Fixpoint allSafe (s : string) : bool :=
  match s with
  | EmptyString => true
  | String c rest => (safe c && allSafe rest)%bool
  end.

Lemma allSafe_app (s s' : string) :
  allSafe (s ++ s') = (allSafe s && allSafe s')%bool.
Proof.
  induction s as [| c rest IH]; [reflexivity |].
  cbn [append allSafe]. now rewrite IH, andb_assoc.
Qed.

Lemma allSafe_encodeByte (c : ascii) : allSafe (encodeByte c) = true.
Proof.
  destruct c as [[] [] [] [] [] [] [] []]; reflexivity.
Qed.

Lemma allSafe_encode (s : string) : allSafe (encodeURIComponent s) = true.
Proof.
  induction s as [| c rest IH]; [reflexivity |].
  cbn [encodeURIComponent]. now rewrite allSafe_app, allSafe_encodeByte, IH.
Qed.

Lemma append_inj_l (p s s' : string) : (p ++ s = p ++ s')%string -> s = s'.
Proof.
  induction p as [| c rest IH]; cbn [append]; [trivial |].
  intros [= Heq]. now apply IH.
Qed.

(** Two sources are fetched from the same path only when they are the same
    source, or two spellings of "hot", or two spellings of "latest"; the
    path of a node carries the node name in a single query parameter, made
    of unreserved characters and percent escapes only (no [&], [=], [#],
    [/], [?] or space), from which the name can be read back. *)
Theorem sourcePath_separates (source source' : string) :
  (sourcePath source = sourcePath source' ->
   source = source' \/
   toLowerCase source = toLowerCase source') /\
  (toLowerCase source <> "hot" -> toLowerCase source <> "latest" ->
   sourcePath source
     = ("/api/topics/show.json?node_name=" ++ encodeURIComponent source)%string /\
   allSafe (encodeURIComponent source) = true /\
   decode (String.length source) (encodeURIComponent source) = source).
Proof.
  split.
  - unfold sourcePath.
    destruct (String.eqb (toLowerCase source) "hot") eqn:Eh;
      destruct (String.eqb (toLowerCase source') "hot") eqn:Eh';
      try (apply String.eqb_eq in Eh); try (apply String.eqb_eq in Eh').
    + intros _. right. congruence.
    + destruct (String.eqb (toLowerCase source') "latest"); discriminate.
    + destruct (String.eqb (toLowerCase source) "latest"); discriminate.
    + destruct (String.eqb (toLowerCase source) "latest") eqn:El;
        destruct (String.eqb (toLowerCase source') "latest") eqn:El';
        try (apply String.eqb_eq in El); try (apply String.eqb_eq in El');
        try discriminate.
      * intros _. right. congruence.
      * intros Heq. left. apply append_inj_l in Heq.
        now apply encodeURIComponent_inj.
  - intros Hh Hl. apply String.eqb_neq in Hh, Hl.
    unfold sourcePath. rewrite Hh, Hl.
    split; [reflexivity |]. split; [apply allSafe_encode | apply decode_encode].
Qed.

Example sourcePath_examples :
  map sourcePath ["hot"; "HOT"; "Latest"; "python"; "c++"; "a&b=c"; "问与答"]
  = ["/api/topics/hot.json"; "/api/topics/hot.json"; "/api/topics/latest.json";
     "/api/topics/show.json?node_name=python";
     "/api/topics/show.json?node_name=c%2B%2B";
     "/api/topics/show.json?node_name=a%26b%3Dc";
     "/api/topics/show.json?node_name=%E9%97%AE%E4%B8%8E%E7%AD%94"].
Proof. reflexivity. Qed.

Section Normalize.
Context (Number_toString : float -> string) (Date_of : float -> float).
Context (pow : MathPow float).

(** [replies: t.replies || 0] cleans the reply count: the item never has
    a NaN there; a count that is a number other than zero is taken as it
    is; and for a count of zero or NaN the item has 0 replies and scores 0
    at every clock reading. *)
Theorem normalize_replies (t : V2EXTopic float) :
  let it := normalize Number_toString Date_of t in
  let truthy := (PrimFloat.ltb (t_replies t) 0 || PrimFloat.ltb 0 (t_replies t))%bool in
  PrimFloat.is_nan (replies it) = false /\
  (truthy = true -> replies it = t_replies t) /\
  (truthy = false ->
   replies it = 0%float /\ forall now, computeScore now it = 0%float).
Proof.
  intros it truthy. subst it.
  assert (Hr : replies (normalize Number_toString Date_of t)
               = if truthy then t_replies t else 0%float) by reflexivity.
  split; [| split].
  - rewrite Hr. destruct truthy eqn:E; [| reflexivity].
    destruct (PrimFloat.is_nan (t_replies t)) eqn:En; [| reflexivity].
    apply ScorerEdges.nan_unique in En. subst truthy. rewrite En in E.
    discriminate E.
  - intros Ht. now rewrite Hr, Ht.
  - intros Ht. rewrite Ht in Hr. split; [exact Hr |].
    intros now. rewrite ScorerBinary64.computeScore_binary64_unfold, Hr.
    reflexivity.
Qed.

End Normalize.

End ClientFacts.

(* ------------------------------------------------------------------ *)
(** * The generate command and its raw data *)

Module GenerateFacts.

Import JsMapFacts.

Lemma length_append (a b : string) :
  String.length (a ++ b) = (String.length a + String.length b)%nat.
Proof.
  induction a as [| c rest IH]; [reflexivity |].
  cbn [append String.length]. now rewrite IH.
Qed.

Section Files.
Context {num : Type} `{Number num}.
Context (timeOf : option (json num) -> num)
        (reviveItem : json num -> NewsItem num)
        (itemJson : NewsItem num -> json num)
        (timeJson : num -> json num).

Let getRecentIds := Storage.getRecentIds timeOf.
Let save := Storage.save itemJson timeJson.
Let load := Storage.load reviveItem.

(** Reading never removes an id. *)
Lemma addIds_keeps (items : list (json num)) (ids : JsSet.t) (i : string) :
  JsSet.has i ids = true -> JsSet.has i (Storage.addIds items ids) = true.
Proof.
  revert ids. induction items as [| item rest IH]; intros ids Hi; [exact Hi |].
  cbn [Storage.addIds].
  destruct (MemStore.getProp item "id") as [[[] |] |]; try (now apply IH);
    try exact Hi.
  apply IH. rewrite has_add. now rewrite Hi, orb_true_r.
Qed.

Lemma readFile_keeps (cutoff : num) (file : snapshotFile num) (ids : JsSet.t)
  (i : string) :
  JsSet.has i ids = true ->
  JsSet.has i (Storage.readFile timeOf cutoff file ids) = true.
Proof.
  intros Hi. unfold Storage.readFile. destruct file as [| | data]; try exact Hi.
  destruct (MemStore.getProp data "fetchedAt") as [fetchedAt |]; [| exact Hi].
  destruct (leb cutoff (timeOf fetchedAt)); [| exact Hi].
  destruct (MemStore.getProp data "items") as [[v |] |]; try exact Hi.
  destruct (MemStore.iterate v); [now apply addIds_keeps | exact Hi].
Qed.

Lemma readFiles_keep (cutoff : num) (files : list (string * snapshotFile num))
  (ids : JsSet.t) (i : string) :
  JsSet.has i ids = true ->
  JsSet.has i (fold_left (fun acc f => Storage.readFile timeOf cutoff (snd f) acc)
                         files ids) = true.
Proof.
  revert ids. induction files as [| f rest IH]; intros ids Hi; [exact Hi |].
  cbn [fold_left]. apply IH. now apply readFile_keeps.
Qed.

(** The ids of well-formed items are all added. *)
Lemma addIds_adds (items : list (NewsItem num)) (ids : JsSet.t) (it : NewsItem num) :
  (forall x, In x items ->
     MemStore.getProp (itemJson x) "id" = Some (Some (JStr (id x)))) ->
  In it items ->
  JsSet.has (id it) (Storage.addIds (map itemJson items) ids) = true.
Proof.
  revert ids. induction items as [| x rest IH]; intros ids Hid Hin;
    [destruct Hin |].
  cbn [map Storage.addIds]. rewrite (Hid x (or_introl eq_refl)).
  destruct Hin as [-> | Hin].
  - apply addIds_keeps. apply has_add_same.
  - apply IH; [| exact Hin]. intros y Hy. apply Hid. now right.
Qed.

Lemma In_set_same {V : Type} (k : string) (v : V) (m : JsMap.t V) :
  In (k, v) (JsMap.set k v m).
Proof.
  induction m as [| [k' v'] rest IH]; cbn [JsMap.set]; [now left |].
  destruct (String.eqb k k') eqn:E; [| right; exact IH].
  apply String.eqb_eq in E. subst k'. now left.
Qed.

Lemma endsWith_fileName (date : string) :
  Storage.endsWith (Storage.fileName date) ".json" = true.
Proof.
  unfold Storage.endsWith, Storage.fileName.
  rewrite length_append. cbn [String.length].
  replace (String.length date + 5 - 5)%nat with (String.length date) by lia.
  replace (5 <=? String.length date + 5)%nat with true
    by (symmetry; apply Nat.leb_le; lia).
  cbn [andb]. apply String.eqb_eq.
  induction date as [| c rest IH]; [reflexivity |].
  cbn [String.length append String.substring]. exact IH.
Qed.

(** The saved file is read when a later run looks for recent ids. *)
Lemma getRecentIds_save (t1 now hours : num) (date : string)
  (items : list (NewsItem num)) (d : Storage.dir num) (it : NewsItem num) :
  leb (sub now (mul (mul (mul hours sixty) sixty) thousand))
      (timeOf (Some (timeJson t1))) = true ->
  (forall x, In x items ->
     MemStore.getProp (itemJson x) "id" = Some (Some (JStr (id x)))) ->
  In it items ->
  JsSet.has (id it) (getRecentIds now hours (save t1 date items d)) = true.
Proof.
  intros Hrecent Hid Hin. unfold getRecentIds, Storage.getRecentIds, save.
  set (cutoff := sub now (mul (mul (mul hours sixty) sixty) thousand)) in *.
  set (file := Parsed (JObj [("date", JStr date); ("fetchedAt", timeJson t1);
                             ("items", JArr (map itemJson items))])).
  assert (Hfile : In (Storage.fileName date, file)
                     (filter (fun f => Storage.endsWith (fst f) ".json")
                             (Storage.save itemJson timeJson t1 date items d))).
  { apply filter_In. split; [apply In_set_same | apply endsWith_fileName]. }
  apply in_split in Hfile as (before & after & Hsplit).
  rewrite Hsplit, fold_left_app. cbn [fold_left snd].
  apply readFiles_keep. unfold Storage.readFile at 1. subst file.
  cbn [MemStore.getProp JsMap.get String.eqb Ascii.eqb Bool.eqb].
  rewrite Hrecent. cbn [MemStore.iterate]. now apply addIds_adds.
Qed.

Lemma addIds_union (items : list (json num)) (ids : JsSet.t) (i : string) :
  JsSet.has i (Storage.addIds items ids)
  = (JsSet.has i ids || JsSet.has i (Storage.addIds items JsSet.empty))%bool.
Proof.
  revert ids. induction items as [| item rest IH]; intros ids.
  - cbn. now rewrite orb_false_r.
  - cbn [Storage.addIds].
    destruct (MemStore.getProp item "id") as [[[] |] |];
      try apply IH; try (cbn; now rewrite orb_false_r).
    rewrite IH, (IH (JsSet.add s JsSet.empty)), !has_add. cbn.
    now rewrite orb_false_r, orb_assoc, (orb_comm (String.eqb i s)).
Qed.

Lemma readFile_union (cutoff : num) (file : snapshotFile num) (ids : JsSet.t)
  (i : string) :
  JsSet.has i (Storage.readFile timeOf cutoff file ids)
  = (JsSet.has i ids
     || JsSet.has i (Storage.readFile timeOf cutoff file JsSet.empty))%bool.
Proof.
  unfold Storage.readFile.
  destruct file as [| | data]; try (cbn; now rewrite orb_false_r).
  destruct (MemStore.getProp data "fetchedAt") as [fetchedAt |];
    [| cbn; now rewrite orb_false_r].
  destruct (leb cutoff (timeOf fetchedAt)); [| cbn; now rewrite orb_false_r].
  destruct (MemStore.getProp data "items") as [[v |] |];
    try (cbn; now rewrite orb_false_r).
  destruct (MemStore.iterate v); [apply addIds_union |].
  cbn. now rewrite orb_false_r.
Qed.

Lemma readFiles_union (cutoff : num) (files : list (string * snapshotFile num))
  (ids : JsSet.t) (i : string) :
  JsSet.has i (fold_left (fun acc f => Storage.readFile timeOf cutoff (snd f) acc)
                         files ids)
  = (JsSet.has i ids
     || existsb (fun f => JsSet.has i (Storage.readFile timeOf cutoff (snd f)
                                                        JsSet.empty))
                files)%bool.
Proof.
  revert ids. induction files as [| f rest IH]; intros ids.
  - cbn. now rewrite orb_false_r.
  - cbn [fold_left existsb]. rewrite IH, readFile_union. now rewrite orb_assoc.
Qed.

(** [getRecentIds] is the union of what the files give one by one: an id
    is in the result exactly when some file of the directory whose name ends
    in ".json" gives it, whatever the order in which the directory is listed.
    A file gives nothing when it does not parse, when its root is [null],
    when its [fetchedAt] does not compare as at or after the cutoff (a store
    snapshot, which has none, when [new Date(undefined)] compares to nothing),
    or when its [items] cannot be iterated. *)
Theorem getRecentIds_union (now hours : num) (d : Storage.dir num) (i : string) :
  let cutoff := sub now (mul (mul (mul hours sixty) sixty) thousand) in
  let gives (file : snapshotFile num) :=
    JsSet.has i (Storage.readFile timeOf cutoff file JsSet.empty) in
  (JsSet.has i (getRecentIds now hours d) = true <->
   exists name file, In (name, file) d /\
                     Storage.endsWith name ".json" = true /\
                     gives file = true) /\
  gives Unparsable = false /\
  gives (Parsed JNull) = false /\
  (forall data fetchedAt,
     MemStore.getProp data "fetchedAt" = Some fetchedAt ->
     leb cutoff (timeOf fetchedAt) = false -> gives (Parsed data) = false) /\
  (forall data, MemStore.getProp data "items" = Some None ->
                gives (Parsed data) = false).
Proof.
  intros cutoff gives. split; [| split; [reflexivity | split; [reflexivity |]]].
  - unfold getRecentIds, Storage.getRecentIds. fold cutoff.
    rewrite readFiles_union. cbn [JsSet.has JsSet.empty existsb orb].
    rewrite existsb_exists. split.
    + intros [[name file] [Hin Hgives]]. apply filter_In in Hin as [Hin Hname].
      exists name, file. now repeat split.
    + intros (name & file & Hin & Hname & Hgives). exists (name, file).
      split; [| exact Hgives]. apply filter_In. now split.
  - split.
    + intros data fetchedAt Hf Hold. subst gives. cbn beta.
      unfold Storage.readFile. now rewrite Hf, Hold.
    + intros data Hitems. subst gives. cbn beta. unfold Storage.readFile.
      destruct (MemStore.getProp data "fetchedAt") as [fetchedAt |];
        [| reflexivity].
      destruct (leb cutoff (timeOf fetchedAt)); [| reflexivity].
      now rewrite Hitems.
Qed.

(** [save] then [load]: the items of the saved date come back, whatever
    the file held before; another date is read as before; a date without a
    file has no items. *)
Theorem load_save (now : num) (date date' : string) (items : list (NewsItem num))
  (d : Storage.dir num) :
  (forall x, In x items -> reviveItem (itemJson x) = x) ->
  load date (save now date items d) = Some items /\
  (date' <> date -> load date' (save now date items d) = load date' d) /\
  (JsMap.get (Storage.fileName date') d = None -> load date' d = Some []).
Proof.
  intros Hleaf. unfold load, save, Storage.load, Storage.save. split; [| split].
  - rewrite get_set_same.
    cbn [MemStore.getProp JsMap.get String.eqb Ascii.eqb Bool.eqb].
    f_equal. rewrite map_map. rewrite <- (map_id items) at 2.
    now apply map_ext_in.
  - intros Hne. rewrite get_set_other; [reflexivity |].
    unfold Storage.fileName. intros Heq. apply Hne.
    revert Heq. generalize date'. clear.
    induction date as [| c rest IH]; intros [| c' rest']; cbn [append];
      try reflexivity.
    + intros Heq. apply (f_equal String.length) in Heq.
      cbn [String.length] in Heq. rewrite length_append in Heq.
      cbn [String.length] in Heq. lia.
    + intros Heq. apply (f_equal String.length) in Heq.
      cbn [String.length] in Heq. rewrite length_append in Heq.
      cbn [String.length] in Heq. lia.
    + intros [= -> Heq]. f_equal. now apply IH.
  - intros Hnone. now rewrite Hnone.
Qed.

End Files.

Section Run.
Context {num : Type} `{Number num} `{MathPow num}.
Context (timeOf : option (json num) -> num)
        (itemJson : NewsItem num -> json num)
        (timeJson : num -> json num).
Context (summarizeItem : string -> string -> string -> string)
        (summarizePost : list (NewsItem num) -> string -> string)
        (renderMarkdown : string -> string -> string ->
                          list (SummarizedItem num) -> string)
        (expandVars : string -> string -> string).

Let runGenerate :=
  Generate.runGenerate timeOf itemJson timeJson summarizeItem summarizePost
                       renderMarkdown expandVars.

(** What [scoreAndRank] returns was given to it and is not skipped. *)
Lemma scoreAndRank_not_skipped (now : num) (items : list (NewsItem num))
  (topN : Z) (skipIds : JsSet.t) (excludeNodes : list string)
  (x : ScoredItem num) :
  In x (scoreAndRank now items topN skipIds excludeNodes) ->
  In (item x) items /\ JsSet.has (id (item x)) skipIds = false.
Proof.
  unfold scoreAndRank, Array_slice0. intros Hin.
  apply Ranker.firstn_incl in Hin.
  apply (Permutation_in _ (StoreInvariants.Array_sort_permutation _ _)) in Hin.
  apply filter_In in Hin as [Hin _].
  apply in_map_iff in Hin as [it [<- Hin]]. cbn [item].
  rewrite Ranker.uniqueLoop_firstOcc in Hin.
  apply Ranker.firstOcc_incl in Hin. apply filter_In in Hin as [Hin Hadm].
  split; [exact Hin |].
  unfold Ranker.admissible in Hadm. apply andb_true_iff in Hadm as [Hskip _].
  now apply negb_true_iff in Hskip.
Qed.

(** A run that finds the raw data of an earlier run, saved not longer ago
    than [skipHours], selects nothing that the earlier run fetched, whether
    the earlier run published it or not; when every fetched item was fetched
    by the earlier run, or nothing was fetched, it exits with code 1 without
    writing a digest or saving.  A run that writes a digest writes
    [out/daily-<today>.md], selected at least one item and saves everything
    it fetched under today's name. *)
Theorem generate_skips_recent (settings : Generate.Settings num)
  (clock : Generate.Clock num) (fetched : list (option (list (NewsItem num))))
  (savedAt : num) (date : string) (earlier : list (NewsItem num))
  (d : Storage.dir num) :
  let data := Storage.save itemJson timeJson savedAt date earlier d in
  leb (sub (Generate.atSkip clock)
           (mul (mul (mul (Generate.skipHours settings) sixty) sixty) thousand))
      (timeOf (Some (timeJson savedAt))) = true ->
  (forall x, In x earlier ->
     MemStore.getProp (itemJson x) "id" = Some (Some (JStr (id x)))) ->
  (forall x, In x (Generate.ranked timeOf settings clock fetched data) ->
     In (item x) (Generate.allItems fetched) /\
     ~ In (id (item x)) (map id earlier)) /\
  ((forall it, In it (Generate.allItems fetched) -> In (id it) (map id earlier)) ->
   runGenerate settings clock fetched data = Generate.Exited) /\
  (forall outPath md data',
     runGenerate settings clock fetched data = Generate.Written outPath md data' ->
     outPath = ("out/daily-" ++ Generate.today clock ++ ".md")%string /\
     Generate.ranked timeOf settings clock fetched data <> [] /\
     data' = Storage.save itemJson timeJson (Generate.atSave clock)
                          (Generate.today clock) (Generate.allItems fetched)
                          data).
Proof.
  intros data Hrecent Hid.
  assert (Hranked : forall x,
            In x (Generate.ranked timeOf settings clock fetched data) ->
            In (item x) (Generate.allItems fetched) /\
            ~ In (id (item x)) (map id earlier)).
  { intros x Hx. unfold Generate.ranked in Hx.
    apply scoreAndRank_not_skipped in Hx as [Hin Hskip].
    split; [exact Hin |]. intros Hold.
    apply in_map_iff in Hold as [it [Hit Hin']].
    pose proof (getRecentIds_save timeOf itemJson timeJson savedAt
                  (Generate.atSkip clock) (Generate.skipHours settings) date
                  earlier d it Hrecent Hid Hin') as Hhas.
    rewrite Hit in Hhas. fold data in Hhas. congruence. }
  split; [exact Hranked |]. split.
  - intros Hall. unfold runGenerate, Generate.runGenerate.
    destruct (Generate.allItems fetched) as [| it0 rest0] eqn:Eall;
      [reflexivity |].
    destruct (Generate.ranked timeOf settings clock fetched data)
      as [| x rest] eqn:Er; [reflexivity |].
    destruct (Hranked x (or_introl eq_refl)) as [Hin Hnew].
    destruct Hnew. now apply Hall.
  - intros outPath md data' Hrun. unfold runGenerate, Generate.runGenerate in Hrun.
    destruct (Generate.allItems fetched) as [| it0 rest0] eqn:Eall;
      [discriminate |].
    destruct (Generate.ranked timeOf settings clock fetched data)
      as [| x rest] eqn:Er; [discriminate |].
    injection Hrun as <- _ <-. repeat split. discriminate.
Qed.

End Run.

(** Yesterday's run saved posts "1" and "2"; today, 24 hours later and
    with [skipHours = 72], the sources return "2" and "3". *)
Definition time_view (v : option (json float)) : float :=
  match v with Some (JNum t) => t | _ => PrimFloat.nan end.

Definition yesterday_data : Storage.dir float :=
  Storage.save RoundTrip.item_to_json (@JNum float) 1704110400000%float
               "2024-01-01"
               [Markers.post "1" "tech" 9%float; Markers.post "2" "tech" 7%float]
               [].

Definition today_clock : Generate.Clock float :=
  Generate.mkClock 1704196800000%float 1704196800000%float 1704196800000%float
                   "2024-01-02".

Definition default_settings : Generate.Settings float :=
  Generate.mkSettings 20 72%float ["promotions"; "deals"; "cv"; "exchange"]
                      false "".

Lemma load_save_witness :
  Storage.load Snapshot.revive "2024-01-01" yesterday_data
  = Some [Markers.post "1" "tech" 9%float; Markers.post "2" "tech" 7%float].
Proof.
  apply (load_save Snapshot.revive RoundTrip.item_to_json (@JNum float)
           1704110400000%float "2024-01-01" "2024-01-02"
           [Markers.post "1" "tech" 9%float; Markers.post "2" "tech" 7%float]
           []).
  intros x _. now destruct x.
Defined.

Lemma generate_skips_recent_witness :
  Generate.runGenerate (H0 := ScorerEdges.pow_of_base) time_view
    RoundTrip.item_to_json (@JNum float)
    Markers.no_summary Markers.no_post_summary Markers.plain_render
    Markers.keep_template default_settings today_clock
    [Some [Markers.post "2" "tech" 7%float]; None;
     Some [Markers.post "1" "tech" 9%float]]
    yesterday_data
  = Generate.Exited.
Proof.
  apply (generate_skips_recent (H0 := ScorerEdges.pow_of_base) time_view
           RoundTrip.item_to_json (@JNum float)
           Markers.no_summary Markers.no_post_summary Markers.plain_render
           Markers.keep_template default_settings today_clock
           [Some [Markers.post "2" "tech" 7%float]; None;
            Some [Markers.post "1" "tech" 9%float]]
           1704110400000%float "2024-01-01"
           [Markers.post "1" "tech" 9%float; Markers.post "2" "tech" 7%float]
           []).
  - reflexivity.
  - intros y _. reflexivity.
  - intros it [<- | [<- | []]]; cbn; tauto.
Defined.

(** On that data the run selects post "3" only. *)
Example today_selects_3 :
  map (fun x => id (item x))
      (Generate.ranked (H0 := ScorerEdges.pow_of_base) time_view
         default_settings today_clock
         [Some [Markers.post "2" "tech" 7%float;
                Markers.post "3" "tech" 5%float]]
         yesterday_data)
  = ["3"].
Proof. vm_compute. reflexivity. Qed.

End GenerateFacts.

(* ------------------------------------------------------------------ *)
(** * A digest lists no topic twice *)

Module DigestIds.

Import JsMapFacts.

Section Generic.
Context {num : Type} `{Number num}.
Implicit Types (s : MemStore.t num).

(** Every item is stored under its own id, and every score table is a
    genuine [Map]. *)
Definition keyed s : Prop :=
  (forall i it, JsMap.get i (MemStore.items s) = Some it -> id it = i) /\
  (forall period scores,
     In (period, scores) (MemStore.periodScores s) -> JsMap.wf scores).

Lemma keyed_empty : keyed MemStore.empty.
Proof. split; [discriminate | intros period scores []]. Qed.

Lemma keyed_addItem period it sc s :
  keyed s -> keyed (MemStore.addItem period it sc s).
Proof.
  intros [Hitems Htables]. unfold MemStore.addItem. split.
  - cbn [MemStore.items]. intros i x Hg.
    destruct (String.eqb_spec (id it) i) as [<- | Hne].
    + rewrite get_set_same in Hg. now injection Hg as <-.
    + rewrite get_set_other in Hg by exact Hne. now apply Hitems.
  - cbn [MemStore.periodScores]. intros p scores Hin.
    apply StoreInvariants.In_set in Hin as [[-> ->] | Hold];
      [| now apply (Htables p)].
    assert (Hwf : JsMap.wf match JsMap.get period (MemStore.periodScores s) with
                           | Some scores => scores
                           | None => JsMap.empty
                           end).
    { destruct (JsMap.get period (MemStore.periodScores s)) as [old |] eqn:Eg;
        [| constructor].
      apply (Htables period). now apply get_In. }
    destruct (gtb sc _); [now apply wf_set | exact Hwf].
Qed.

Lemma keyed_frame s s' :
  MemStore.items s' = MemStore.items s ->
  (forall e, In e (MemStore.periodScores s') -> In e (MemStore.periodScores s)) ->
  keyed s -> keyed s'.
Proof.
  intros Hi Hp [Hitems Htables]. split.
  - rewrite Hi. exact Hitems.
  - intros period scores Hin. apply (Htables period). now apply Hp.
Qed.

(** The ids of the joined items are keys of the cut, in its order. *)
Lemma joined_ids (its : JsMap.t (NewsItem num)) (l : list (string * num)) :
  (forall i it, JsMap.get i its = Some it -> id it = i) ->
  map (fun x => id (item x)) (TopItems.joined its l)
  = map fst (filter (fun e => JsMap.has (fst e) its) l).
Proof.
  intros Hkeyed. induction l as [| [i sc] rest IH]; [reflexivity |].
  cbn [TopItems.joined flat_map filter fst snd]. unfold JsMap.has at 1.
  destruct (JsMap.get i its) as [it |] eqn:Eg.
  - cbn [app map item fst]. rewrite (Hkeyed i it Eg). f_equal. exact IH.
  - exact IH.
Qed.

Lemma topItems_distinct period n s :
  keyed s -> NoDup (map (fun x => id (item x)) (MemStore.topItems period n s)).
Proof.
  intros [Hitems Htables]. rewrite TopItems.topItems_unfold.
  destruct (JsMap.get period (MemStore.periodScores s)) as [scores |] eqn:Eg;
    [| constructor].
  rewrite (joined_ids _ _ Hitems).
  apply NoDup_ids_filter. unfold Array_slice0.
  rewrite <- firstn_map. apply Ranker.NoDup_firstn.
  apply (Permutation_NoDup
           (Permutation_sym
              (Permutation_map fst
                 (StoreInvariants.Array_sort_permutation _ scores)))).
  apply (Htables period). now apply get_In.
Qed.

End Generic.

(** On a store in which every item sits under its own id and every score
    table is a genuine [Map], which holds of the empty store and is kept by
    [addItem], by a Collector tick and by a Builder tick, [topItems] returns
    no id twice, and the items a Builder tick puts in its digest have
    distinct ids. *)
Theorem digest_lists_topics_once {num : Type} `{Number num} `{MathPow num}
  (summarizeItem : string -> string -> string -> string)
  (summarizePost : list (NewsItem num) -> string -> string)
  (renderMarkdown : string -> string -> string ->
                    list (SummarizedItem num) -> string)
  (expandVars : string -> string -> string)
  (s : MemStore.t num) :
  keyed s ->
  (forall period n,
     NoDup (map (fun x => id (item x)) (MemStore.topItems period n s))) /\
  (forall config clock,
     NoDup (map (fun x => id (item x))
                (Array_slice0 (Builder.generate_topN config)
                              (BelowThreshold.survivors config clock s)))) /\
  (forall period it sc, keyed (MemStore.addItem period it sc s)) /\
  (forall period fetched, keyed (fst (Collector.runOnce period fetched s))) /\
  (forall config clock,
     keyed (Builder.store
              (Builder.runOnce summarizeItem summarizePost renderMarkdown
                               expandVars config clock s))).
Proof.
  intros Hk.
  split; [intros; now apply topItems_distinct |].
  split.
  { intros config clock. unfold Array_slice0. rewrite <- firstn_map.
    apply Ranker.NoDup_firstn. unfold BelowThreshold.survivors.
    do 3 apply NoDup_ids_filter. now apply topItems_distinct. }
  split; [intros; now apply keyed_addItem |].
  split.
  { intros period fetched. unfold Collector.runOnce. cbn [fst].
    revert s Hk. induction fetched as [| r rest IH]; intros s Hk; [exact Hk |].
    cbn [fold_left]. apply IH. destruct r as [items |]; [| exact Hk].
    clear IH. revert s Hk. induction items as [| e more IH]; intros s Hk;
      [exact Hk |].
    unfold Collector.storeItems in *. cbn [fold_left]. apply IH.
    destruct (leb (Collector.scoreAt e) zero); [exact Hk |].
    now apply keyed_addItem. }
  intros config clock. unfold Builder.runOnce.
  destruct (MemStore.isPublished _ _ s); [exact Hk |].
  unfold Builder.candidates.
  match goal with
  | |- context [Builder.filterNotSkipped ?now ?cands s] =>
      destruct (BelowThreshold.filterNotSkipped_spec now cands s)
        as [_ (Hi & Hp & _)];
      destruct (Builder.filterNotSkipped now cands s) as [c2 s1]
  end.
  cbn [snd] in Hi, Hp.
  assert (Hk1 : keyed s1).
  { apply (keyed_frame s); [exact Hi | now rewrite Hp | exact Hk]. }
  destruct (_ <? Builder.minItems)%nat; [exact Hk1 |].
  cbn [Builder.store].
  match goal with
  | |- keyed (MemStore.gc ?now ?cut (fold_left _ ?chosen ?s2)) =>
      destruct (Publishing.markAll_frame (Builder.now clock)
                  (Builder.generate_skipHours config * 60 * 60 * 1000)
                  chosen s2) as (Hi2 & Hp2 & _);
      apply (keyed_frame (Publishing.markAll (Builder.now clock)
                            (Builder.generate_skipHours config * 60 * 60 * 1000)
                            chosen s2))
  end.
  - reflexivity.
  - intros e. rewrite Gc.gc_unfold. cbn [MemStore.periodScores].
    rewrite Gc.sweep_filter. intros Hin. now apply filter_In in Hin.
  - apply (keyed_frame s1); [exact Hi2 | now rewrite Hp2 | exact Hk1].
Qed.

Lemma digest_lists_topics_once_witness :
  NoDup (map (fun x => id (item x))
             (MemStore.topItems "2024-01-01" 4 Publishing.full_store)).
Proof.
  apply (digest_lists_topics_once (H0 := ScorerEdges.pow_of_base)
           Markers.no_summary Markers.no_post_summary Markers.plain_render
           Markers.keep_template Publishing.full_store).
  unfold Publishing.full_store. repeat apply keyed_addItem. apply keyed_empty.
Defined.

End DigestIds.
